(** * Auto Job Applier: the matching and application pipeline of [main.py]

    A shallow embedding of the parts of [main.py] that rank scored jobs,
    select the eligible ones, drive the application phase and build the
    report, together with the Selenium search routine.

    Conventions of the embedding:
    - a Python dict with a fixed set of keys is a record; a key that may be
      absent ([job.get(k, default)]) is an [option] field;
    - [job_details], a dict keyed by job id, is a [gmap Z JobDetails];
    - scores (Python [int] or [float]) are exact rationals [Q]; two scores
      are equal when they are [Qeq];
    - everything outside the process (browser, sub-processes, files, the
      random generator, standard input) is an explicit [World] argument;
    - what the code does to the outside is recorded as a list of events;
    - a record is a value; where the code writes into a dict that several
      ranked entries hold (the per-job loop), the entries are told apart
      by position, the dicts by an identity, and the writes are kept in a
      store. *)

From stdpp Require Import gmap strings list.
From Stdlib Require Import QArith Qminmax Sorting.Sorted Permutation Lia.
From Stdlib Require Import Strings.Ascii DecimalString.

Local Open Scope Z_scope.

(** ** Strings as Python uses them here *)

Module PyStr.

(** [s.lower()] on the ASCII range. *)
Definition lower_ascii (c : ascii) : ascii :=
  let n := nat_of_ascii c in
  if ((65 <=? n)%nat && (n <=? 90)%nat)%bool then ascii_of_nat (n + 32) else c.

Fixpoint lower (s : string) : string :=
  match s with
  | EmptyString => EmptyString
  | String c s' => String (lower_ascii c) (lower s')
  end.

(** [str(n)] for an integer. *)
Definition str_of_Z (n : Z) : string := NilZero.string_of_int (Z.to_int n).

(** [needle in hay] for two strings. *)
Fixpoint contains (needle hay : string) : bool :=
  (String.prefix needle hay ||
   match hay with
   | EmptyString => false
   | String _ hay' => contains needle hay'
   end)%bool.

(** Number of (possibly overlapping) places where [needle] occurs in
    [hay]; only used to describe inputs, the code never computes it. *)
Fixpoint occurrences (needle hay : string) : nat :=
  match hay with
  | EmptyString => if String.prefix needle hay then 1 else 0
  | String _ hay' =>
      ((if String.prefix needle hay then 1 else 0) + occurrences needle hay')%nat
  end.

End PyStr.

(** ** Data model *)

(** One entry of [job_details]: the dict extracted for a posting.  Only the
    keys read by the code below are kept. *)
Record JobDetails := mkJobDetails {
  job_id : option Z;
  role : option string;
  company_name : option string;
  location_of : option string;
  job_url : option string;
  apply_type : option string;
  application_method : option string
}.

(** One entry of [ranked_jobs], as built in [main]. *)
Record RankedJob := mkRankedJob {
  title : string;
  company : string;
  location : string;
  url : string;
  score : Q;
  explanation : string;
  details : JobDetails;
  eligibility_reason : option string;
  applied : option bool
}.

(** [d.get(key, default)] *)
Definition get_or {A} (o : option A) (default : A) : A :=
  match o with Some a => a | None => default end.

(** [job.get("details", {}).get("apply_type", default)] *)
Definition apply_type_of (j : RankedJob) (default : string) : string :=
  get_or (apply_type (details j)) default.

Definition set_score (j : RankedJob) (s : Q) (e : string) : RankedJob :=
  {| title := title j; company := company j; location := location j;
     url := url j; score := s; explanation := e; details := details j;
     eligibility_reason := eligibility_reason j; applied := applied j |}.

Definition set_eligibility_reason (j : RankedJob) (r : string) : RankedJob :=
  {| title := title j; company := company j; location := location j;
     url := url j; score := score j; explanation := explanation j;
     details := details j; eligibility_reason := Some r; applied := applied j |}.

Definition set_applied (j : RankedJob) (b : bool) : RankedJob :=
  {| title := title j; company := company j; location := location j;
     url := url j; score := score j; explanation := explanation j;
     details := details j; eligibility_reason := eligibility_reason j;
     applied := Some b |}.

Definition set_application_method (j : RankedJob) (m : string) : RankedJob :=
  let d := details j in
  {| title := title j; company := company j; location := location j;
     url := url j; score := score j; explanation := explanation j;
     details := {| job_id := job_id d; role := role d;
                   company_name := company_name d;
                   location_of := location_of d; job_url := job_url d;
                   apply_type := apply_type d;
                   application_method := Some m |};
     eligibility_reason := eligibility_reason j; applied := applied j |}.

(** ** Building the ranked list from the scorer's results *)

(** A scorer returns [(job_id, score, explanation)] tuples; [score] is
    [None] when the job could not be scored. *)
Definition ScoreTuple : Type := Z * option Q * string.

(** Exceptions of the embedded code. *)
Inductive exn :=
| KeyError | TypeError | EOFError | UnboundLocalError | UnicodeDecodeError
| OtherError.

Inductive result (A : Type) :=
| Ok (a : A)
| Raise (e : exn).
Arguments Ok {A} a.
Arguments Raise {A} e.

Definition rbind {A B} (m : result A) (f : A -> result B) : result B :=
  match m with Ok a => f a | Raise e => Raise e end.

(** [d[k]] raises [KeyError] on a missing key. *)
Definition dict_getitem (d : gmap Z JobDetails) (k : Z) : result JobDetails :=
  match d !! k with Some v => Ok v | None => Raise KeyError end.

(** [k in d] *)
Definition dict_contains (d : gmap Z JobDetails) (k : Z) : bool :=
  bool_decide (is_Some (d !! k)).

(** The dict literal of lines 2522-2530. *)
Definition ranked_job_of (job : JobDetails) (s : Q) (e : string) : RankedJob :=
  {| title := get_or (role job) "Unknown";
     company := get_or (company_name job) "Unknown";
     location := get_or (location_of job) "Unknown";
     url := get_or (job_url job) "";
     score := s; explanation := e; details := job;
     eligibility_reason := None; applied := None |}.

(** The loop of lines 2514-2533 (and its copy at 2536-2555): tuples without
    a score are skipped, tuples whose id is unknown are skipped. *)
Fixpoint build_ranked_jobs (job_details : gmap Z JobDetails)
    (results : list ScoreTuple) (ranked_jobs : list RankedJob)
    : result (list RankedJob) :=
  match results with
  | [] => Ok ranked_jobs
  | (jid, sc, expl) :: rest =>
      match sc with
      | None => build_ranked_jobs job_details rest ranked_jobs
      | Some s =>
          if dict_contains job_details jid then
            rbind (dict_getitem job_details jid) (fun job =>
              build_ranked_jobs job_details rest
                (ranked_jobs ++ [ranked_job_of job s expl]))
          else build_ranked_jobs job_details rest ranked_jobs
      end
  end.

(** Lines 2493-2555.  With keyword matching (any choice other than "1"
    and "2") the list is first built inside the matching branch and the
    common loop then appends to it once more. *)
Definition main_ranked_jobs (match_method : string)
    (job_details : gmap Z JobDetails) (results : list ScoreTuple)
    : result (list RankedJob) :=
  if (String.eqb match_method "1" || String.eqb match_method "2")%bool then
    build_ranked_jobs job_details results []
  else
    rbind (build_ranked_jobs job_details results [])
      (build_ranked_jobs job_details results).



(** ** Company-site filter, role bonus and sort *)

(** Lines 2561-2563. *)
Definition filter_company_site_jobs (filter_company_site : bool)
    (ranked_jobs : list RankedJob) : list RankedJob :=
  if filter_company_site then
    List.filter (fun job => negb (String.eqb (apply_type_of job "") "company_site"))
      ranked_jobs
  else ranked_jobs.

(** The inner loop of lines 2575-2578: one point per entry of [user_roles]
    whose lower-cased text occurs in the lower-cased title. *)
Fixpoint role_match_score (user_roles : list string) (job_role : string) : Z :=
  match user_roles with
  | [] => 0
  | r :: rest =>
      (if PyStr.contains (PyStr.lower r) job_role then 1 else 0)
      + role_match_score rest job_role
  end.

(** [min(a, b)] on numbers. *)
Definition py_min (a b : Q) : Q := if Qle_bool a b then a else b.

(** [bonus = min(role_match_score, 2)] *)
Definition role_bonus (user_roles : list string) (job : RankedJob) : Z :=
  Z.min (role_match_score user_roles (PyStr.lower (title job))) 2.

(** Lines 2569-2588 for one job. *)
Definition add_role_bonus (user_roles : list string) (job : RankedJob) : RankedJob :=
  let job_role := PyStr.lower (title job) in
  let role_match_score := role_match_score user_roles job_role in
  if 0 <? role_match_score then
    let bonus := Z.min role_match_score 2 in
    set_score job (py_min (score job + inject_Z bonus) 10)
      ("Role match bonus: +" ++ PyStr.str_of_Z bonus ++ ". " ++ explanation job)
  else job.

(** Lines 2568-2588. *)
Definition prioritize_roles (user_roles : list string)
    (ranked_jobs : list RankedJob) : list RankedJob :=
  match user_roles with
  | [] => ranked_jobs
  | _ => List.map (add_role_bonus user_roles) ranked_jobs
  end.

(** [ranked_jobs.sort(key=lambda x: x["score"], reverse=True)]: Python's
    sort is stable, also with [reverse=True].  [insert_desc x l] puts [x],
    which stood before every element of [l], in front of the first element
    whose score is not greater. *)
Fixpoint insert_desc (x : RankedJob) (l : list RankedJob) : list RankedJob :=
  match l with
  | [] => [x]
  | y :: l' =>
      if Qle_bool (score y) (score x) then x :: y :: l'
      else y :: insert_desc x l'
  end.

Fixpoint sort_by_score_desc (l : list RankedJob) : list RankedJob :=
  match l with
  | [] => []
  | x :: l' => insert_desc x (sort_by_score_desc l')
  end.

(** Lines 2567-2591: the ranking step. *)
Definition rank (user_roles : list string) (ranked_jobs : list RankedJob)
    : list RankedJob :=
  sort_by_score_desc (prioritize_roles user_roles ranked_jobs).

(** ** Eligibility *)

Definition Qltb (a b : Q) : bool := negb (Qle_bool b a).

Section EligibilityGate.

(** Whether the job shares a role or skill token with the candidate; the
    test lives in [keyword_matcher.py] and is left open here. *)
Variable has_token_overlap : RankedJob -> list string -> list string -> bool.

(** Modelled from the spec: [check_job_eligibility] is imported from
    [stages/llm_matcher/keyword_matcher.py], which is not part of the
    sources at hand.  Section 4.2: a score below [min_score] AND no
    role/skill token overlap makes the job ineligible, otherwise it is
    eligible; the reason names the deciding clause. *)
Definition check_job_eligibility (job : RankedJob) (user_roles : list string)
    (min_score : Q) (search_skills : list string) : bool * string :=
  if (Qltb (score job) min_score
      && negb (has_token_overlap job user_roles search_skills))%bool
  then (false, "score below minimum and no role or skill overlap")
  else (true, "score or role/skill overlap").

(** Lines 2620-2634: the loop that splits the ranked list. *)
Fixpoint select_eligible (user_roles search_skills : list string)
    (ranked_jobs eligible_jobs ineligible_jobs : list RankedJob)
    : list RankedJob * list RankedJob :=
  match ranked_jobs with
  | [] => (eligible_jobs, ineligible_jobs)
  | job :: rest =>
      let '(is_eligible, reason) :=
        check_job_eligibility job user_roles 5 search_skills in
      if is_eligible then
        select_eligible user_roles search_skills rest
          (eligible_jobs ++ [set_eligibility_reason job reason]) ineligible_jobs
      else
        select_eligible user_roles search_skills rest
          eligible_jobs (ineligible_jobs ++ [job])
  end.

(** Lines 2557-2669: from the freshly built ranked list to the eligible
    jobs that go on ([ranked_jobs = filtered_jobs]). *)
Definition eligible_ranked_jobs (filter_company_site : bool)
    (user_roles search_skills : list string) (ranked_jobs : list RankedJob)
    : list RankedJob :=
  let ranked_jobs := filter_company_site_jobs filter_company_site ranked_jobs in
  let ranked_jobs := rank user_roles ranked_jobs in
  fst (select_eligible user_roles search_skills ranked_jobs [] []).

(** The gate in the words of section 4.2, clause by clause. *)
Definition excluded_apply_types (filter_company_site : bool) : list string :=
  if filter_company_site then ["company_site"] else [].

Definition gate_by_precedence (filter_company_site : bool) (min_score : Q)
    (user_roles search_skills : list string) (job : RankedJob) : bool :=
  if existsb (String.eqb (apply_type_of job ""))
       (excluded_apply_types filter_company_site)
  then false
  else if (Qltb (score job) min_score
           && negb (has_token_overlap job user_roles search_skills))%bool
  then false
  else true.

End EligibilityGate.

(** ** The application phase *)

Inductive Mode := Full | Parse | Search | Match | Apply.

Record Args := mkArgs {
  mode : Mode;
  apply : bool;
  auto_apply : bool
}.

(** A value read back from a JSON file: nothing, a list of job dicts, or
    something that is not a list. *)
Inductive PyVal :=
| PyNone
| PyList (items : list RankedJob)
| PyOther (truthy : bool).

Definition truthy_val (v : PyVal) : bool :=
  match v with
  | PyNone => false
  | PyList [] => false
  | PyList (_ :: _) => true
  | PyOther b => b
  end.

Definition is_list (v : PyVal) : bool :=
  match v with PyList _ => true | _ => false end.

(** What one pass through the [try] body of the per-job loop meets.
    [PrepRaises]: an exception before the sub-process ran (user data,
    temporary file, spawning).  [Exited rc out late]: the sub-process ended
    with return code [rc] and standard output [out]; [late] tells whether
    an exception is raised after the outcome was recorded (database update
    or the pause). *)
Inductive Attempt :=
| PrepRaises
| Exited (returncode : Z) (stdout : string) (late_raises : bool).

(** What the run meets outside.  [database_available] is the module's
    [DATABASE_AVAILABLE]; [application_results_json] is what
    [load_json(results_file)] gives after the bulk worker ran;
    [bulk_handoff] tells whether the hand-over to the worker goes through
    without an exception. *)
Record World := mkWorld {
  database_available : bool;
  start_browser : bool;
  open_portal : bool;
  ensure_logged_in : bool;
  bulk_handoff : bool;
  application_results_json : PyVal;
  run_naukri_chatbot : nat -> RankedJob -> Attempt;
  random_draw : nat -> Z
}.

(** [SaveReport]: [report.json] is written. *)
Inductive Event :=
| StartBrowser
| CloseBrowser
| BulkWorker (job_queue : list RankedJob)
| ConnectorCall (job_url : string)
| Sleep (seconds : Z)
| SaveReport.

Record ReportEntry := mkReportEntry {
  r_title : string;
  r_company : string;
  r_location : string;
  r_score : Q;
  r_url : string;
  r_apply_type : string;
  r_application_method : string
}.

Record Report := mkReport {
  applied_count : nat;
  failed_count : nat;
  skipped_count : nat;
  applied_jobs : list ReportEntry;
  failed_jobs : list ReportEntry;
  skipped_jobs : list ReportEntry
}.

(** How [main] ends: a return code, with the report when one was built, or
    an exception that leaves [main]. *)
Inductive Exit :=
| Returned (code : Z) (report : option Report)
| Uncaught (e : exn).

(** [random.randint(5, 10)] *)
Definition randint_5_10 (w : World) (i : nat) : Z := 5 + random_draw w i mod 6.

(** Lines 222-283.  The sub-process is started once for the whole queue;
    its results are whatever [application_results.json] then holds. *)
Definition apply_to_multiple_jobs (w : World) (job_queue : list RankedJob)
    : list Event * result PyVal :=
  if bulk_handoff w then
    let results := application_results_json w in
    if (negb (truthy_val results) || negb (is_list results))%bool then
      ([BulkWorker job_queue],
       Ok (PyList (List.map (fun job => set_applied job false) job_queue)))
    else ([BulkWorker job_queue], Ok results)
  else ([], Raise OtherError).

(** [job.get("applied", False)] as a condition. *)
Definition applied_flag (job : RankedJob) : bool := get_or (applied job) false.

(** Lines 2834-2841. *)
Definition parse_apply_method (stdout : string) : option string :=
  if PyStr.contains "using chatbot" stdout then Some "chatbot"
  else if PyStr.contains "using direct" stdout then Some "direct"
  else if PyStr.contains "already applied" stdout then Some "already_applied"
  else None.

Record Outcomes := mkOutcomes {
  o_applied : list RankedJob;
  o_failed : list RankedJob;
  o_skipped : list RankedJob;
  o_trace : list Event
}.

(** The per-job loop handles the ranked entries by reference.  An entry is
    named by its position in [ranked_jobs], next to what it held when the
    loop began.  The dict an entry holds under ["details"] can be shared:
    [main] stores [job_details[job_id]] itself in every entry it builds
    for a posting (lines 2505, 2529 and 2551), so the two entries that
    keyword matching builds for one posting hold the same dict, whereas
    entries read from [ranked_jobs.json] each have a dict of their own.
    [details_id k] is the identity of the dict of the entry at position
    [k]: two entries share their details exactly when it agrees on them. *)
Definition Entry : Type := nat * RankedJob.

(** [applied_jobs] and [failed_jobs] as lists of references, the methods
    written into the details dicts so far, and the events.  The loop never
    touches [skipped_jobs]. *)
Record Loop := mkLoop {
  l_applied : list Entry;
  l_failed : list Entry;
  l_methods : gmap nat string;
  l_trace : list Event
}.

(** [applied_jobs = []; failed_jobs = []] *)
Definition loop_start : Loop :=
  {| l_applied := []; l_failed := []; l_methods := ∅; l_trace := [] |}.

Definition record_applied (e : Entry) (st : Loop) : Loop :=
  {| l_applied := l_applied st ++ [e]; l_failed := l_failed st;
     l_methods := l_methods st; l_trace := l_trace st |}.

Definition record_failed (e : Entry) (st : Loop) : Loop :=
  {| l_applied := l_applied st; l_failed := l_failed st ++ [e];
     l_methods := l_methods st; l_trace := l_trace st |}.

Definition emit (e : Event) (st : Loop) : Loop :=
  {| l_applied := l_applied st; l_failed := l_failed st;
     l_methods := l_methods st; l_trace := l_trace st ++ [e] |}.

(** Lines 2843-2847: the method read from the output is written into the
    details dict of the entry, where every entry that holds this dict
    sees it. *)
Definition store_method (id : nat) (stdout : string) (st : Loop) : Loop :=
  match parse_apply_method stdout with
  | Some apply_method =>
      {| l_applied := l_applied st; l_failed := l_failed st;
         l_methods := <[id := apply_method]> (l_methods st);
         l_trace := l_trace st |}
  | None => st
  end.

(** Lines 2778-2899: the body of the per-job loop for the entry at
    position [i]. *)
Definition apply_one (w : World) (args : Args) (details_id : nat -> nat)
    (i : nat) (job : RankedJob) (st : Loop) : Loop :=
  if apply args then
    match run_naukri_chatbot w i job with
    | PrepRaises => record_failed (i, job) st
    | Exited returncode stdout late_raises =>
        let st := emit (ConnectorCall (url job)) st in
        let success := returncode =? 0 in
        let st := store_method (details_id i) stdout st in
        let st :=
          if success then record_applied (i, job) st
          else record_failed (i, job) st in
        if late_raises then record_failed (i, job) st
        else emit (Sleep (randint_5_10 w i)) st
    end
  else
    emit (Sleep (randint_5_10 w i)) (record_applied (i, job) st).

(** Lines 2767-2899: [for i, job in enumerate(ranked_jobs)]. *)
Fixpoint apply_each (w : World) (args : Args) (details_id : nat -> nat)
    (i : nat) (ranked_jobs : list RankedJob) (st : Loop) : Loop :=
  match ranked_jobs with
  | [] => st
  | job :: rest =>
      apply_each w args details_id (S i) rest (apply_one w args details_id i job st)
  end.

(** An entry as the report reads it (lines 2923-2958): its own keys as
    they were, and under ["details"] the dict with the method that was
    written into it last, whichever entry the write came through. *)
Definition at_report (details_id : nat -> nat) (methods : gmap nat string)
    (e : Entry) : RankedJob :=
  match methods !! details_id (fst e) with
  | Some apply_method => set_application_method (snd e) apply_method
  | None => snd e
  end.

(** The lists of the loop as the code after it finds them;
    [skipped_jobs] is still empty. *)
Definition loop_outcomes (details_id : nat -> nat) (st : Loop) : Outcomes :=
  {| o_applied := List.map (at_report details_id (l_methods st)) (l_applied st);
     o_failed := List.map (at_report details_id (l_methods st)) (l_failed st);
     o_skipped := [];
     o_trace := l_trace st |}.

(** Lines 2923-2958: one entry of the report. *)
Definition report_entry (job : RankedJob) : ReportEntry :=
  {| r_title := title job; r_company := company job;
     r_location := location job; r_score := score job; r_url := url job;
     r_apply_type := apply_type_of job "unknown";
     r_application_method := get_or (application_method (details job)) "unknown" |}.

(** Lines 2918-2959. *)
Definition make_report (o : Outcomes) : Report :=
  {| applied_count := length (o_applied o);
     failed_count := length (o_failed o);
     skipped_count := length (o_skipped o);
     applied_jobs := List.map report_entry (o_applied o);
     failed_jobs := List.map report_entry (o_failed o);
     skipped_jobs := List.map report_entry (o_skipped o) |}.

(** Lines 189-201, with the write as an event: [save_json] writes the
    file only when the database is not in use.  The report holds strings,
    numbers and lists of them, which [json.dump] serialises. *)
Definition save_json (DATABASE_AVAILABLE : bool) (written : Event) : list Event :=
  if negb DATABASE_AVAILABLE then [written] else [].

(** Lines 2693-2694. *)
Definition direct_apply_jobs (ranked_jobs : list RankedJob) : list RankedJob :=
  List.filter
    (fun job => existsb (String.eqb (apply_type_of job "")) ["naukri"; "direct"])
    ranked_jobs.

(** Lines 2691-2747: the bulk branch.  It writes into no details dict. *)
Definition bulk_apply (w : World) (ranked_jobs : list RankedJob)
    : result Outcomes :=
  let direct := direct_apply_jobs ranked_jobs in
  match direct with
  | _ :: _ =>
      let '(trace, r) := apply_to_multiple_jobs w direct in
      rbind r (fun results =>
        if truthy_val results then
          match results with
          | PyList items =>
              Ok {| o_applied := List.filter applied_flag items;
                    o_failed := List.filter (fun job => negb (applied_flag job)) items;
                    o_skipped := []; o_trace := trace |}
          | _ =>
              Ok {| o_applied := []; o_failed := direct; o_skipped := [];
                    o_trace := trace |}
          end
        else
          Ok {| o_applied := []; o_failed := direct; o_skipped := [];
                o_trace := trace |})
  | [] =>
      Ok {| o_applied := []; o_failed := []; o_skipped := ranked_jobs;
            o_trace := [] |}
  end.

(** Lines 2749-2899: the per-job branch.  [None] stands for the early
    [return 1] after a failed login. *)
Definition regular_apply (w : World) (args : Args) (details_id : nat -> nat)
    (ranked_jobs : list RankedJob) : result (option Outcomes) :=
  if open_portal w then
    if ensure_logged_in w then
      Ok (Some (loop_outcomes details_id
                  (apply_each w args details_id 0 ranked_jobs loop_start)))
    else Ok None
  else Raise OtherError.

Definition enters_apply_phase (args : Args) (ranked_jobs : list RankedJob) : bool :=
  (match mode args with Full | Apply | Match => true | _ => false end
   && (apply args || auto_apply args)
   && match ranked_jobs with [] => false | _ => true end)%bool.

(** Lines 2682-3001: the end of [main].  The report goes through
    [save_json] (line 2963); the [finally] clause closes the browser on
    every way out of the [try] block. *)
Definition main_apply_phase (w : World) (args : Args)
    (details_id : nat -> nat) (ranked_jobs : list RankedJob)
    : list Event * Exit :=
  if enters_apply_phase args ranked_jobs then
    if start_browser w then
      let body :=
        if auto_apply args then
          match bulk_apply w ranked_jobs with
          | Ok o => Ok (Some o)
          | Raise e => Raise e
          end
        else regular_apply w args details_id ranked_jobs in
      match body with
      | Ok (Some o) =>
          (StartBrowser :: o_trace o
             ++ save_json (database_available w) SaveReport ++ [CloseBrowser],
           Returned 0 (Some (make_report o)))
      | Ok None => ([StartBrowser; CloseBrowser], Returned 1 None)
      | Raise e => ([StartBrowser; CloseBrowser], Uncaught e)
      end
    else ([StartBrowser], Returned 1 None)
  else ([], Returned 0 None).

(** ** The Selenium search, [search_naukri_with_selenium] *)

Module Selenium.

(** The calls that leave the process. *)
Inductive Call :=
| MakeScreenshotDir
| StartChrome
| Maximize
| Get (page_url : string)
| Screenshot (name : string)
| FindElements (what : string)
| FindElement (what : string)
| WaitFor (what : string)
| Click (what : string)
| TypeInto (what : string)
| ExecuteScript (what : string)
| Perform (what : string)
| SelectIndustries
| SelectDepartments
| WaitCards (page selector : nat)
| FindCards (page selector : nat)
| CardLink (page card selector : nat)
| FindNext (page selector : nat)
| NextUsable (page selector : nat)
| ClickNext (page : nat)
| Quit.

Inductive Ev :=
| Slept (seconds : Z)
| Called (c : Call)
| Asked (prompt : string).

(** The browser and the site as the routine meets them: which calls raise,
    which look-ups find something, how many job cards a page shows under a
    selector and which link a card gives under a title selector.  An
    answer depends on the call only, not on when it is made. *)
Record Browser := mkBrowser {
  fails : Call -> bool;
  finds : Call -> bool;
  cards : nat -> nat -> nat;
  href : nat -> nat -> nat -> string
}.

(** Computations of the routine: they read the browser, consume lines of
    standard input, leave a trace of events and return or raise. *)
Definition M (A : Type) : Type :=
  Browser -> list string -> list Ev * list string * result A.

Definition ret {A} (a : A) : M A := fun _ stdin => ([], stdin, Ok a).

Definition bind {A B} (m : M A) (f : A -> M B) : M B :=
  fun b stdin =>
    match m b stdin with
    | (t, stdin', Ok a) =>
        match f a b stdin' with
        | (t', stdin'', r) => (t ++ t', stdin'', r)
        end
    | (t, stdin', Raise e) => (t, stdin', Raise e)
    end.

Definition raise {A} (e : exn) : M A := fun _ stdin => ([], stdin, Raise e).

(** [try: m except Exception: h] *)
Definition try_except {A} (m : M A) (h : M A) : M A :=
  fun b stdin =>
    match m b stdin with
    | (t, stdin', Raise _) =>
        match h b stdin' with
        | (t', stdin'', r) => (t ++ t', stdin'', r)
        end
    | done => done
    end.

Notation "'let*' x ':=' m 'in' k" := (bind m (fun x => k))
  (at level 10, x name, m at level 100, k at level 200).
Notation "m >> k" := (bind m (fun _ => k))
  (at level 62, right associativity).

(** The browser at hand. *)
Definition browser : M Browser := fun b stdin => ([], stdin, Ok b).

(** A call that returns nothing of interest. *)
Definition call (c : Call) : M unit :=
  fun b stdin =>
    ([Called c], stdin, if fails b c then Raise OtherError else Ok tt).

(** A call whose answer is tested ([if placeholders:], [if js_result:]). *)
Definition probe (c : Call) : M bool :=
  fun b stdin =>
    ([Called c], stdin, if fails b c then Raise OtherError else Ok (finds b c)).

(** [time.sleep(n)] *)
Definition sleep (seconds : Z) : M unit :=
  fun _ stdin => ([Slept seconds], stdin, Ok tt).

(** [input(prompt)]: the next line of standard input, [EOFError] at its end. *)
Definition input (prompt : string) : M string :=
  fun _ stdin =>
    match stdin with
    | [] => ([Asked prompt], [], Raise EOFError)
    | line :: rest => ([Asked prompt], rest, Ok line)
    end.

Definition is_space (c : ascii) : bool :=
  let n := nat_of_ascii c in
  ((n =? 32)%nat || ((9 <=? n)%nat && (n <=? 13)%nat))%bool.

Fixpoint lstrip (s : string) : string :=
  match s with
  | String c s' => if is_space c then lstrip s' else s
  | EmptyString => EmptyString
  end.

Fixpoint rstrip (s : string) : string :=
  match s with
  | EmptyString => EmptyString
  | String c s' =>
      match rstrip s' with
      | EmptyString => if is_space c then EmptyString else String c EmptyString
      | t => String c t
      end
  end.

(** [s.strip()] *)
Definition strip (s : string) : string := rstrip (lstrip s).

Definition digit_of (c : ascii) : option Z :=
  let n := nat_of_ascii c in
  if ((48 <=? n)%nat && (n <=? 57)%nat)%bool then Some (Z.of_nat n - 48) else None.

Fixpoint digits_value (s : string) (acc : Z) : option Z :=
  match s with
  | EmptyString => Some acc
  | String c s' =>
      match digit_of c with
      | Some d => digits_value s' (10 * acc + d)
      | None => None
      end
  end.

(** [s.isdigit()] *)
Definition isdigit (s : string) : bool :=
  match s with
  | EmptyString => false
  | _ => bool_decide (is_Some (digits_value s 0))
  end.

(** [int(s)] for a decimal numeral with an optional sign; [None] stands
    for [ValueError]. *)
Definition py_int (s : string) : option Z :=
  match strip s with
  | EmptyString => None
  | String "-" EmptyString | String "+" EmptyString => None
  | String "-" t => Z.opp <$> digits_value t 0
  | String "+" t => digits_value t 0
  | t => digits_value t 0
  end.

(** The answer to a yes/no prompt: [input(...).strip().lower() == 'y']. *)
Definition confirm (prompt : string) : M bool :=
  let* line := input prompt in ret (String.eqb (PyStr.lower (strip line)) "y").

(** Lines 341-358. *)
Definition click_search_container : M unit :=
  try_except
    (let* placeholders := probe (FindElements "placeholder") in
     if placeholders then call (Click "placeholder") >> sleep 2
     else
       let* containers := probe (FindElements "container") in
       if containers then call (Click "container") >> sleep 2
       else ret tt)
    (ret tt).

(** Lines 368-385 and 444-461: fill an input box, or the active element. *)
Definition fill_input (what : string) : M unit :=
  try_except
    (let* inputs := probe (FindElements what) in
     if inputs then call (TypeInto what) >> sleep 2
     else call (TypeInto "active element") >> sleep 2)
    (ret tt).

(** Lines 416-423. *)
Definition experience_option_index (exp_value : Z) : Z :=
  let option_index := if exp_value =? 0 then 1 else exp_value + 1 in
  if 6 <? option_index then 6 else option_index.

(** Lines 390-439. *)
Definition select_experience (experience : string) : M unit :=
  try_except
    (call (FindElement "experience dropdown") >>
     call (Click "experience dropdown") >>
     sleep 2 >>
     call (Screenshot "naukri_exp_dropdown") >>
     try_except
       (call (WaitFor "experience list") >>
        match py_int experience with
        | None => raise OtherError
        | Some exp_value =>
            let option_index := experience_option_index exp_value in
            call (WaitFor ("experience option " ++ PyStr.str_of_Z option_index)) >>
            call (Click ("experience option " ++ PyStr.str_of_Z option_index)) >>
            sleep 2
        end)
       (ret tt))
    (ret tt).

(** Lines 466-480. *)
Definition click_search_button : M unit :=
  try_except
    (let* search_buttons := probe (FindElements "search button") in
     if search_buttons then call (Click "search button") >> sleep 2
     else call (TypeInto "enter key") >> sleep 2)
    (ret tt).

(** Lines 510-518. *)
Definition freshness_option_index (freshness : string) : Z :=
  if String.eqb freshness "1" then 1
  else if String.eqb freshness "3" then 2
  else if String.eqb freshness "7" then 3
  else if String.eqb freshness "15" then 4
  else 5.

(** Lines 492-569. *)
Definition apply_freshness_filter (freshness : option string) : M unit :=
  match freshness with
  | None | Some EmptyString => ret tt
  | Some freshness =>
      try_except
        (call (WaitFor "freshness filter") >>
         call (Click "freshness filter") >>
         sleep 2 >>
         let option_index := freshness_option_index freshness in
         try_except
           (call (WaitFor "freshness list") >>
            call (WaitFor ("freshness option " ++ PyStr.str_of_Z option_index)) >>
            call (Click ("freshness option " ++ PyStr.str_of_Z option_index)) >>
            sleep 5)
           (try_except
              (let* js_result := probe (ExecuteScript "click freshness option") in
               if js_result then sleep 5 else ret tt)
              (ret tt)))
        (ret tt)
  end.

(** Lines 571-688. *)
Definition industry_filter (industries : option (list string)) : M unit :=
  let* apply_industry_filter := confirm "Apply Industry Type filter? (y/n): " in
  if apply_industry_filter then
    match industries with
    | None | Some [] => ret tt
    | Some (_ :: _) =>
        try_except (call SelectIndustries) (ret tt) >>
        try_except
          (call (ExecuteScript "document.body.click();") >>
           sleep 2 >>
           call (Perform "click at offset") >>
           sleep 2 >>
           call (Perform "reset mouse"))
          (ret tt)
    end
  else ret tt.

(** Lines 707-721: the loop that reads department numbers until ["0"]. *)
Fixpoint read_departments (departments selected_departments : list string)
    (stdin : list string) : list Ev * list string * result (list string) :=
  let prompt := Asked "Enter department number (or 0 to finish selection): " in
  match stdin with
  | [] => ([prompt], [], Raise EOFError)
  | line :: rest =>
      let department_input := strip line in
      if String.eqb department_input "0" then ([prompt], rest, Ok selected_departments)
      else
        let selected :=
          match (if isdigit department_input then digits_value department_input 0
                 else None) with
          | Some n =>
              if ((1 <=? n) && (n <=? Z.of_nat (length departments)))%bool then
                match departments !! Z.to_nat (n - 1) with
                | Some selected_department =>
                    if existsb (String.eqb selected_department) selected_departments
                    then selected_departments
                    else selected_departments ++ [selected_department]
                | None => selected_departments
                end
              else selected_departments
          | None => selected_departments
          end in
        match read_departments departments selected rest with
        | (t, stdin', r) => (prompt :: t, stdin', r)
        end
  end.

(** Lines 692-730. *)
Definition department_filter (departments : option (list string)) : M unit :=
  let* apply_department_filter := confirm "Apply Department filter? (y/n): " in
  if apply_department_filter then
    match departments with
    | None => raise TypeError
    | Some departments =>
        let* selected_departments := (fun _ => read_departments departments []) in
        match selected_departments with
        | [] => ret tt
        | _ => try_except (call SelectDepartments) (ret tt)
        end
    end
  else ret tt.

(** Lines 326-730: everything inside the [try] that comes before the wait
    for the filtered results. *)
Definition search_and_filter (experience : string) (freshness : option string)
    (industries departments : option (list string)) : M unit :=
  call (Get "https://www.naukri.com") >>
  call (Screenshot "naukri_homepage") >>
  sleep 5 >>
  click_search_container >>
  call (Screenshot "naukri_after_click") >>
  fill_input "search input" >>
  select_experience experience >>
  fill_input "location input" >>
  click_search_button >>
  sleep 8 >>
  call (Screenshot "naukri_results") >>
  apply_freshness_filter freshness >>
  industry_filter industries >>
  department_filter departments.

(** Lines 771-786: the first card selector (of five) under which the page
    shows job cards gives their number; 0 when none does. *)
Fixpoint find_job_cards (current_page : nat) (selectors : list nat) : M nat :=
  match selectors with
  | [] => ret 0%nat
  | selector :: rest =>
      let* found :=
        try_except
          (call (WaitCards current_page selector) >>
           call (FindCards current_page selector) >>
           let* b := browser in
           ret (Some (cards b current_page selector)))
          (ret None) in
      match found with
      | Some (S n) => ret (S n)
      | _ => find_job_cards current_page rest
      end
  end.

(** Lines 805-814: the link of one card, under the first title selector
    that gives a non-empty [href]. *)
Fixpoint card_link (current_page card : nat) (selectors : list nat)
    : M (option string) :=
  match selectors with
  | [] => ret None
  | selector :: rest =>
      let* job_url :=
        try_except
          (call (CardLink current_page card selector) >>
           let* b := browser in
           ret (Some (href b current_page card selector)))
          (ret None) in
      match job_url with
      | Some (String c u) => ret (Some (String c u))
      | _ => card_link current_page card rest
      end
  end.

(** Lines 793-816: the links of the cards numbered from [i] on. *)
Fixpoint page_links (current_page i : nat) (remaining : nat)
    (page_job_links : list string) : M (list string) :=
  match remaining with
  | O => ret page_job_links
  | S remaining' =>
      let* link := card_link current_page i [0; 1; 2; 3; 4]%nat in
      page_links current_page (S i) remaining'
        (match link with
         | Some job_url => page_job_links ++ [job_url]
         | None => page_job_links
         end)
  end.

(** Lines 840-854: whether some selector produced a [Next] button; the
    search stops at the first one that is displayed and enabled. *)
Fixpoint find_next_button (current_page : nat) (selectors : list nat)
    (next_button : bool) : M bool :=
  match selectors with
  | [] => ret next_button
  | selector :: rest =>
      let* step :=
        try_except
          (call (FindNext current_page selector) >>
           try_except
             (let* usable := probe (NextUsable current_page selector) in
              ret (true, usable))
             (ret (true, false)))
          (ret (next_button, false)) in
      if snd step then ret (fst step)
      else find_next_button current_page rest (fst step)
  end.

Definition max_pages : nat := 3.

(** Lines 759-881: the [while current_page <= max_pages] loop; [later]
    lists the pages after [current_page]. *)
Fixpoint extract_pages (max_jobs : nat) (current_page : nat) (later : list nat)
    (job_links : list string) : M (list string) :=
  let* job_cards := find_job_cards current_page [0; 1; 2; 3; 4]%nat in
  match job_cards with
  | O => ret job_links
  | S _ =>
      let* page_job_links := page_links current_page 1 job_cards [] in
      let job_links := job_links ++ page_job_links in
      if (max_jobs <=? length job_links)%nat then ret (firstn max_jobs job_links)
      else if (current_page <? max_pages)%nat then
        match later with
        | [] => ret job_links
        | next_page :: later' =>
            let* moved :=
              try_except
                (let* next_button :=
                   find_next_button current_page [0; 1; 2; 3; 4]%nat false in
                 if next_button then
                   call (Screenshot "naukri_before_next") >>
                   call (ClickNext current_page) >>
                   sleep 5 >>
                   call (Screenshot "naukri_after_next") >>
                   ret true
                 else ret false)
                (ret false) in
            if moved then extract_pages max_jobs next_page later' job_links
            else ret job_links
        end
      else ret job_links
  end.

(** Lines 733-884: the wait for the filtered results and the extraction.
    An exception raised once [job_links = []] is bound leaves the block
    with the list as it stands, which the [finally] clause then returns;
    nothing inside the page loop raises, so the list is still empty. *)
Definition wait_and_extract (max_jobs : nat) : M (list string) :=
  fun b stdin =>
    match (sleep 50000000 >> call (Screenshot "naukri_final_results")) b stdin with
    | (t, stdin', Raise e) => (t, stdin', Raise e)
    | (t, stdin', Ok _) =>
        let job_links := [] in
        match (call (Screenshot "naukri_page_1") >>
               extract_pages max_jobs 1 [2; 3]%nat job_links) b stdin' with
        | (t', stdin'', Ok links) => (t ++ t', stdin'', Ok links)
        | (t', stdin'', Raise _) => (t ++ t', stdin'', Ok job_links)
        end
    end.

(** Lines 289-894.  The [finally] clause quits the browser and returns
    [job_links]; when the [try] block was left before [job_links] was
    bound, that [return] raises [UnboundLocalError]. *)
Definition search_naukri_with_selenium (experience : string)
    (freshness : option string) (max_jobs : nat)
    (industries departments : option (list string)) : M (list string) :=
  call MakeScreenshotDir >>
  call StartChrome >>
  call Maximize >>
  let* r :=
    try_except
      (let* job_links :=
         (search_and_filter experience freshness industries departments >>
          wait_and_extract max_jobs) in
       ret (Some job_links))
      (ret None) in
  try_except (call Quit) (ret tt) >>
  match r with
  | Some job_links => ret job_links
  | None => raise UnboundLocalError
  end.

(** Seconds spent in [time.sleep] along a trace. *)
Definition total_sleep (t : list Ev) : Z :=
  fold_right (fun e acc => match e with Slept n => n + acc | _ => acc end) 0 t.

(** Events of the extraction of job links. *)
Definition is_extraction (e : Ev) : bool :=
  match e with
  | Called (WaitCards _ _) | Called (FindCards _ _) | Called (CardLink _ _ _) => true
  | _ => false
  end.

End Selenium.

(** ** Observations on runs, and the specification's statements *)

Definition is_connector_call (e : Event) : bool :=
  match e with ConnectorCall _ => true | _ => false end.

(** Number of [run_naukri_chatbot.py] sub-processes started along a trace. *)
Definition connector_calls (t : list Event) : nat :=
  length (List.filter is_connector_call t).

(** Number of those started for the posting at [job_url]. *)
Definition calls_to (job_url : string) (t : list Event) : nat :=
  length (List.filter
    (fun e => match e with ConnectorCall u => String.eqb u job_url | _ => false end)
    t).


Definition sleeps (t : list Event) : list Z :=
  flat_map (fun e => match e with Sleep n => [n] | _ => [] end) t.

Definition report_of (x : Exit) : option Report :=
  match x with Returned _ r => r | Uncaught _ => None end.

(** The URLs the connector was started for along a trace, in order. *)
Definition connector_urls (t : list Event) : list string :=
  flat_map (fun e => match e with ConnectorCall u => [u] | _ => [] end) t.

(** What the entries of a list contribute, one after the other, the entry
    at position [i + k] of the whole list being the [k]-th of [l]. *)
Fixpoint gather {A} (f : nat -> RankedJob -> list A) (i : nat)
    (l : list RankedJob) : list A :=
  match l with
  | [] => []
  | job :: rest => f i job ++ gather f (S i) rest
  end.

(** The connector is started for an entry unless the preparation raises. *)
Definition started (w : World) (i : nat) (job : RankedJob) : list string :=
  match run_naukri_chatbot w i job with
  | PrepRaises => []
  | Exited _ _ _ => [url job]
  end.

(** The events of one attempt: the call, then the pause unless an
    exception came first. *)
Definition attempt_events (w : World) (i : nat) (job : RankedJob) : list Event :=
  match run_naukri_chatbot w i job with
  | PrepRaises => []
  | Exited _ _ true => [ConnectorCall (url job)]
  | Exited _ _ false => [ConnectorCall (url job); Sleep (randint_5_10 w i)]
  end.

(** An entry counts as applied when its sub-process exited with status 0. *)
Definition applied_entries (w : World) (i : nat) (job : RankedJob) : list Entry :=
  match run_naukri_chatbot w i job with
  | PrepRaises => []
  | Exited returncode _ _ => if returncode =? 0 then [(i, job)] else []
  end.

(** It counts as failed when the sub-process exited with another status,
    and (again) when the attempt raised. *)
Definition failed_entries (w : World) (i : nat) (job : RankedJob) : list Entry :=
  match run_naukri_chatbot w i job with
  | PrepRaises => [(i, job)]
  | Exited returncode _ late_raises =>
      (if returncode =? 0 then [] else [(i, job)])
      ++ (if late_raises then [(i, job)] else [])
  end.

(** The method an attempt names in its output. *)
Definition method_named (w : World) (i : nat) (job : RankedJob) : option string :=
  match run_naukri_chatbot w i job with
  | PrepRaises => None
  | Exited _ stdout _ => parse_apply_method stdout
  end.

(** The method named by the last attempt, among the entries of [l] that
    hold the details dict [id], that named one. *)
Fixpoint method_written (w : World) (details_id : nat -> nat) (id : nat)
    (i : nat) (l : list RankedJob) : option string :=
  match l with
  | [] => None
  | job :: rest =>
      match method_written w details_id id (S i) rest with
      | Some apply_method => Some apply_method
      | None => if (details_id i =? id)%nat then method_named w i job else None
      end
  end.

(** The report's line for an entry of [ranked_jobs] after the per-job
    loop: the entry's own keys, and the method last written into its
    details dict, or else the one the dict came with. *)
Definition reported (w : World) (details_id : nat -> nat)
    (ranked_jobs : list RankedJob) (e : Entry) : ReportEntry :=
  {| r_title := title (snd e); r_company := company (snd e);
     r_location := location (snd e); r_score := score (snd e);
     r_url := url (snd e);
     r_apply_type := apply_type_of (snd e) "unknown";
     r_application_method :=
       match method_written w details_id (details_id (fst e)) 0 ranked_jobs with
       | Some apply_method => apply_method
       | None => get_or (application_method (details (snd e))) "unknown"
       end |}.

(** No entry after position [k] that holds the same details dict names a
    method. *)
Definition last_word (w : World) (details_id : nat -> nat)
    (ranked_jobs : list RankedJob) (k : nat) : Prop :=
  forall k' job',
    (k < k')%nat -> ranked_jobs !! k' = Some job' ->
    details_id k' = details_id k -> method_named w k' job' = None.




(** Section 8, accounting. *)
Definition accounts_for_all (ranked_jobs : list RankedJob) (r : Report) : Prop :=
  (applied_count r + failed_count r + skipped_count r)%nat = length ranked_jobs.

(** The number of entries of the role list that the title contains, a
    role counting as often as the list holds it. *)
Definition matched_role_entries (user_roles : list string) (job : RankedJob)
    : nat :=
  length
    (List.filter (fun r => PyStr.contains (PyStr.lower r) (PyStr.lower (title job)))
       user_roles).

(** The number of distinct roles of the list that the title contains. *)
Definition distinct_matched_roles (user_roles : list string) (job : RankedJob)
    : nat :=
  length (remove_dups
    (List.filter (fun r => PyStr.contains (PyStr.lower r) (PyStr.lower (title job)))
       user_roles)).

Definition has_score (s : Q) (job : RankedJob) : bool := Qeq_bool (score job) s.


(** ** Concrete runs *)

Module Scenario.

Definition posting (n : Z) (kind : string) : JobDetails :=
  {| job_id := Some n; role := Some "Data Analyst"; company_name := Some "Acme";
     location_of := Some "Pune";
     job_url := Some ("https://www.naukri.com/job-" ++ PyStr.str_of_Z n)%string;
     apply_type := Some kind; application_method := None |}.

Definition job (n : Z) (kind : string) (s : Q) : RankedJob :=
  ranked_job_of (posting n kind) s "Matched keywords with your resume".

Definition five_direct_jobs : list RankedJob :=
  [job 1 "direct" 9; job 2 "direct" 8; job 3 "naukri" 8; job 4 "direct" 7;
   job 5 "direct" 6].

(** The worker reports on four of the five jobs: job 3 is missing. *)
Definition four_results : list RankedJob :=
  [set_applied (job 1 "direct" 9) true; set_applied (job 2 "direct" 8) true;
   set_applied (job 4 "direct" 7) false; set_applied (job 5 "direct" 6) true].

Definition quiet_attempt (i : nat) (j : RankedJob) : Attempt :=
  Exited 0 "Applied using chatbot" false.

Definition bulk_world (results : PyVal) : World :=
  {| database_available := false; start_browser := true; open_portal := true;
     ensure_logged_in := true;
     bulk_handoff := true; application_results_json := results;
     run_naukri_chatbot := quiet_attempt; random_draw := fun i => Z.of_nat i |}.

Definition world_with (attempt : nat -> RankedJob -> Attempt) : World :=
  {| database_available := false; start_browser := true; open_portal := true;
     ensure_logged_in := true;
     bulk_handoff := true; application_results_json := PyNone;
     run_naukri_chatbot := attempt; random_draw := fun i => 7 * Z.of_nat i + 3 |}.

Definition no_browser : World :=
  {| database_available := false; start_browser := false; open_portal := true;
     ensure_logged_in := true;
     bulk_handoff := true; application_results_json := PyNone;
     run_naukri_chatbot := quiet_attempt; random_draw := fun _ => 0 |}.

Definition no_login : World :=
  {| database_available := false; start_browser := true; open_portal := true;
     ensure_logged_in := false;
     bulk_handoff := true; application_results_json := PyNone;
     run_naukri_chatbot := quiet_attempt; random_draw := fun _ => 0 |}.

(** The database is in use: [load_json] reads no file and [save_json]
    writes none. *)
Definition database_world : World :=
  {| database_available := true; start_browser := true; open_portal := true;
     ensure_logged_in := true;
     bulk_handoff := true; application_results_json := PyNone;
     run_naukri_chatbot := quiet_attempt; random_draw := fun i => Z.of_nat i |}.

Definition auto_args : Args := {| mode := Full; apply := false; auto_apply := true |}.
Definition apply_args : Args := {| mode := Full; apply := true; auto_apply := false |}.

(** The portal answers that the candidate has applied before. *)
Definition already_applied_attempt (i : nat) (j : RankedJob) : Attempt :=
  Exited 0 "You have already applied to this job" false.

(** The sub-process times out on the page and exits with status 1. *)
Definition failing_attempt (i : nat) (j : RankedJob) : Attempt :=
  Exited 1 "Timeout while waiting for the apply button" false.

(** A site on which every look-up succeeds and nothing raises, showing two
    cards per page. *)
Definition calm_site : Selenium.Browser :=
  {| Selenium.fails := fun _ => false; Selenium.finds := fun _ => true;
     Selenium.cards := fun _ _ => 2%nat;
     Selenium.href := fun p c _ =>
       ("https://www.naukri.com/job-"
        ++ PyStr.str_of_Z (Z.of_nat (10 * p + c)))%string |}.

End Scenario.


(** A computation of the search routine only leaves events of kind [P]. *)
Definition emits_only {A} (P : Selenium.Ev -> Prop) (m : Selenium.M A) : Prop :=
  forall b stdin, Forall P (fst (fst (m b stdin))).

Definition no_extraction (e : Selenium.Ev) : Prop :=
  Selenium.is_extraction e = false.

Definition nonneg_sleep (e : Selenium.Ev) : Prop :=
  match e with Selenium.Slept n => 0 <= n | _ => True end.

(** The routine got through the search form and the filters: the browser
    came up and [search_and_filter] returned. *)
Definition reaches_post_filter (experience : string) (freshness : option string)
    (industries departments : option (list string)) (b : Selenium.Browser)
    (stdin : list string) : Prop :=
  Selenium.fails b Selenium.MakeScreenshotDir = false
  /\ Selenium.fails b Selenium.StartChrome = false
  /\ Selenium.fails b Selenium.Maximize = false
  /\ exists t stdin',
       Selenium.search_and_filter experience freshness industries departments
         b stdin = (t, stdin', Ok tt).


(** ** Further parts of [main.py] *)

(** *** Text *)

Module Text.

(** [c.isspace()] on the ASCII range: tab to carriage return, the four
    separators 28 to 31, and the blank. *)
Definition isspace (c : ascii) : bool :=
  let n := nat_of_ascii c in
  ((n =? 32)%nat || ((9 <=? n)%nat && (n <=? 13)%nat)
   || ((28 <=? n)%nat && (n <=? 31)%nat))%bool.

Fixpoint lstrip (s : string) : string :=
  match s with
  | String c s' => if isspace c then lstrip s' else s
  | EmptyString => EmptyString
  end.

Fixpoint rstrip (s : string) : string :=
  match s with
  | EmptyString => EmptyString
  | String c s' =>
      match rstrip s' with
      | EmptyString => if isspace c then EmptyString else String c EmptyString
      | t => String c t
      end
  end.

(** [s.strip()] *)
Definition strip (s : string) : string := rstrip (lstrip s).

(** [s.split(sep)] for a one-character separator. *)
Fixpoint split (sep : ascii) (s : string) : list string :=
  match s with
  | EmptyString => [EmptyString]
  | String c s' =>
      if Ascii.eqb c sep then EmptyString :: split sep s'
      else
        match split sep s' with
        | piece :: pieces => String c piece :: pieces
        | [] => [String c EmptyString]
        end
  end.

(** [s] as a condition: the empty string is false. *)
Definition nonempty (s : string) : bool :=
  match s with EmptyString => false | _ => true end.

(** [[s.strip() for s in text.split(",") if s.strip()]] *)
Definition comma_list (text : string) : list string :=
  List.filter nonempty (List.map strip (split "," text)).

Fixpoint has_char (c : ascii) (s : string) : bool :=
  match s with
  | EmptyString => false
  | String d s' => (Ascii.eqb d c || has_char c s')%bool
  end.

Definition blank_or_comma (s : string) : Prop :=
  forall c, has_char c s = true -> isspace c = true \/ c = ","%char.

End Text.

(** *** Files *)

(** What a file holds, by what [open(filename, 'r', encoding='utf-8')]
    and [json.load] make of it: JSON text, with the value [json.load]
    returns for it; text that is not JSON; bytes that are not UTF-8
    text. *)
Inductive FileContent (A : Type) :=
| JsonOf (data : A)
| NotJson
| NotText.
Arguments JsonOf {A} data.
Arguments NotJson {A}.
Arguments NotText {A}.

(** Lines 203-219: [None] always when the database is in use; else
    [None] for a missing file and for text that is not JSON
    ([FileNotFoundError] and [json.JSONDecodeError] are caught), while
    [UnicodeDecodeError] is not caught. *)
Definition load_json {A} (DATABASE_AVAILABLE : bool) (filename : string)
    (files : gmap string (FileContent A)) : result (option A) :=
  if negb DATABASE_AVAILABLE then
    match files !! filename with
    | Some (JsonOf data) => Ok (Some data)
    | Some NotJson => Ok None
    | Some NotText => Raise UnicodeDecodeError
    | None => Ok None
    end
  else Ok None.

(** Lines 271-273: what [apply_to_multiple_jobs] reads back after the
    worker ran. *)
Definition load_application_results (DATABASE_AVAILABLE : bool)
    (files : gmap string (FileContent PyVal)) : result PyVal :=
  rbind (load_json DATABASE_AVAILABLE "application_results.json" files)
    (fun results => Ok (get_or results PyNone)).

(** Lines 2674-2680: without job details the ranked jobs come from
    [ranked_jobs.json], cut at the minimum score. *)
Definition ranked_jobs_from_file (ranked_data : option (list RankedJob))
    (min_score : Q) : list RankedJob :=
  match ranked_data with
  | Some (job :: rest) =>
      List.filter (fun job => Qle_bool min_score (score job)) (job :: rest)
  | Some [] | None => []
  end.

(** *** Job details *)

Definition set_url (job : JobDetails) (u : string) : JobDetails :=
  {| job_id := job_id job; role := role job; company_name := company_name job;
     location_of := location_of job; job_url := Some u;
     apply_type := apply_type job;
     application_method := application_method job |}.

Definition set_job_id (id : Z) (job : JobDetails) : JobDetails :=
  {| job_id := Some id; role := role job; company_name := company_name job;
     location_of := location_of job; job_url := job_url job;
     apply_type := apply_type job;
     application_method := application_method job |}.

(** [l[:n]] *)
Definition py_take {A} (n : Z) (l : list A) : list A :=
  if n <? 0 then firstn (length l - Z.to_nat (- n)) l
  else firstn (Z.to_nat n) l.

(** Lines 2082-2088: the details of a posting are kept when they have a
    role other than ["Unknown Role"]; the link is filled in when the
    details bring none. *)
Definition keep_details (details : option JobDetails) (link : string)
    : option JobDetails :=
  match details with
  | Some details =>
      match role details with
      | Some r =>
          if negb (String.eqb r "Unknown Role") then
            match job_url details with
            | None => Some (set_url details link)
            | Some _ => Some details
            end
          else None
      | None => None
      end
  | None => None
  end.

(** Lines 2070-2093, with the extractor as a parameter. *)
Fixpoint extract_each (extract_job_details_from_url : string -> option JobDetails)
    (job_links : list string) (job_details : list JobDetails)
    : list JobDetails :=
  match job_links with
  | [] => job_details
  | link :: rest =>
      extract_each extract_job_details_from_url rest
        (match keep_details (extract_job_details_from_url link) link with
         | Some details => job_details ++ [details]
         | None => job_details
         end)
  end.

(** Lines 2057-2093. *)
Definition extract_job_details
    (extract_job_details_from_url : string -> option JobDetails)
    (max_jobs : Z) (job_links : list string) : list JobDetails :=
  extract_each extract_job_details_from_url (py_take max_jobs job_links) [].

(** Lines 2128-2130: the ids the database returned are written into the
    details, position by position. *)
Fixpoint assign_job_ids (i : nat) (job_ids : list Z)
    (job_details : list JobDetails) : list JobDetails :=
  match job_ids with
  | [] => job_details
  | id :: rest =>
      assign_job_ids (S i) rest
        (if (i <? length job_details)%nat
         then alter (set_job_id id) i job_details
         else job_details)
  end.

(** Lines 2451-2459 (and 2307-2315, 2358-2366): the list of details
    becomes a dict keyed by job id. *)
Definition job_details_dict (job_details : list JobDetails)
    : gmap Z JobDetails :=
  foldl (fun d job =>
           match job_id job with
           | Some id => <[id := job]> d
           | None => d
           end) ∅ job_details.

(** Line 2109 (list case) and line 2169: the skills of a posting go to the
    database as one comma-separated string and come back split. *)
Definition skills_required (skills : list string) : string :=
  String.concat "," skills.

Definition skills_of_required (skills_required : string) : list string :=
  if Text.nonempty skills_required then Text.split "," skills_required else [].

(** *** Profile for matching *)

(** Lines 2256-2259 and 2266-2269: append what is not in the list yet. *)
Fixpoint add_missing (items comprehensive_skills : list string) : list string :=
  match items with
  | [] => comprehensive_skills
  | item :: rest =>
      add_missing rest
        (if existsb (String.eqb item) comprehensive_skills
         then comprehensive_skills
         else comprehensive_skills ++ [item])
  end.

(** Lines 2247-2269. *)
Definition comprehensive_skills (resume_skills user_skills user_roles : list string)
    : list string :=
  add_missing user_roles (add_missing user_skills resume_skills).

(** Lines 1675-1681: the skills that stay after the user named some to
    remove. *)
Definition skills_after_removal (confirm_input : string)
    (search_skills : list string) : list string :=
  let confirm := Text.strip confirm_input in
  if Text.nonempty confirm then
    let to_remove := List.map PyStr.lower (Text.comma_list confirm) in
    List.filter
      (fun s => negb (existsb (fun remove => PyStr.contains remove (PyStr.lower s))
                        to_remove))
      search_skills
  else search_skills.

(** *** The eligibility loop, for any verdict *)

(** Lines 2620-2634 with [check_job_eligibility] as a parameter. *)
Fixpoint split_by_verdict (verdict : RankedJob -> bool * string)
    (ranked_jobs eligible_jobs ineligible_jobs : list RankedJob)
    : list RankedJob * list RankedJob :=
  match ranked_jobs with
  | [] => (eligible_jobs, ineligible_jobs)
  | job :: rest =>
      let '(is_eligible, reason) := verdict job in
      if is_eligible then
        split_by_verdict verdict rest
          (eligible_jobs ++ [set_eligibility_reason job reason]) ineligible_jobs
      else
        split_by_verdict verdict rest eligible_jobs (ineligible_jobs ++ [job])
  end.

(** Details with a role key whose value is not ["Unknown Role"] and with
    a url key: the ranked entry takes its title and its URL from these two
    keys, whatever they hold. *)
Definition well_extracted (d : JobDetails) : Prop :=
  exists r u,
    role d = Some r /\ r <> "Unknown Role" /\ job_url d = Some u
    /\ forall s e, title (ranked_job_of d s e) = r /\ url (ranked_job_of d s e) = u.

(** *** More observations *)

(** The events the per-job loop itself leaves. *)
Definition loop_event (e : Event) : Prop :=
  match e with ConnectorCall _ | Sleep _ => True | _ => False end.



(** Every attempt of the per-job loop ends without an exception. *)
Definition no_attempt_raises (w : World) : Prop :=
  forall i job, exists rc out, run_naukri_chatbot w i job = Exited rc out false.

Definition sum_Z (l : list Z) : Z := fold_right Z.add 0 l.

Definition count_event (p : Event -> bool) (t : list Event) : nat :=
  length (List.filter p t).

Definition is_start (e : Event) : bool :=
  match e with StartBrowser => true | _ => false end.

Definition is_close (e : Event) : bool :=
  match e with CloseBrowser => true | _ => false end.

Definition not_quit (e : Selenium.Ev) : Prop :=
  e <> Selenium.Called Selenium.Quit.

(** The routine got as far as starting the browser and its window. *)
Definition browser_up (b : Selenium.Browser) : Prop :=
  Selenium.fails b Selenium.MakeScreenshotDir = false
  /\ Selenium.fails b Selenium.StartChrome = false
  /\ Selenium.fails b Selenium.Maximize = false.

(** A look-up of job cards, of a card's link or of the [Next] button on
    one of [pages]. *)
Definition lookup_event (pages : list nat) (e : Selenium.Ev) : Prop :=
  match e with
  | Selenium.Called (Selenium.WaitCards p _)
  | Selenium.Called (Selenium.FindCards p _)
  | Selenium.Called (Selenium.CardLink p _ _)
  | Selenium.Called (Selenium.FindNext p _)
  | Selenium.Called (Selenium.NextUsable p _) => In p pages
  | _ => False
  end.

(** What the page loop does: look-ups and clicks of [Next] on [pages],
    screenshots, and pauses of five seconds. *)
Definition loop_call (pages : list nat) (e : Selenium.Ev) : Prop :=
  match e with
  | Selenium.Called (Selenium.ClickNext p) => In p pages
  | Selenium.Called (Selenium.Screenshot _) => True
  | Selenium.Slept n => n = 5
  | _ => lookup_event pages e
  end.

(** The pages an event refers to, if any, lie in [pages]. *)
Definition on_pages (pages : list nat) (e : Selenium.Ev) : Prop :=
  match e with
  | Selenium.Called (Selenium.WaitCards p _)
  | Selenium.Called (Selenium.FindCards p _)
  | Selenium.Called (Selenium.CardLink p _ _)
  | Selenium.Called (Selenium.FindNext p _)
  | Selenium.Called (Selenium.NextUsable p _)
  | Selenium.Called (Selenium.ClickNext p) => In p pages
  | _ => True
  end.

Definition is_click_next (e : Selenium.Ev) : bool :=
  match e with Selenium.Called (Selenium.ClickNext _) => true | _ => false end.

Definition clicks_of_next (t : list Selenium.Ev) : nat :=
  length (List.filter is_click_next t).

(** A non-empty link read from a card on one of [pages]. *)
Definition link_on (b : Selenium.Browser) (pages : list nat) (link : string)
    : Prop :=
  link <> EmptyString
  /\ exists page card selector,
       In page pages /\ link = Selenium.href b page card selector.

(** * Properties *)

(** ** Ranking *)

Definition desc (a b : RankedJob) : Prop := (score b <= score a)%Q.

Lemma Qle_bool_false (a b : Q) : Qle_bool a b = false -> (b < a)%Q.
Proof.
  intros H. apply Qnot_le_lt. intros Hle.
  apply Qle_bool_iff in Hle. congruence.
Qed.

Lemma prioritize_roles_map (user_roles : list string) (l : list RankedJob) :
  prioritize_roles user_roles l = List.map (add_role_bonus user_roles) l.
Proof.
  destruct user_roles as [|r rs]; [|reflexivity].
  simpl. induction l as [|j l IH]; [reflexivity|].
  simpl. rewrite <- IH. reflexivity.
Qed.

Lemma insert_desc_perm (x : RankedJob) (l : list RankedJob) :
  Permutation (insert_desc x l) (x :: l).
Proof.
  induction l as [|y l IH]; simpl; [reflexivity|].
  destruct (Qle_bool (score y) (score x)); [reflexivity|].
  rewrite IH. apply perm_swap.
Qed.

Lemma sort_by_score_desc_perm (l : list RankedJob) :
  Permutation (sort_by_score_desc l) l.
Proof.
  induction l as [|x l IH]; simpl; [reflexivity|].
  rewrite insert_desc_perm. now rewrite IH.
Qed.

Lemma insert_desc_sorted (x : RankedJob) (l : list RankedJob) :
  StronglySorted desc l -> StronglySorted desc (insert_desc x l).
Proof.
  induction 1 as [|y l Hs IH Hall]; simpl.
  - constructor; [constructor | constructor].
  - destruct (Qle_bool (score y) (score x)) eqn:E.
    + apply Qle_bool_iff in E.
      constructor; [constructor; assumption|].
      constructor; [exact E|].
      eapply List.Forall_impl; [|exact Hall].
      intros z Hz. unfold desc in *. eapply Qle_trans; eassumption.
    + apply Qle_bool_false in E.
      constructor; [exact IH|].
      eapply Permutation_Forall; [symmetry; apply insert_desc_perm|].
      constructor; [|exact Hall].
      unfold desc. apply Qlt_le_weak, E.
Qed.

Lemma sort_by_score_desc_sorted (l : list RankedJob) :
  StronglySorted desc (sort_by_score_desc l).
Proof.
  induction l as [|x l IH]; simpl; [constructor|].
  now apply insert_desc_sorted.
Qed.

Lemma insert_desc_stable (s : Q) (x : RankedJob) (l : list RankedJob) :
  List.filter (has_score s) (insert_desc x l) = List.filter (has_score s) (x :: l).
Proof.
  induction l as [|y l IH]; [reflexivity|].
  simpl insert_desc.
  destruct (Qle_bool (score y) (score x)) eqn:E; [reflexivity|].
  change (List.filter (has_score s) (y :: insert_desc x l))
    with (if has_score s y then y :: List.filter (has_score s) (insert_desc x l)
          else List.filter (has_score s) (insert_desc x l)).
  rewrite IH. simpl.
  destruct (has_score s x) eqn:Hx, (has_score s y) eqn:Hy; try reflexivity.
  exfalso. unfold has_score in *.
  apply Qeq_bool_iff in Hx, Hy. apply Qle_bool_false in E.
  rewrite Hx, Hy in E. exact (Qlt_irrefl _ E).
Qed.

Lemma sort_by_score_desc_stable (s : Q) (l : list RankedJob) :
  List.filter (has_score s) (sort_by_score_desc l) = List.filter (has_score s) l.
Proof.
  induction l as [|x l IH]; [reflexivity|].
  simpl sort_by_score_desc. rewrite insert_desc_stable.
  simpl. now rewrite IH.
Qed.

Lemma filter_map_commute {A B} (f : A -> B) (p : B -> bool) (l : list A) :
  List.filter p (List.map f l) = List.map f (List.filter (fun a => p (f a)) l).
Proof.
  induction l as [|a l IH]; [reflexivity|].
  simpl. destruct (p (f a)); simpl; now rewrite IH.
Qed.

(** C3. After ranking, the adjusted scores do not increase from the first
    job to the last, the ranked list holds exactly the jobs of the list it
    was computed from, and for every score the jobs whose adjusted score is
    that score stand in the ranked list in the order they had before
    ranking. *)
Theorem ranking_sorted_and_stable (user_roles : list string)
    (ranked_jobs : list RankedJob) :
  StronglySorted desc (rank user_roles ranked_jobs)
  /\ Permutation (rank user_roles ranked_jobs)
       (List.map (add_role_bonus user_roles) ranked_jobs)
  /\ forall s : Q,
       List.filter (has_score s) (rank user_roles ranked_jobs)
       = List.map (add_role_bonus user_roles)
           (List.filter (fun job => has_score s (add_role_bonus user_roles job))
              ranked_jobs).
Proof.
  unfold rank. rewrite prioritize_roles_map. split; [|split].
  - apply sort_by_score_desc_sorted.
  - apply sort_by_score_desc_perm.
  - intros s. rewrite sort_by_score_desc_stable. apply filter_map_commute.
Qed.

(** ** Role bonus *)

Lemma role_match_score_count (user_roles : list string) (job_role : string) :
  role_match_score user_roles job_role
  = Z.of_nat (length (List.filter
      (fun r => PyStr.contains (PyStr.lower r) job_role) user_roles)).
Proof.
  induction user_roles as [|r rs IH]; [reflexivity|].
  simpl role_match_score. simpl List.filter. rewrite IH.
  destruct (PyStr.contains (PyStr.lower r) job_role); simpl length; lia.
Qed.

Lemma elem_of_list_filter_bool {A} (p : A -> bool) (x : A) (l : list A) :
  x ∈ List.filter p l -> x ∈ l.
Proof.
  rewrite !list_elem_of_In. intros H. apply filter_In in H. tauto.
Qed.

Lemma remove_dups_filter_NoDup (p : string -> bool) (l : list string) :
  NoDup l -> remove_dups (List.filter p l) = List.filter p l.
Proof.
  induction 1 as [|x l Hx Hl IH]; [reflexivity|].
  simpl. destruct (p x); [|exact IH].
  simpl. rewrite IH. destruct (decide_rel elem_of x (List.filter p l)) as [Hin|_].
  - exfalso. apply Hx. eapply elem_of_list_filter_bool, Hin.
  - reflexivity.
Qed.

Lemma py_min_Qmin (a b : Q) : (py_min a b == Qmin a b)%Q.
Proof.
  unfold py_min. destruct (Qle_bool a b) eqn:E.
  - apply Qle_bool_iff in E. symmetry. now apply Q.min_l.
  - apply Qle_bool_false in E. symmetry. apply Q.min_r. now apply Qlt_le_weak.
Qed.

Lemma contains_occurrences (needle hay : string) :
  PyStr.contains needle hay = true <-> (0 < PyStr.occurrences needle hay)%nat.
Proof.
  induction hay as [|c hay IH].
  - simpl. rewrite orb_false_r.
    destruct needle; split; intros H; try lia; try reflexivity; try discriminate H.
  - change (PyStr.contains needle (String c hay))
      with (String.prefix needle (String c hay) || PyStr.contains needle hay)%bool.
    change (PyStr.occurrences needle (String c hay))
      with ((if String.prefix needle (String c hay) then 1 else 0)
            + PyStr.occurrences needle hay)%nat.
    destruct (String.prefix needle (String c hay)).
    + split; intros; [lia | reflexivity].
    + exact IH.
Qed.

Lemma add_role_bonus_score (user_roles : list string) (job : RankedJob) :
  score (add_role_bonus user_roles job)
  = if 0 <? role_bonus user_roles job
    then py_min (score job + inject_Z (role_bonus user_roles job)) 10
    else score job.
Proof.
  unfold add_role_bonus, role_bonus.
  set (n := role_match_score user_roles (PyStr.lower (title job))).
  destruct (0 <? n) eqn:E.
  - assert ((0 <? Z.min n 2) = true) as -> by lia. reflexivity.
  - assert ((0 <? Z.min n 2) = false) as -> by lia. reflexivity.
Qed.

(** C4 (as the code has it). The ranked list holds the jobs with their
    bonus added.  For a scored job and a list of user roles the bonus is
    one point for each entry of the list whose text occurs in the title,
    capped at 2; for a list without repetition this is one point per
    distinct role found.  The adjusted score is the minimum of score plus
    bonus and 10 when a bonus applies and the score itself otherwise, so
    it is at most 10 whenever a bonus applies or the score was; a single
    role gives a bonus of 1, hence at most 2, however often it occurs in
    the title. *)
Theorem role_bonus_capped_and_clipped (user_roles : list string)
    (ranked_jobs : list RankedJob) :
  Permutation (rank user_roles ranked_jobs)
    (List.map (add_role_bonus user_roles) ranked_jobs)
  /\ forall job : RankedJob,
       let bonus := role_bonus user_roles job in
       bonus = Z.min (Z.of_nat (matched_role_entries user_roles job)) 2
       /\ (NoDup user_roles ->
           bonus = Z.min (Z.of_nat (distinct_matched_roles user_roles job)) 2)
       /\ 0 <= bonus <= 2
       /\ (score (add_role_bonus user_roles job)
           == if 0 <? bonus then Qmin (score job + inject_Z bonus) 10
              else score job)%Q
       /\ (0 < bonus -> (score (add_role_bonus user_roles job) <= 10)%Q)
       /\ ((score job <= 10)%Q ->
           (score (add_role_bonus user_roles job) <= 10)%Q)
       /\ forall r : string,
            (0 < PyStr.occurrences (PyStr.lower r) (PyStr.lower (title job)))%nat ->
            role_bonus [r] job = 1 /\ role_bonus [r] job <= 2.
Proof.
  split.
  { unfold rank. rewrite prioritize_roles_map. apply sort_by_score_desc_perm. }
  intros job bonus.
  assert (Hb : bonus = Z.min (Z.of_nat (matched_role_entries user_roles job)) 2).
  { unfold bonus, role_bonus, matched_role_entries.
    now rewrite role_match_score_count. }
  assert (Hscore : (score (add_role_bonus user_roles job)
      == if 0 <? bonus then Qmin (score job + inject_Z bonus) 10
         else score job)%Q).
  { rewrite add_role_bonus_score. fold bonus.
    destruct (0 <? bonus); [apply py_min_Qmin | reflexivity]. }
  split; [exact Hb|]. split; [|split; [lia|split; [exact Hscore|]]].
  - intros Hnodup. rewrite Hb. unfold matched_role_entries, distinct_matched_roles.
    now rewrite remove_dups_filter_NoDup.
  - split; [|split].
    + intros Hpos. rewrite Hscore.
      assert ((0 <? bonus) = true) as -> by lia. apply Q.le_min_r.
    + intros Hle. rewrite Hscore.
      destruct (0 <? bonus); [apply Q.le_min_r | exact Hle].
    + intros r Hocc. apply contains_occurrences in Hocc.
      unfold role_bonus. simpl role_match_score. rewrite Hocc.
      split; reflexivity || lia.
Qed.

(** C4 fails as stated: a role list that names one role twice gives a
    job whose title contains that role a bonus of 2, not of 1, and the
    job is ranked with its score raised by 2. *)
Lemma role_listed_twice_counts_twice :
  let user_roles := ["analyst"; "analyst"]%string in
  let job := Scenario.job 1 "direct" 7 in
  distinct_matched_roles user_roles job = 1%nat
  /\ role_bonus user_roles job = 2
  /\ role_bonus user_roles job
     <> Z.min (Z.of_nat (distinct_matched_roles user_roles job)) 2
  /\ List.map score (rank user_roles [job]) = [9%Q].
Proof.
  cbv zeta. split; [vm_compute; reflexivity|]. split; [vm_compute; reflexivity|].
  split; [vm_compute; discriminate | vm_compute; reflexivity].
Qed.

(** ** Unscored jobs *)





(** ** Eligibility *)

Lemma insert_desc_front (x : RankedJob) (l : list RankedJob) :
  Forall (desc x) l -> insert_desc x l = x :: l.
Proof.
  destruct 1 as [|y l Hy _]; [reflexivity|].
  simpl. unfold desc in Hy. apply Qle_bool_iff in Hy. now rewrite Hy.
Qed.

Lemma Forall_filter_bool {A} (P : A -> Prop) (q : A -> bool) (l : list A) :
  Forall P l -> Forall P (List.filter q l).
Proof.
  rewrite !List.Forall_forall. intros H x Hx. apply filter_In in Hx. apply H, Hx.
Qed.

Lemma filter_insert_desc (q : RankedJob -> bool) (x : RankedJob)
    (l : list RankedJob) :
  StronglySorted desc l ->
  List.filter q (insert_desc x l)
  = if q x then insert_desc x (List.filter q l) else List.filter q l.
Proof.
  induction 1 as [|y l Hs IH Hall].
  - simpl. now destruct (q x).
  - simpl insert_desc. destruct (Qle_bool (score y) (score x)) eqn:E.
    + change (List.filter q (x :: y :: l))
        with (if q x then x :: List.filter q (y :: l) else List.filter q (y :: l)).
      destruct (q x); [|reflexivity].
      symmetry. apply insert_desc_front, Forall_filter_bool.
      apply Qle_bool_iff in E. constructor; [exact E|].
      eapply List.Forall_impl; [|exact Hall].
      intros z Hz. unfold desc in *. eapply Qle_trans; eassumption.
    + change (List.filter q (y :: insert_desc x l))
        with (if q y then y :: List.filter q (insert_desc x l)
              else List.filter q (insert_desc x l)).
      rewrite IH. simpl List.filter.
      destruct (q x), (q y); try reflexivity.
      simpl. now rewrite E.
Qed.

Lemma filter_sort_by_score_desc (q : RankedJob -> bool) (l : list RankedJob) :
  List.filter q (sort_by_score_desc l) = sort_by_score_desc (List.filter q l).
Proof.
  induction l as [|x l IH]; [reflexivity|].
  simpl sort_by_score_desc.
  rewrite filter_insert_desc by apply sort_by_score_desc_sorted.
  simpl List.filter. destruct (q x); simpl; now rewrite IH.
Qed.

Lemma filter_filter_bool {A} (p q : A -> bool) (l : list A) :
  List.filter p (List.filter q l) = List.filter (fun a => (q a && p a)%bool) l.
Proof.
  induction l as [|a l IH]; [reflexivity|].
  simpl. destruct (q a); simpl; [destruct (p a)|]; now rewrite IH.
Qed.

Lemma add_role_bonus_apply_type (user_roles : list string) (job : RankedJob) :
  apply_type_of (add_role_bonus user_roles job) "" = apply_type_of job "".
Proof.
  unfold add_role_bonus.
  destruct (0 <? role_match_score user_roles (PyStr.lower (title job)));
    reflexivity.
Qed.

Lemma rank_filter_company_site (filter_company_site : bool)
    (user_roles : list string) (l : list RankedJob) :
  rank user_roles (filter_company_site_jobs filter_company_site l)
  = List.filter
      (fun job => negb (existsb (String.eqb (apply_type_of job ""))
                          (excluded_apply_types filter_company_site)))
      (rank user_roles l).
Proof.
  unfold rank, filter_company_site_jobs. rewrite !prioritize_roles_map.
  destruct filter_company_site; simpl.
  - rewrite filter_sort_by_score_desc, filter_map_commute. f_equal. f_equal.
    apply filter_ext. intros job. rewrite add_role_bonus_apply_type.
    now rewrite orb_false_r.
  - symmetry. apply forallb_filter_id. apply forallb_forall. reflexivity.
Qed.

Section GateFacts.

Variable has_token_overlap : RankedJob -> list string -> list string -> bool.

Lemma select_eligible_filter (user_roles search_skills : list string)
    (l eligible ineligible : list RankedJob) :
  select_eligible has_token_overlap user_roles search_skills l eligible ineligible
  = (eligible ++
       List.map (fun job => set_eligibility_reason job "score or role/skill overlap")
         (List.filter
            (fun job => fst (check_job_eligibility has_token_overlap job
                               user_roles 5 search_skills)) l),
     ineligible ++
       List.filter
         (fun job => negb (fst (check_job_eligibility has_token_overlap job
                                  user_roles 5 search_skills))) l).
Proof.
  revert eligible ineligible.
  induction l as [|job l IH]; intros eligible ineligible; simpl.
  - now rewrite !app_nil_r.
  - unfold check_job_eligibility.
    destruct (Qltb (score job) 5
              && negb (has_token_overlap job user_roles search_skills))%bool;
      simpl; rewrite IH, <- app_assoc; reflexivity.
Qed.

(** C6. The eligible jobs are exactly the ranked jobs that pass the gate
    read clause by clause, in ranking order: a job whose apply type is
    excluded (company_site, when the filter is on) never passes, whatever
    its score; next, a job whose score is below 5 and which has no role or
    skill overlap does not pass; every other job passes. *)
Theorem gate_clauses_in_order (filter_company_site : bool)
    (user_roles search_skills : list string) (ranked_jobs : list RankedJob) :
  eligible_ranked_jobs has_token_overlap filter_company_site user_roles
    search_skills ranked_jobs
  = List.map (fun job => set_eligibility_reason job "score or role/skill overlap")
      (List.filter
         (gate_by_precedence has_token_overlap filter_company_site 5
            user_roles search_skills)
         (rank user_roles ranked_jobs))
  /\ (forall job : RankedJob,
        filter_company_site = true ->
        apply_type_of job "" = "company_site" ->
        gate_by_precedence has_token_overlap filter_company_site 5
          user_roles search_skills job = false)
  /\ (forall job : RankedJob,
        In job (eligible_ranked_jobs has_token_overlap filter_company_site
                  user_roles search_skills ranked_jobs) ->
        filter_company_site = true ->
        apply_type_of job "" <> "company_site")
  /\ (forall job : RankedJob,
        existsb (String.eqb (apply_type_of job ""))
          (excluded_apply_types filter_company_site) = false ->
        gate_by_precedence has_token_overlap filter_company_site 5
          user_roles search_skills job
        = negb (Qltb (score job) 5
                && negb (has_token_overlap job user_roles search_skills))).
Proof.
  assert (Heq : eligible_ranked_jobs has_token_overlap filter_company_site
                  user_roles search_skills ranked_jobs
    = List.map (fun job => set_eligibility_reason job "score or role/skill overlap")
        (List.filter
           (gate_by_precedence has_token_overlap filter_company_site 5
              user_roles search_skills)
           (rank user_roles ranked_jobs))).
  { unfold eligible_ranked_jobs. rewrite select_eligible_filter. simpl.
    rewrite rank_filter_company_site, filter_filter_bool. f_equal.
    apply filter_ext. intros job. unfold gate_by_precedence, check_job_eligibility.
    destruct (existsb _ _); simpl; [reflexivity|].
    destruct (Qltb (score job) 5
              && negb (has_token_overlap job user_roles search_skills))%bool;
      reflexivity. }
  split; [exact Heq|]. split; [|split].
  - intros job -> Hty. unfold gate_by_precedence. simpl. now rewrite Hty.
  - intros job Hin -> Hty. rewrite Heq in Hin.
    apply in_map_iff in Hin as (job0 & <- & Hin).
    apply filter_In in Hin as [_ Hgate].
    unfold gate_by_precedence in Hgate. simpl in Hgate.
    change (apply_type_of (set_eligibility_reason job0 _) "")
      with (apply_type_of job0 "") in Hty.
    rewrite Hty in Hgate. discriminate.
  - intros job Hex. unfold gate_by_precedence. rewrite Hex.
    destruct (Qltb (score job) 5
              && negb (has_token_overlap job user_roles search_skills))%bool;
      reflexivity.
Qed.

End GateFacts.

(** ** The per-job loop *)

Lemma randint_5_10_range (w : World) (i : nat) : 5 <= randint_5_10 w i <= 10.
Proof.
  unfold randint_5_10.
  pose proof (Z.mod_pos_bound (random_draw w i) 6 ltac:(lia)). lia.
Qed.

Lemma In_gather {A} (f : nat -> RankedJob -> list A) (l : list RankedJob)
    (i : nat) (x : A) :
  In x (gather f i l)
  <-> exists k job, l !! k = Some job /\ In x (f (i + k)%nat job).
Proof.
  revert i. induction l as [|job l IH]; intros i; simpl.
  - split; [intros [] | intros (k & j & H & _); discriminate].
  - rewrite in_app_iff, IH. split.
    + intros [H | (k & j & Hk & H)].
      * exists 0%nat, job. rewrite Nat.add_0_r. auto.
      * exists (S k), j. replace (i + S k)%nat with (S i + k)%nat by lia. auto.
    + intros (k & j & Hk & H). destruct k as [|k]; simpl in Hk.
      * injection Hk as <-. rewrite Nat.add_0_r in H. auto.
      * right. exists k, j.
        replace (S i + k)%nat with (i + S k)%nat by lia. auto.
Qed.

Lemma gather_flat_map {A B} (g : A -> list B) (f : nat -> RankedJob -> list A)
    (l : list RankedJob) (i : nat) :
  flat_map g (gather f i l) = gather (fun i job => flat_map g (f i job)) i l.
Proof.
  revert i. induction l as [|job l IH]; intros i; simpl; [reflexivity|].
  now rewrite flat_map_app, IH.
Qed.

Lemma gather_ext {A} (f g : nat -> RankedJob -> list A) (l : list RankedJob)
    (i : nat) :
  (forall i job, f i job = g i job) -> gather f i l = gather g i l.
Proof.
  intros H. revert i. induction l as [|job l IH]; intros i; simpl; [reflexivity|].
  now rewrite H, IH.
Qed.

Lemma gather_length {A} (f : nat -> RankedJob -> list A) (l : list RankedJob)
    (i : nat) (lo hi : nat) :
  (forall i job, (lo <= length (f i job) <= hi)%nat) ->
  (lo * length l <= length (gather f i l) <= hi * length l)%nat.
Proof.
  intros H. revert i. induction l as [|job l IH]; intros i; simpl; [lia|].
  rewrite List.length_app. specialize (H i job). specialize (IH (S i)). lia.
Qed.




Lemma apply_one_exact (w : World) (args : Args) (details_id : nat -> nat)
    (i : nat) (job : RankedJob) (st : Loop) :
  apply args = true ->
  l_trace (apply_one w args details_id i job st)
  = l_trace st ++ attempt_events w i job
  /\ l_applied (apply_one w args details_id i job st)
     = l_applied st ++ applied_entries w i job
  /\ l_failed (apply_one w args details_id i job st)
     = l_failed st ++ failed_entries w i job
  /\ l_methods (apply_one w args details_id i job st)
     = match method_named w i job with
       | Some apply_method => <[details_id i := apply_method]> (l_methods st)
       | None => l_methods st
       end.
Proof.
  intros Ha.
  unfold apply_one, attempt_events, applied_entries, failed_entries,
    method_named, store_method.
  rewrite Ha. destruct (run_naukri_chatbot w i job) as [|rc out late]; simpl.
  - rewrite !app_nil_r. auto.
  - destruct (parse_apply_method out), (rc =? 0), late; simpl;
      rewrite <- ?app_assoc, ?app_nil_r; auto.
Qed.

Lemma apply_each_exact (w : World) (args : Args) (details_id : nat -> nat)
    (l : list RankedJob) (i : nat) (st : Loop) :
  apply args = true ->
  l_trace (apply_each w args details_id i l st)
  = l_trace st ++ gather (attempt_events w) i l
  /\ l_applied (apply_each w args details_id i l st)
     = l_applied st ++ gather (applied_entries w) i l
  /\ l_failed (apply_each w args details_id i l st)
     = l_failed st ++ gather (failed_entries w) i l
  /\ forall id,
       l_methods (apply_each w args details_id i l st) !! id
       = match method_written w details_id id i l with
         | Some apply_method => Some apply_method
         | None => l_methods st !! id
         end.
Proof.
  intros Ha. revert i st. induction l as [|job l IH]; intros i st; simpl.
  - rewrite !app_nil_r. auto.
  - destruct (IH (S i) (apply_one w args details_id i job st))
      as (Ht & Hap & Hf & Hm).
    destruct (apply_one_exact w args details_id i job st Ha)
      as (Ht1 & Hap1 & Hf1 & Hm1).
    rewrite Ht, Hap, Hf, Ht1, Hap1, Hf1, <- !app_assoc.
    repeat split. intros id. rewrite Hm, Hm1.
    destruct (method_written w details_id id (S i) l); [reflexivity|].
    destruct (method_named w i job) as [m|];
      destruct (Nat.eqb_spec (details_id i) id) as [E|Hne]; try subst id;
      rewrite ?lookup_insert_eq, ?lookup_insert_ne by assumption; reflexivity.
Qed.

Lemma report_entry_at_report (w : World) (details_id : nat -> nat)
    (ranked_jobs : list RankedJob) (methods : gmap nat string) (e : Entry) :
  (forall id, methods !! id = method_written w details_id id 0 ranked_jobs) ->
  report_entry (at_report details_id methods e)
  = reported w details_id ranked_jobs e.
Proof.
  intros H. unfold at_report, reported. rewrite H.
  now destruct (method_written w details_id (details_id (fst e)) 0 ranked_jobs).
Qed.

Lemma method_written_none (w : World) (details_id : nat -> nat) (id : nat)
    (l : list RankedJob) (i : nat) :
  (forall k job, l !! k = Some job -> details_id (i + k)%nat = id ->
                 method_named w (i + k)%nat job = None) ->
  method_written w details_id id i l = None.
Proof.
  revert i. induction l as [|j l IH]; intros i H; [reflexivity|].
  simpl. rewrite IH.
  - destruct (Nat.eqb_spec (details_id i) id) as [E|]; [|reflexivity].
    specialize (H 0%nat j eq_refl). rewrite Nat.add_0_r in H. auto.
  - intros k job Hk Hid. specialize (H (S k) job Hk).
    replace (i + S k)%nat with (S i + k)%nat in H by lia. auto.
Qed.

(** The method an entry shows in the report is the one its own attempt
    named, when the details dict saw no later word. *)
Lemma method_written_last (w : World) (details_id : nat -> nat)
    (l : list RankedJob) (i k : nat) (job : RankedJob) (m : string) :
  l !! k = Some job ->
  method_named w (i + k)%nat job = Some m ->
  (forall k' job', (k < k')%nat -> l !! k' = Some job' ->
                   details_id (i + k')%nat = details_id (i + k)%nat ->
                   method_named w (i + k')%nat job' = None) ->
  method_written w details_id (details_id (i + k)%nat) i l = Some m.
Proof.
  revert i k. induction l as [|j l IH]; intros i k Hk Hm Hlast; [discriminate|].
  simpl. destruct k as [|k]; simpl in Hk.
  - injection Hk as ->.
    rewrite method_written_none.
    + rewrite Nat.add_0_r in *. now rewrite Nat.eqb_refl.
    + intros k' job' Hk' Hid.
      specialize (Hlast (S k') job' ltac:(lia) Hk').
      replace (i + S k')%nat with (S i + k')%nat in Hlast by lia. auto.
  - replace (i + S k)%nat with (S i + k)%nat in * by lia.
    rewrite (IH (S i) k Hk Hm); [reflexivity|].
    intros k' job' Hlt Hk' Hid.
    specialize (Hlast (S k') job' ltac:(lia) Hk').
    replace (i + S k')%nat with (S i + k')%nat in Hlast by lia. auto.
Qed.

(** ** Runs of the application phase *)

Lemma enters_regular_applies (args : Args) (ranked_jobs : list RankedJob) :
  enters_apply_phase args ranked_jobs = true ->
  auto_apply args = false -> apply args = true.
Proof.
  unfold enters_apply_phase. intros He Ha. rewrite Ha in He.
  destruct (apply args); [reflexivity|].
  rewrite orb_false_r, andb_false_r in He. discriminate.
Qed.

(** The per-job run, spelled out: its events are those of the attempts,
    entry by entry, and its report lists the applied and the failed
    entries as the loop recorded them. *)
Lemma regular_run (w : World) (args : Args) (details_id : nat -> nat)
    (ranked_jobs : list RankedJob) :
  enters_apply_phase args ranked_jobs = true ->
  auto_apply args = false ->
  start_browser w = true -> open_portal w = true -> ensure_logged_in w = true ->
  main_apply_phase w args details_id ranked_jobs
  = (StartBrowser :: gather (attempt_events w) 0 ranked_jobs
       ++ save_json (database_available w) SaveReport ++ [CloseBrowser],
     Returned 0 (Some
       {| applied_count := length (gather (applied_entries w) 0 ranked_jobs);
          failed_count := length (gather (failed_entries w) 0 ranked_jobs);
          skipped_count := 0;
          applied_jobs :=
            List.map (reported w details_id ranked_jobs)
              (gather (applied_entries w) 0 ranked_jobs);
          failed_jobs :=
            List.map (reported w details_id ranked_jobs)
              (gather (failed_entries w) 0 ranked_jobs);
          skipped_jobs := [] |})).
Proof.
  intros He Ha Hs Ho Hl.
  pose proof (enters_regular_applies _ _ He Ha) as Hap.
  unfold main_apply_phase, regular_apply. rewrite He, Ha, Hs, Ho, Hl.
  destruct (apply_each_exact w args details_id ranked_jobs 0 loop_start Hap)
    as (Ht & Happ & Hf & Hm).
  unfold make_report, loop_outcomes.
  cbn [o_trace o_applied o_failed o_skipped]. rewrite Ht, Happ, Hf.
  cbn [loop_start l_trace l_applied l_failed app length List.map].
  rewrite !List.length_map, !List.map_map.
  assert (Hline : forall e,
            report_entry
              (at_report details_id
                 (l_methods (apply_each w args details_id 0 ranked_jobs loop_start))
                 e)
            = reported w details_id ranked_jobs e).
  { intros e. apply report_entry_at_report. intros id. rewrite Hm. simpl.
    now destruct (method_written w details_id id 0 ranked_jobs). }
  now rewrite !(List.map_ext _ _ Hline).
Qed.

Lemma regular_report (w : World) (args : Args) (details_id : nat -> nat)
    (ranked_jobs : list RankedJob) (r : Report) :
  enters_apply_phase args ranked_jobs = true ->
  auto_apply args = false ->
  report_of (snd (main_apply_phase w args details_id ranked_jobs)) = Some r ->
  start_browser w = true /\ open_portal w = true /\ ensure_logged_in w = true.
Proof.
  intros He Ha Hr. unfold main_apply_phase, regular_apply in Hr.
  rewrite He, Ha in Hr.
  destruct (start_browser w); [|discriminate].
  destruct (open_portal w); [|discriminate].
  destruct (ensure_logged_in w); [|discriminate]. auto.
Qed.

Lemma bulk_run (w : World) (args : Args) (details_id : nat -> nat)
    (ranked_jobs : list RankedJob) :
  enters_apply_phase args ranked_jobs = true ->
  auto_apply args = true ->
  start_browser w = true -> bulk_handoff w = true ->
  direct_apply_jobs ranked_jobs <> [] ->
  exists o,
    main_apply_phase w args details_id ranked_jobs
    = (StartBrowser :: o_trace o
         ++ save_json (database_available w) SaveReport ++ [CloseBrowser],
       Returned 0 (Some (make_report o)))
    /\ o_skipped o = []
    /\ match application_results_json w with
       | PyList (item :: items) =>
           o_applied o = List.filter applied_flag (item :: items)
           /\ o_failed o
              = List.filter (fun job => negb (applied_flag job)) (item :: items)
       | _ =>
           o_applied o = []
           /\ o_failed o
              = List.map (fun job => set_applied job false)
                  (direct_apply_jobs ranked_jobs)
       end.
Proof.
  intros He Ha Hs Hb Hd. unfold main_apply_phase, bulk_apply, apply_to_multiple_jobs.
  rewrite He, Ha, Hs, Hb.
  destruct (direct_apply_jobs ranked_jobs) as [|d ds] eqn:Ed; [congruence|].
  assert (Hfall : forall q : RankedJob -> bool,
            (forall job, q (set_applied job false) = false) ->
            List.filter q (List.map (fun job => set_applied job false) (d :: ds)) = []).
  { intros q Hq. generalize (d :: ds). intros l.
    induction l as [|x l IH]; [reflexivity|]. simpl. now rewrite Hq. }
  assert (Hkeep : List.filter (fun job => negb (applied_flag job))
                    (List.map (fun job => set_applied job false) (d :: ds))
                  = List.map (fun job => set_applied job false) (d :: ds)).
  { generalize (d :: ds). intros l.
    induction l as [|x l IH]; [reflexivity|]. simpl. now rewrite IH. }
  destruct (application_results_json w) as [|[|item items]|[|]];
    cbn [truthy_val is_list negb orb rbind];
    (eexists; split; [reflexivity|]);
    cbn [o_skipped o_applied o_failed];
    rewrite ?Hkeep, ?(Hfall applied_flag) by reflexivity; auto.
Qed.

Lemma filter_both_perm {A} (p : A -> bool) (l : list A) :
  Permutation (List.filter p l ++ List.filter (fun a => negb (p a)) l) l.
Proof.
  induction l as [|a l IH]; [reflexivity|]. simpl.
  destruct (p a); simpl.
  - now apply perm_skip.
  - rewrite <- Permutation_middle. now apply perm_skip.
Qed.








(** Beside C2: in a bulk run over one job of a direct apply type and one
    of another, with no result file, the direct job is counted as failed
    and the other job is counted nowhere, although the branch without any
    direct job (line 2747) counts such jobs as skipped. *)
Lemma bulk_counts_miss_a_job :
  exists r,
    snd (main_apply_phase (Scenario.bulk_world PyNone) Scenario.auto_args
           (fun k => k)
           [Scenario.job 1 "direct" 9; Scenario.job 2 "unknown" 8])
    = Returned 0 (Some r)
    /\ (applied_count r + failed_count r + skipped_count r)%nat = 1%nat
    /\ ~ In (url (Scenario.job 2 "unknown" 8))
          (List.map r_url (applied_jobs r ++ failed_jobs r ++ skipped_jobs r))
    /\ ~ accounts_for_all
           [Scenario.job 1 "direct" 9; Scenario.job 2 "unknown" 8] r.
Proof.
  eexists. split; [vm_compute; reflexivity|].
  split; [reflexivity|]. split.
  - intros H. vm_compute in H.
    repeat destruct H as [H|H]; try discriminate H. exact H.
  - unfold accounts_for_all. simpl. discriminate.
Qed.

(** ** Repeated and failed attempts *)

Lemma connector_urls_run_trace (t rest : list Event) :
  connector_urls rest = [] ->
  connector_urls (StartBrowser :: t ++ rest) = connector_urls t.
Proof.
  intros H. unfold connector_urls in *. simpl.
  now rewrite flat_map_app, H, app_nil_r.
Qed.

Lemma save_and_close (db : bool) :
  connector_urls (save_json db SaveReport ++ [CloseBrowser]) = []
  /\ sleeps (save_json db SaveReport ++ [CloseBrowser]) = []
  /\ List.filter is_connector_call (save_json db SaveReport ++ [CloseBrowser]) = [].
Proof. destruct db; repeat split. Qed.

Lemma connector_calls_run_trace (t : list Event) (db : bool) :
  connector_calls (StartBrowser :: t ++ save_json db SaveReport ++ [CloseBrowser])
  = connector_calls t.
Proof.
  unfold connector_calls. simpl. rewrite List.filter_app.
  destruct (save_and_close db) as (_ & _ & ->). now rewrite app_nil_r.
Qed.

Lemma sleeps_run_trace (t : list Event) (db : bool) :
  sleeps (StartBrowser :: t ++ save_json db SaveReport ++ [CloseBrowser])
  = sleeps t.
Proof.
  unfold sleeps. simpl. rewrite flat_map_app.
  destruct (save_and_close db) as (_ & H & _). unfold sleeps in H.
  now rewrite H, app_nil_r.
Qed.

Lemma connector_urls_attempts (w : World) (l : list RankedJob) (i : nat) :
  connector_urls (gather (attempt_events w) i l) = gather (started w) i l.
Proof.
  unfold connector_urls. rewrite gather_flat_map. apply gather_ext.
  intros k job. unfold attempt_events, started.
  now destruct (run_naukri_chatbot w k job) as [|rc out [|]].
Qed.

Lemma connector_calls_urls (t : list Event) :
  connector_calls t = length (connector_urls t).
Proof.
  unfold connector_calls, connector_urls.
  induction t as [|e t IH]; [reflexivity|].
  destruct e; simpl; rewrite ?IH; reflexivity.
Qed.

Lemma sleeps_attempts (w : World) (l : list RankedJob) (i : nat) :
  Forall (fun n => 5 <= n <= 10) (sleeps (gather (attempt_events w) i l)).
Proof.
  revert i. induction l as [|job l IH]; intros i; simpl; [constructor|].
  unfold sleeps in *. rewrite flat_map_app. apply Forall_app. split; [|apply IH].
  unfold attempt_events.
  destruct (run_naukri_chatbot w i job) as [|rc out [|]]; simpl;
    repeat constructor; apply randint_5_10_range.
Qed.

(** C5 (as the code has it). The per-job loop keeps no record of earlier
    applications: whatever state an entry is in, the connector sub-process
    is started for it, once for every entry of the list whose preparation
    does not raise and in the order of the list, so that a job the list
    holds twice is called twice.  An entry is reported as applied when its
    call exits with status 0, and the method the report shows for it is
    the one named in the output of its attempt (for instance
    [already_applied]) unless a later attempt on an entry that shares its
    details dict names one. *)
Theorem reapply_calls_connector_again (w : World) (args : Args)
    (details_id : nat -> nat) (ranked_jobs : list RankedJob) :
  enters_apply_phase args ranked_jobs = true ->
  auto_apply args = false ->
  start_browser w = true -> open_portal w = true -> ensure_logged_in w = true ->
  connector_urls (fst (main_apply_phase w args details_id ranked_jobs))
  = gather (started w) 0 ranked_jobs
  /\ forall (k : nat) (job : RankedJob) (rc : Z) (out : string) (late : bool),
       ranked_jobs !! k = Some job ->
       run_naukri_chatbot w k job = Exited rc out late ->
       In (ConnectorCall (url job))
         (fst (main_apply_phase w args details_id ranked_jobs))
       /\ (rc = 0 ->
           exists r,
             report_of (snd (main_apply_phase w args details_id ranked_jobs))
             = Some r
             /\ In (reported w details_id ranked_jobs (k, job)) (applied_jobs r))
       /\ (forall m : string,
             parse_apply_method out = Some m ->
             last_word w details_id ranked_jobs k ->
             r_application_method (reported w details_id ranked_jobs (k, job))
             = m).
Proof.
  intros He Ha Hs Ho Hl. rewrite regular_run by assumption.
  cbn [fst snd report_of]. split.
  - rewrite connector_urls_run_trace by apply save_and_close.
    apply connector_urls_attempts.
  - intros k job rc out late Hk E. split; [|split].
    + right. apply in_or_app. left. apply In_gather.
      exists k, job. split; [exact Hk|]. unfold attempt_events. simpl.
      rewrite E. destruct late; simpl; auto.
    + intros ->. eexists. split; [reflexivity|].
      cbn [applied_jobs]. apply in_map, In_gather.
      exists k, job. split; [exact Hk|]. unfold applied_entries. simpl.
      rewrite E. simpl. auto.
    + intros m Hm Hlast. unfold reported. cbn [r_application_method fst].
      pose proof (method_written_last w details_id ranked_jobs 0 k job m Hk)
        as H.
      cbn [Nat.add] in H. rewrite H; [reflexivity | |].
      * unfold method_named. now rewrite E.
      * intros k' job' Hlt Hk' Hid. eapply Hlast; eassumption.
Qed.

Lemma reapply_calls_connector_again_witness :
  connector_urls
    (fst (main_apply_phase (Scenario.world_with Scenario.already_applied_attempt)
            Scenario.apply_args (fun k => k)
            [set_application_method (Scenario.job 1 "direct" 9)
               "already_applied"]))
  = [url (Scenario.job 1 "direct" 9)].
Proof.
  exact (proj1 (reapply_calls_connector_again
                  (Scenario.world_with Scenario.already_applied_attempt)
                  Scenario.apply_args (fun k => k)
                  [set_application_method (Scenario.job 1 "direct" 9)
                     "already_applied"]
                  eq_refl eq_refl eq_refl eq_refl eq_refl)).
Defined.

(** C5 fails as stated: a first run applies to a job and records the
    method [already_applied]; a second run over the job as the first run
    left it starts the connector sub-process again. *)
Lemma reapply_is_not_a_noop :
  let first_run :=
    main_apply_phase (Scenario.world_with Scenario.already_applied_attempt)
      Scenario.apply_args (fun k => k) [Scenario.job 1 "direct" 9] in
  let applied_job :=
    set_application_method (Scenario.job 1 "direct" 9) "already_applied" in
  let second_run :=
    main_apply_phase (Scenario.world_with Scenario.already_applied_attempt)
      Scenario.apply_args (fun k => k) [applied_job] in
  (exists r, snd first_run = Returned 0 (Some r)
             /\ applied_jobs r = [report_entry applied_job])
  /\ application_method (details applied_job) = Some "already_applied"
  /\ connector_calls (fst second_run) = 1%nat
  /\ connector_calls (fst second_run) <> 0%nat.
Proof.
  cbv zeta. split; [eexists; split; vm_compute; reflexivity|].
  split; [reflexivity|]. split; [reflexivity|]. vm_compute. discriminate.
Qed.

(** C7 (as the code has it). In the per-job mode no attempt is repeated:
    the events of the run are those of one attempt for each entry of the
    list, in order; an attempt is the call of the connector followed at
    once by a pause of 5 to 10 seconds, whether the call succeeded or not
    (no call when the preparation raises, no pause when an exception
    follows the call).  An entry whose sub-process exits with a non-zero
    status goes to the failed list at once, and the applied list holds
    only entries whose sub-process exited with status 0. *)
Theorem failed_attempt_settled_at_once (w : World) (args : Args)
    (details_id : nat -> nat) (ranked_jobs : list RankedJob) :
  enters_apply_phase args ranked_jobs = true ->
  auto_apply args = false ->
  start_browser w = true -> open_portal w = true -> ensure_logged_in w = true ->
  fst (main_apply_phase w args details_id ranked_jobs)
  = StartBrowser :: gather (attempt_events w) 0 ranked_jobs
      ++ save_json (database_available w) SaveReport ++ [CloseBrowser]
  /\ (length (connector_urls (fst (main_apply_phase w args details_id ranked_jobs)))
      <= length ranked_jobs)%nat
  /\ Forall (fun n => 5 <= n <= 10)
       (sleeps (fst (main_apply_phase w args details_id ranked_jobs)))
  /\ exists r,
       report_of (snd (main_apply_phase w args details_id ranked_jobs)) = Some r
       /\ applied_jobs r
          = List.map (reported w details_id ranked_jobs)
              (gather (applied_entries w) 0 ranked_jobs)
       /\ failed_jobs r
          = List.map (reported w details_id ranked_jobs)
              (gather (failed_entries w) 0 ranked_jobs)
       /\ forall (k : nat) (job : RankedJob) (rc : Z) (out : string)
                 (late : bool),
            ranked_jobs !! k = Some job ->
            run_naukri_chatbot w k job = Exited rc out late ->
            rc <> 0 ->
            In (k, job) (gather (failed_entries w) 0 ranked_jobs)
            /\ ~ In (k, job) (gather (applied_entries w) 0 ranked_jobs)
            /\ In (reported w details_id ranked_jobs (k, job)) (failed_jobs r).
Proof.
  intros He Ha Hs Ho Hl. rewrite regular_run by assumption.
  cbn [fst snd report_of]. split; [reflexivity|]. split; [|split].
  - rewrite connector_urls_run_trace by apply save_and_close.
    rewrite connector_urls_attempts.
    pose proof (gather_length (started w) ranked_jobs 0 0 1) as H.
    destruct H as [_ H]; [|lia].
    intros i job. unfold started.
    destruct (run_naukri_chatbot w i job); simpl; lia.
  - rewrite sleeps_run_trace. apply sleeps_attempts.
  - eexists. split; [reflexivity|]. cbn [applied_jobs failed_jobs].
    split; [reflexivity|]. split; [reflexivity|].
    intros k job rc out late Hk E Hrc.
    assert (Hin : In (k, job) (gather (failed_entries w) 0 ranked_jobs)).
    { apply In_gather. exists k, job. split; [exact Hk|].
      unfold failed_entries. simpl. rewrite E.
      assert ((rc =? 0) = false) as -> by lia. simpl. auto. }
    split; [exact Hin|]. split; [|now apply in_map].
    intros H. apply In_gather in H as (k' & job' & Hk' & H).
    unfold applied_entries in H. simpl in H.
    destruct (run_naukri_chatbot w k' job') as [|rc' out' late'] eqn:E';
      [destruct H|].
    destruct (Z.eqb_spec rc' 0) as [->|]; [|destruct H].
    destruct H as [H|[]]. injection H as -> ->. congruence.
Qed.

Lemma failed_attempt_settled_at_once_witness :
  fst (main_apply_phase (Scenario.world_with Scenario.failing_attempt)
         Scenario.apply_args (fun k => k) [Scenario.job 1 "direct" 9])
  = [StartBrowser; ConnectorCall (url (Scenario.job 1 "direct" 9)); Sleep 8;
     SaveReport; CloseBrowser].
Proof.
  exact (proj1 (failed_attempt_settled_at_once
                  (Scenario.world_with Scenario.failing_attempt)
                  Scenario.apply_args (fun k => k) [Scenario.job 1 "direct" 9]
                  eq_refl eq_refl eq_refl eq_refl eq_refl)).
Defined.

(** C7 fails as stated: the sub-process of the only job exits with status
    1; the connector was called once, not twice, and the job is reported
    as failed. *)
Lemma failed_attempt_gets_no_retry :
  let run :=
    main_apply_phase (Scenario.world_with Scenario.failing_attempt)
      Scenario.apply_args (fun k => k) [Scenario.job 1 "direct" 9] in
  calls_to (url (Scenario.job 1 "direct" 9)) (fst run) = 1%nat
  /\ calls_to (url (Scenario.job 1 "direct" 9)) (fst run) <> 2%nat
  /\ exists r, snd run = Returned 0 (Some r)
               /\ failed_count r = 1%nat /\ applied_count r = 0%nat.
Proof.
  cbv zeta. split; [reflexivity|]. split; [vm_compute; discriminate|].
  eexists. split; [vm_compute; reflexivity|]. split; reflexivity.
Qed.

(** ** Ways out of the application phase *)

Lemma attempts_save_nothing (w : World) (l : list RankedJob) (i : nat) :
  ~ In SaveReport (gather (attempt_events w) i l).
Proof.
  intros H. apply In_gather in H as (k & job & _ & H).
  unfold attempt_events in H.
  destruct (run_naukri_chatbot w (i + k) job) as [|rc out [|]]; simpl in H;
    intuition discriminate.
Qed.

(** C9 (as the code has it). A run that reaches the application phase
    ends with a report exactly when the browser starts and, in the per-job
    mode, the portal page opens and the login succeeds (in bulk mode: the
    hand-over to the worker does not raise, or no job is of a direct apply
    type).  The report is written to its file exactly when, besides, the
    database is not in use: with the database, [save_json] writes nothing.
    When the browser does not start the run returns 1 without a report,
    and when the login fails it closes the browser and returns 1 without
    a report. *)
Theorem report_iff_browser_and_login (w : World) (args : Args)
    (details_id : nat -> nat) (ranked_jobs : list RankedJob) :
  enters_apply_phase args ranked_jobs = true ->
  ((exists r,
      report_of (snd (main_apply_phase w args details_id ranked_jobs)) = Some r)
   <-> start_browser w = true
       /\ if auto_apply args
          then direct_apply_jobs ranked_jobs = [] \/ bulk_handoff w = true
          else open_portal w = true /\ ensure_logged_in w = true)
  /\ (In SaveReport (fst (main_apply_phase w args details_id ranked_jobs))
      <-> (exists r,
             report_of (snd (main_apply_phase w args details_id ranked_jobs))
             = Some r)
          /\ database_available w = false)
  /\ (start_browser w = false ->
      main_apply_phase w args details_id ranked_jobs
      = ([StartBrowser], Returned 1 None))
  /\ (auto_apply args = false -> start_browser w = true ->
      open_portal w = true -> ensure_logged_in w = false ->
      main_apply_phase w args details_id ranked_jobs
      = ([StartBrowser; CloseBrowser], Returned 1 None)).
Proof.
  intros He.
  destruct (auto_apply args) eqn:Ha.
  - unfold main_apply_phase, bulk_apply, apply_to_multiple_jobs, save_json.
    rewrite He, Ha.
    destruct (start_browser w), (database_available w);
      (destruct (direct_apply_jobs ranked_jobs) as [|d ds];
       [|destruct (bulk_handoff w);
           [destruct (application_results_json w) as [|[|item items]|[|]]|]]);
      cbn [truthy_val is_list negb orb rbind fst snd report_of o_trace app];
      repeat match goal with
             | |- _ /\ _ => split
             | |- _ <-> _ => split
             | |- _ -> _ => intro
             | H : exists _, _ |- _ => destruct H
             | H : _ /\ _ |- _ => destruct H
             | H : _ \/ _ |- _ => destruct H
             | H : In _ _ |- _ => simpl in H
             end;
      try discriminate; try congruence; try contradiction; eauto;
      try (simpl; tauto).
  - destruct (start_browser w) eqn:Hs;
      [destruct (open_portal w) eqn:Ho; [destruct (ensure_logged_in w) eqn:Hl|]|].
    + rewrite regular_run by assumption. cbn [fst snd report_of].
      split; [split; eauto|]. split; [|split; intros; discriminate].
      unfold save_json. split.
      * intros [H|H]; [discriminate|].
        apply in_app_or in H as [H|H];
          [now apply attempts_save_nothing in H|].
        destruct (database_available w); simpl in H; [|eauto].
        destruct H as [H|[]]. discriminate.
      * intros [_ ->]. right. apply in_or_app. right. simpl. auto.
    + unfold main_apply_phase, regular_apply. rewrite He, Ha, Hs, Ho, Hl.
      cbn [fst snd report_of]. split; [split|].
      * intros [r Hr]. discriminate.
      * intros (_ & _ & H). discriminate.
      * split; [|split; [intros; discriminate | reflexivity]]. split.
        -- intros [H|[H|[]]]; discriminate.
        -- intros [[r Hr] _]. discriminate.
    + unfold main_apply_phase, regular_apply. rewrite He, Ha, Hs, Ho.
      cbn [fst snd report_of]. split; [split|].
      * intros [r Hr]. discriminate.
      * intros (_ & H & _). discriminate.
      * split; [|split; intros; discriminate]. split.
        -- intros [H|[H|[]]]; discriminate.
        -- intros [[r Hr] _]. discriminate.
    + unfold main_apply_phase. rewrite He, Hs.
      cbn [fst snd report_of]. split; [split|].
      * intros [r Hr]. discriminate.
      * intros (H & _). discriminate.
      * split; [|split; [reflexivity | intros; discriminate]]. split.
        -- intros [H|[]]. discriminate.
        -- intros [[r Hr] _]. discriminate.
Qed.

Lemma report_iff_browser_and_login_witness :
  exists r,
    report_of (snd (main_apply_phase (Scenario.world_with Scenario.quiet_attempt)
                      Scenario.apply_args (fun k => k)
                      Scenario.five_direct_jobs)) = Some r.
Proof.
  apply (proj1 (report_iff_browser_and_login
                  (Scenario.world_with Scenario.quiet_attempt)
                  Scenario.apply_args (fun k => k) Scenario.five_direct_jobs
                  eq_refl)).
  split; [reflexivity | split; reflexivity].
Defined.

(** C9 fails as stated: the run reaches the application phase, the browser
    does not start, and [main] returns 1 without a report; likewise, with
    the login failing, it closes the browser and returns 1 without one. *)
Lemma exits_without_report :
  enters_apply_phase Scenario.apply_args Scenario.five_direct_jobs = true
  /\ main_apply_phase Scenario.no_browser Scenario.apply_args (fun k => k)
       Scenario.five_direct_jobs = ([StartBrowser], Returned 1 None)
  /\ main_apply_phase Scenario.no_login Scenario.apply_args (fun k => k)
       Scenario.five_direct_jobs = ([StartBrowser; CloseBrowser], Returned 1 None)
  /\ ~ (exists r,
          report_of (snd (main_apply_phase Scenario.no_browser Scenario.apply_args
                            (fun k => k) Scenario.five_direct_jobs)) = Some r).
Proof.
  repeat split. intros [r Hr]. discriminate.
Qed.

(** ** The Selenium search *)

Section Emissions.

Import Selenium.

Variable P : Ev -> Prop.

Lemma emits_ret {A} (a : A) : emits_only P (ret a).
Proof. intros b stdin. constructor. Qed.

Lemma emits_raise {A} (e : exn) : emits_only P (@raise A e).
Proof. intros b stdin. constructor. Qed.

Lemma emits_bind {A B} (m : M A) (f : A -> M B) :
  emits_only P m -> (forall a, emits_only P (f a)) -> emits_only P (bind m f).
Proof.
  intros Hm Hf b stdin. unfold bind. specialize (Hm b stdin).
  destruct (m b stdin) as [[t stdin'] [a|e]]; [|exact Hm].
  specialize (Hf a b stdin').
  destruct (f a b stdin') as [[t' stdin''] r]. simpl in *.
  apply Forall_app. now split.
Qed.

Lemma emits_try_except {A} (m h : M A) :
  emits_only P m -> emits_only P h -> emits_only P (try_except m h).
Proof.
  intros Hm Hh b stdin. unfold try_except. specialize (Hm b stdin).
  destruct (m b stdin) as [[t stdin'] [a|e]]; [exact Hm|].
  specialize (Hh b stdin').
  destruct (h b stdin') as [[t' stdin''] r]. simpl in *.
  apply Forall_app. now split.
Qed.

Lemma emits_call (c : Call) : P (Called c) -> emits_only P (call c).
Proof. intros H b stdin. simpl. constructor; [exact H | constructor]. Qed.

Lemma emits_probe (c : Call) : P (Called c) -> emits_only P (probe c).
Proof. intros H b stdin. simpl. constructor; [exact H | constructor]. Qed.

Lemma emits_sleep (n : Z) : P (Slept n) -> emits_only P (sleep n).
Proof. intros H b stdin. simpl. constructor; [exact H | constructor]. Qed.

Lemma emits_input (prompt : string) :
  P (Asked prompt) -> emits_only P (input prompt).
Proof.
  intros H b [|line rest]; simpl; (constructor; [exact H | constructor]).
Qed.

Lemma emits_browser : emits_only P browser.
Proof. intros b stdin. constructor. Qed.

Lemma emits_read_departments (departments selected : list string) :
  (forall prompt, P (Asked prompt)) ->
  emits_only P (fun _ => read_departments departments selected).
Proof.
  intros H b stdin. revert selected.
  induction stdin as [|line rest IH]; intros selected; simpl.
  - constructor; [apply H | constructor].
  - destruct (String.eqb (strip line) "0"); simpl.
    + constructor; [apply H | constructor].
    + match goal with
      | |- context [read_departments departments ?s rest] =>
          specialize (IH s); destruct (read_departments departments s rest)
            as [[t stdin'] r]
      end.
      simpl in *. constructor; [apply H | exact IH].
Qed.

End Emissions.

Ltac emits_step :=
  match goal with
  | |- emits_only _ (Selenium.bind _ _) => apply emits_bind; [|intros ?]
  | |- emits_only _ (Selenium.try_except _ _) => apply emits_try_except
  | |- emits_only _ (if ?c then _ else _) => destruct c
  | |- emits_only _ (match ?x with _ => _ end) => destruct x
  | |- emits_only _ (Selenium.ret _) => apply emits_ret
  | |- emits_only _ (Selenium.raise _) => apply emits_raise
  | |- emits_only _ (Selenium.call _) => apply emits_call
  | |- emits_only _ (Selenium.probe _) => apply emits_probe
  | |- emits_only _ (Selenium.sleep _) => apply emits_sleep
  | |- emits_only _ (Selenium.input _) => apply emits_input
  | |- emits_only _ (fun _ => Selenium.read_departments _ _) =>
      apply emits_read_departments; intros ?
  | |- emits_only _ Selenium.browser => apply emits_browser
  end.

Ltac emits := repeat emits_step; try reflexivity; try exact I; try (simpl; lia).

Lemma search_and_filter_no_extraction (experience : string)
    (freshness : option string) (industries departments : option (list string)) :
  emits_only no_extraction
    (Selenium.search_and_filter experience freshness industries departments).
Proof.
  unfold Selenium.search_and_filter, Selenium.click_search_container,
    Selenium.fill_input, Selenium.select_experience,
    Selenium.click_search_button, Selenium.apply_freshness_filter,
    Selenium.industry_filter, Selenium.department_filter, Selenium.confirm.
  emits.
Qed.

Lemma search_and_filter_nonneg (experience : string)
    (freshness : option string) (industries departments : option (list string)) :
  emits_only nonneg_sleep
    (Selenium.search_and_filter experience freshness industries departments).
Proof.
  unfold Selenium.search_and_filter, Selenium.click_search_container,
    Selenium.fill_input, Selenium.select_experience,
    Selenium.click_search_button, Selenium.apply_freshness_filter,
    Selenium.industry_filter, Selenium.department_filter, Selenium.confirm.
  emits.
Qed.

Lemma find_job_cards_nonneg (current_page : nat) (selectors : list nat) :
  emits_only nonneg_sleep (Selenium.find_job_cards current_page selectors).
Proof.
  induction selectors as [|selector rest IH]; simpl; emits; exact IH.
Qed.

Lemma card_link_nonneg (current_page card : nat) (selectors : list nat) :
  emits_only nonneg_sleep (Selenium.card_link current_page card selectors).
Proof.
  induction selectors as [|selector rest IH]; simpl; emits; exact IH.
Qed.

Lemma page_links_nonneg (current_page i remaining : nat) (links : list string) :
  emits_only nonneg_sleep (Selenium.page_links current_page i remaining links).
Proof.
  revert i links.
  induction remaining as [|n IH]; intros i links; cbn [Selenium.page_links].
  - emits.
  - apply emits_bind; [apply card_link_nonneg | intros link; apply IH].
Qed.

Lemma find_next_button_nonneg (current_page : nat) (selectors : list nat)
    (next_button : bool) :
  emits_only nonneg_sleep
    (Selenium.find_next_button current_page selectors next_button).
Proof.
  revert next_button.
  induction selectors as [|selector rest IH]; intros next_button; simpl;
    emits; apply IH.
Qed.

Lemma extract_pages_nonneg (max_jobs current_page : nat) (later : list nat)
    (job_links : list string) :
  emits_only nonneg_sleep
    (Selenium.extract_pages max_jobs current_page later job_links).
Proof.
  revert current_page job_links.
  induction later as [|next_page later IH]; intros current_page job_links;
    cbn [Selenium.extract_pages].
  - apply emits_bind; [apply find_job_cards_nonneg | intros [|n]]; [emits|].
    apply emits_bind; [apply page_links_nonneg | intros links]. emits.
  - apply emits_bind; [apply find_job_cards_nonneg | intros [|n]]; [emits|].
    apply emits_bind; [apply page_links_nonneg | intros links].
    destruct (_ <=? _)%nat; [emits|]. destruct (_ <? _)%nat; [|emits].
    apply emits_bind; [|intros [|]; [apply IH | emits]].
    apply emits_try_except; [|emits].
    apply emits_bind; [apply find_next_button_nonneg | intros [|]]; emits.
Qed.

Lemma wait_and_extract_waits_first (max_jobs : nat) (b : Selenium.Browser)
    (stdin : list string) :
  exists t,
    fst (fst (Selenium.wait_and_extract max_jobs b stdin))
    = Selenium.Slept 50000000 :: t
    /\ Forall nonneg_sleep t.
Proof.
  unfold Selenium.wait_and_extract.
  cbv beta iota delta [Selenium.bind Selenium.sleep Selenium.call].
  destruct (Selenium.fails b (Selenium.Screenshot "naukri_final_results")).
  - eexists. split; [reflexivity|]. repeat constructor.
  - destruct (Selenium.fails b (Selenium.Screenshot "naukri_page_1")).
    + eexists. split; [reflexivity|]. repeat constructor.
    + pose proof (extract_pages_nonneg max_jobs 1 [2; 3]%nat [] b stdin) as H.
      destruct (Selenium.extract_pages max_jobs 1 [2; 3]%nat [] b stdin)
        as [[t s] [links|e]]; simpl in H;
        (eexists; split; [reflexivity|]; repeat constructor; exact H).
Qed.

Lemma total_sleep_app (t1 t2 : list Selenium.Ev) :
  Selenium.total_sleep (t1 ++ t2)
  = Selenium.total_sleep t1 + Selenium.total_sleep t2.
Proof.
  induction t1 as [|e t1 IH]; simpl; [reflexivity|].
  destruct e; simpl in *; lia.
Qed.

Lemma total_sleep_nonneg (t : list Selenium.Ev) :
  Forall nonneg_sleep t -> 0 <= Selenium.total_sleep t.
Proof.
  induction 1 as [|e t He _ IH]; simpl; [lia|].
  destruct e; simpl in *; lia.
Qed.

(** The shape of every run of the routine: either it does not get through
    the filters, and raises without having looked for a job card, or its
    trace holds the long wait, with no look-up of job cards or links before
    it. *)
Lemma search_shape (experience : string) (freshness : option string)
    (max_jobs : nat) (industries departments : option (list string))
    (b : Selenium.Browser) (stdin : list string) :
  let run := Selenium.search_naukri_with_selenium experience freshness max_jobs
               industries departments b stdin in
  (~ reaches_post_filter experience freshness industries departments b stdin
   /\ Forall no_extraction (fst (fst run)) /\ exists e, snd run = Raise e)
  \/ (reaches_post_filter experience freshness industries departments b stdin
      /\ exists t1 t2,
           fst (fst run) = t1 ++ Selenium.Slept 50000000 :: t2
           /\ Forall no_extraction t1
           /\ Forall nonneg_sleep t1 /\ Forall nonneg_sleep t2).
Proof.
  cbv zeta. unfold Selenium.search_naukri_with_selenium, reaches_post_filter.
  cbv beta iota delta [Selenium.bind Selenium.try_except Selenium.call
                         Selenium.ret Selenium.raise].
  destruct (Selenium.fails b Selenium.MakeScreenshotDir);
    [left; split; [intros (H & _); discriminate
                  |split; [repeat constructor | eauto]]|].
  destruct (Selenium.fails b Selenium.StartChrome);
    [left; split; [intros (_ & H & _); discriminate
                  |split; [repeat constructor | eauto]]|].
  destruct (Selenium.fails b Selenium.Maximize);
    [left; split; [intros (_ & _ & H & _); discriminate
                  |split; [repeat constructor | eauto]]|].
  pose proof (search_and_filter_no_extraction experience freshness industries
                departments b stdin) as Hquiet.
  pose proof (search_and_filter_nonneg experience freshness industries
                departments b stdin) as Hnn.
  destruct (Selenium.search_and_filter experience freshness industries
              departments b stdin) as [[t0 s0] [[]|e0]]; simpl in Hquiet, Hnn.
  - destruct (wait_and_extract_waits_first max_jobs b s0) as (t & Ht & Hpos).
    destruct (Selenium.wait_and_extract max_jobs b s0) as [[t1 s1] r1].
    simpl in Ht. subst t1. right. split; [eauto 6|].
    exists ([Selenium.Called Selenium.MakeScreenshotDir;
             Selenium.Called Selenium.StartChrome;
             Selenium.Called Selenium.Maximize] ++ t0).
    destruct r1 as [links|e1];
      destruct (Selenium.fails b Selenium.Quit);
      (eexists; split;
       [cbn [fst snd app]; rewrite ?app_nil_r, <- ?app_assoc; cbn [app];
        reflexivity|]);
      (split; [repeat constructor; exact Hquiet|]);
      (split; [repeat constructor; exact Hnn|]);
      rewrite ?Forall_app; repeat split; auto; repeat constructor.
  - left. split; [intros (_ & _ & _ & t & s & H); discriminate|].
    destruct (Selenium.fails b Selenium.Quit); cbn [fst snd app];
      (split; [|eauto]); rewrite ?app_nil_r;
      repeat (constructor; [reflexivity|]);
      (apply Forall_app; split; [exact Hquiet | repeat constructor]).
Qed.

Lemma total_sleep_with_wait (t1 t2 : list Selenium.Ev) :
  Forall nonneg_sleep t1 -> Forall nonneg_sleep t2 ->
  50000000 <= Selenium.total_sleep (t1 ++ Selenium.Slept 50000000 :: t2).
Proof.
  intros H1 H2. rewrite total_sleep_app. simpl.
  apply total_sleep_nonneg in H1, H2. lia.
Qed.

Lemma extraction_after_wait (t1 t2 u1 u2 : list Selenium.Ev) (e : Selenium.Ev) :
  t1 ++ Selenium.Slept 50000000 :: t2 = u1 ++ e :: u2 ->
  Forall no_extraction t1 ->
  Selenium.is_extraction e = true ->
  In (Selenium.Slept 50000000) u1.
Proof.
  intros Heq Hquiet He.
  apply app_eq_app in Heq as [l [[-> Hl]|[-> Hl]]].
  - destruct l as [|x l]; simpl in Hl.
    + injection Hl as -> _. discriminate.
    + injection Hl as -> _. apply Forall_app in Hquiet as [_ Hq].
      apply Forall_cons in Hq as [Hq _]. unfold no_extraction in Hq. congruence.
  - destruct l as [|x l]; simpl in Hl.
    + injection Hl as <- _. discriminate.
    + injection Hl as <- _. apply in_or_app. right. left. reflexivity.
Qed.

(** C10. Whenever the routine gets through the search form and the
    filters, it sleeps for 50,000,000 seconds before it looks for any job
    card or link: every such look-up in a run comes after that wait, a run
    that got through the filters has the wait in its trace, and every run
    that returns a list of links has slept for at least 50,000,000 seconds
    in total. *)
Theorem search_waits_before_extracting (experience : string)
    (freshness : option string) (max_jobs : nat)
    (industries departments : option (list string))
    (b : Selenium.Browser) (stdin : list string) :
  let run := Selenium.search_naukri_with_selenium experience freshness max_jobs
               industries departments b stdin in
  (reaches_post_filter experience freshness industries departments b stdin ->
   In (Selenium.Slept 50000000) (fst (fst run))
   /\ 50000000 <= Selenium.total_sleep (fst (fst run)))
  /\ (forall (t1 t2 : list Selenium.Ev) (e : Selenium.Ev),
        fst (fst run) = t1 ++ e :: t2 ->
        Selenium.is_extraction e = true ->
        In (Selenium.Slept 50000000) t1)
  /\ (forall links : list string,
        snd run = Ok links ->
        reaches_post_filter experience freshness industries departments b stdin
        /\ 50000000 <= Selenium.total_sleep (fst (fst run))).
Proof.
  intros run.
  destruct (search_shape experience freshness max_jobs industries departments
              b stdin) as [(Hno & Hquiet & e & Hraise)
                          |(Hreach & t1 & t2 & Htrace & Hquiet & Hn1 & Hn2)];
    fold run in Hquiet, Hraise || fold run in Htrace.
  - split; [intros H; contradiction|]. split.
    + intros u1 u2 x Heq Hx. rewrite Heq in Hquiet.
      apply Forall_app in Hquiet as [_ Hq]. apply Forall_cons in Hq as [Hq _].
      unfold no_extraction in Hq. congruence.
    + intros links Hlinks. congruence.
  - split; [|split].
    + intros _. rewrite Htrace. split.
      * apply in_or_app. right. left. reflexivity.
      * now apply total_sleep_with_wait.
    + intros u1 u2 x Heq Hx. rewrite Htrace in Heq.
      eapply extraction_after_wait; eassumption.
    + intros links _. split; [exact Hreach|]. rewrite Htrace.
      now apply total_sleep_with_wait.
Qed.

Lemma calm_site_reaches_post_filter :
  reaches_post_filter "2" (Some "7"%string) None None Scenario.calm_site
    ["n"; "n"]%string.
Proof.
  repeat split. eexists. eexists. vm_compute. reflexivity.
Defined.

Lemma search_waits_before_extracting_witness :
  In (Selenium.Slept 50000000)
    (fst (fst (Selenium.search_naukri_with_selenium "2" (Some "7"%string) 3 None
                 None Scenario.calm_site ["n"; "n"]%string)))
  /\ 50000000
     <= Selenium.total_sleep
          (fst (fst (Selenium.search_naukri_with_selenium "2" (Some "7"%string) 3
                       None None Scenario.calm_site ["n"; "n"]%string))).
Proof.
  exact (proj1 (search_waits_before_extracting "2" (Some "7"%string) 3 None None
                  Scenario.calm_site ["n"; "n"]%string)
           calm_site_reaches_post_filter).
Defined.

(** ** Worked examples *)

(** Scenario D: the role occurs three times in the title and earns one
    point. *)
Example single_role_three_occurrences :
  let job :=
    ranked_job_of
      {| job_id := Some 7;
         role := Some "Data Analyst / Senior Data Analyst (Data Analyst team)";
         company_name := Some "Acme"; location_of := Some "Pune";
         job_url := Some "https://www.naukri.com/job-7";
         apply_type := Some "direct"; application_method := None |}
      7 "Matched 7 out of 10 keywords with your resume" in
  PyStr.occurrences (PyStr.lower "Data Analyst") (PyStr.lower (title job)) = 3%nat
  /\ role_bonus ["Data Analyst"]%string job = 1
  /\ score (add_role_bonus ["Data Analyst"]%string job) = 8%Q
  /\ explanation (add_role_bonus ["Data Analyst"]%string job)
     = "Role match bonus: +1. Matched 7 out of 10 keywords with your resume".
Proof. cbv zeta. repeat split; vm_compute; reflexivity. Qed.

(** Jobs with equal scores keep their order. *)
Example ranking_keeps_order_of_ties :
  List.map (fun job => get_or (job_id (details job)) 0)
    (rank [] [Scenario.job 1 "direct" 7; Scenario.job 2 "direct" 9;
              Scenario.job 3 "direct" 7; Scenario.job 4 "direct" 8;
              Scenario.job 5 "direct" (14 # 2)])
  = [2; 4; 1; 3; 5].
Proof. vm_compute. reflexivity. Qed.

(** Scenario B: with the filter on, a company-site job is not eligible
    even with the highest score and an overlap. *)
Example company_site_job_not_eligible :
  eligible_ranked_jobs (fun _ _ _ => true) true ["Data Analyst"]%string
    ["python"; "sql"]%string
    [Scenario.job 1 "company_site" 10; Scenario.job 2 "direct" 3]
  = [set_eligibility_reason
       (add_role_bonus ["Data Analyst"]%string (Scenario.job 2 "direct" 3))
       "score or role/skill overlap"].
Proof. vm_compute. reflexivity. Qed.

(** With keyword matching every scored job is listed twice. *)
Example keyword_matching_lists_jobs_twice :
  main_ranked_jobs "3" {[ 1 := Scenario.posting 1 "direct" ]}
    [(1, Some 7%Q, "Matched 7 out of 10 keywords with your resume"%string);
     (2, Some 9%Q, "unknown id"%string); (1, None, "no score"%string)]
  = Ok [ranked_job_of (Scenario.posting 1 "direct") 7
          "Matched 7 out of 10 keywords with your resume";
        ranked_job_of (Scenario.posting 1 "direct") 7
          "Matched 7 out of 10 keywords with your resume"].
Proof.
  vm_compute. reflexivity.
Qed.

(** A run of the search on a calm site: three links, and 50,000,037
    seconds of sleep. *)
Example calm_search_run :
  let run :=
    Selenium.search_naukri_with_selenium "2" (Some "7"%string) 3 None None
      Scenario.calm_site ["n"; "n"]%string in
  snd run = Ok ["https://www.naukri.com/job-11";
                "https://www.naukri.com/job-12";
                "https://www.naukri.com/job-21"]%string
  /\ Selenium.total_sleep (fst (fst run)) = 50000037.
Proof. cbv zeta. split; vm_compute; reflexivity. Qed.

(** * Further properties *)

(** ** Job details: extraction, ids, the dict *)

Lemma job_details_dict_from (l : list JobDetails) (d : gmap Z JobDetails) (k : Z) :
  foldl (fun d job =>
           match job_id job with
           | Some id => <[id := job]> d
           | None => d
           end) d l !! k
  = match last (List.filter (fun job => bool_decide (job_id job = Some k)) l) with
    | Some job => Some job
    | None => d !! k
    end.
Proof.
  revert d. induction l as [|job l IH]; intros d; [reflexivity|].
  simpl foldl. rewrite IH. simpl List.filter.
  destruct (job_id job) as [id|] eqn:E.
  - destruct (decide (id = k)) as [->|Hne].
    + rewrite bool_decide_eq_true_2 by reflexivity.
      destruct (List.filter _ l) as [|x xs] eqn:F.
      * apply lookup_insert_eq.
      * change (last (job :: x :: xs)) with (last (x :: xs)).
        destruct (last (x :: xs)) eqn:L; [reflexivity|].
        apply last_None in L. discriminate.
    + rewrite bool_decide_eq_false_2 by congruence.
      destruct (last _); [reflexivity|]. now apply lookup_insert_ne.
  - rewrite bool_decide_eq_false_2 by discriminate. reflexivity.
Qed.

Lemma last_filter_In {A} (p : A -> bool) (l : list A) (x : A) :
  last (List.filter p l) = Some x -> In x l /\ p x = true.
Proof.
  intros H. apply filter_In. apply list_elem_of_In.
  apply last_Some in H as [l' H]. rewrite H. apply list_elem_of_In.
  apply in_or_app. right. left. reflexivity.
Qed.

(** X1. The dict made from the list of job details holds, under each id,
    the last details of the list that carry this id; so every entry sits
    under its own id and stems from the list, details without an id are
    left out, and every id of the list is a key. *)
Theorem job_details_dict_keeps_last (job_details : list JobDetails) :
  (forall k : Z,
     job_details_dict job_details !! k
     = last (List.filter (fun job => bool_decide (job_id job = Some k))
               job_details))
  /\ (forall (k : Z) (job : JobDetails),
        job_details_dict job_details !! k = Some job ->
        job_id job = Some k /\ In job job_details)
  /\ (forall (k : Z) (job : JobDetails),
        In job job_details -> job_id job = Some k ->
        is_Some (job_details_dict job_details !! k)).
Proof.
  assert (Hlook : forall k : Z,
            job_details_dict job_details !! k
            = last (List.filter (fun job => bool_decide (job_id job = Some k))
                      job_details)).
  { intros k. unfold job_details_dict. rewrite job_details_dict_from.
    destruct (last _); [reflexivity | apply lookup_empty]. }
  split; [exact Hlook|]. split.
  - intros k job H. rewrite Hlook in H. apply last_filter_In in H as [Hin Hk].
    split; [|exact Hin]. now apply bool_decide_eq_true in Hk.
  - intros k job Hin Hk. rewrite Hlook.
    destruct (List.filter _ job_details) as [|x xs] eqn:F.
    + exfalso. assert (In job []) as [].
      rewrite <- F. apply filter_In. split; [exact Hin|].
      now apply bool_decide_eq_true.
    + destruct (last (x :: xs)) eqn:L; [eauto|].
      apply last_None in L. discriminate.
Qed.

Lemma job_details_dict_keeps_last_witness :
  is_Some (job_details_dict [Scenario.posting 4 "direct"] !! 4).
Proof.
  apply (proj2 (proj2 (job_details_dict_keeps_last [Scenario.posting 4 "direct"]))
           4 (Scenario.posting 4 "direct")).
  - left. reflexivity.
  - reflexivity.
Defined.

Lemma assign_job_ids_from (ids : list Z) (n : nat) (ds : list JobDetails) :
  length (assign_job_ids n ids ds) = length ds
  /\ forall i : nat,
       assign_job_ids n ids ds !! i
       = if (i <? n)%nat then ds !! i
         else match ids !! (i - n)%nat with
              | Some id => set_job_id id <$> ds !! i
              | None => ds !! i
              end.
Proof.
  revert n ds. induction ids as [|id ids IH]; intros n ds.
  - split; [reflexivity|]. intros i. simpl. now destruct (i <? n)%nat.
  - simpl assign_job_ids.
    set (ds' := if (n <? length ds)%nat then alter (set_job_id id) n ds else ds).
    assert (Hlen : length ds' = length ds).
    { unfold ds'. destruct (n <? length ds)%nat; [apply length_alter|reflexivity]. }
    destruct (IH (S n) ds') as [IHlen IHlook]. split; [congruence|].
    intros i. rewrite IHlook.
    destruct (Nat.ltb_spec i (S n)) as [E1|E1], (Nat.ltb_spec i n) as [E2|E2];
      try lia.
    + unfold ds'. destruct (n <? length ds)%nat; [|reflexivity].
      apply list_lookup_alter_ne. lia.
    + assert (i = n) as -> by lia. rewrite Nat.sub_diag. simpl.
      unfold ds'. destruct (n <? length ds)%nat eqn:E3.
      * apply list_lookup_alter_eq.
      * apply Nat.ltb_ge in E3. rewrite (lookup_ge_None_2 ds n) by lia.
        reflexivity.
    + replace (i - n)%nat with (S (i - S n)) by lia. simpl.
      assert (ds' !! i = ds !! i) as ->; [|reflexivity].
      unfold ds'. destruct (n <? length ds)%nat; [|reflexivity].
      apply list_lookup_alter_ne. lia.
Qed.

(** X2. Writing the returned job ids into the details keeps the number of
    details, gives the details at each position the id at the same
    position, and leaves the details beyond the last id as they were; ids
    beyond the last details are ignored. *)
Theorem assign_job_ids_by_position (job_ids : list Z)
    (job_details : list JobDetails) :
  length (assign_job_ids 0 job_ids job_details) = length job_details
  /\ forall i : nat,
       assign_job_ids 0 job_ids job_details !! i
       = match job_ids !! i with
         | Some id => set_job_id id <$> job_details !! i
         | None => job_details !! i
         end.
Proof.
  destruct (assign_job_ids_from job_ids 0 job_details) as [Hlen Hlook].
  split; [exact Hlen|]. intros i. rewrite Hlook. simpl.
  now rewrite Nat.sub_0_r.
Qed.

Lemma keep_details_well (details : option JobDetails) (link : string)
    (d : JobDetails) :
  keep_details details link = Some d -> well_extracted d.
Proof.
  unfold keep_details. destruct details as [x|]; [|discriminate].
  destruct (role x) as [r|] eqn:Er; [|discriminate].
  destruct (String.eqb r "Unknown Role") eqn:Eu; [discriminate|].
  apply String.eqb_neq in Eu. simpl.
  destruct (job_url x) as [u|] eqn:Eurl; intros H; injection H as <-.
  - exists r, u. unfold ranked_job_of. simpl. rewrite Er, Eurl. auto.
  - exists r, link. unfold ranked_job_of. simpl. rewrite Er. auto.
Qed.

Lemma extract_each_well (extract : string -> option JobDetails)
    (links : list string) (acc : list JobDetails) :
  Forall well_extracted acc ->
  Forall well_extracted (extract_each extract links acc)
  /\ (length (extract_each extract links acc) <= length acc + length links)%nat.
Proof.
  revert acc. induction links as [|link links IH]; intros acc Hacc; simpl.
  - split; [exact Hacc | lia].
  - destruct (keep_details (extract link) link) as [d|] eqn:E.
    + destruct (IH (acc ++ [d])) as [H1 H2].
      * apply Forall_app. split; [exact Hacc|].
        constructor; [|constructor]. eapply keep_details_well, E.
      * split; [exact H1|]. rewrite List.length_app in H2. simpl in H2. lia.
    + destruct (IH acc Hacc) as [H1 H2]. split; [exact H1 | lia].
Qed.

Lemma py_take_length {A} (n : Z) (l : list A) :
  (length (py_take n l) <= length l)%nat
  /\ (0 <= n -> (length (py_take n l) <= Z.to_nat n)%nat).
Proof.
  unfold py_take. destruct (n <? 0) eqn:E; rewrite List.length_firstn; lia.
Qed.

(** X3. The details kept after extraction all carry a role key whose
    value is not "Unknown Role" and a url key, so that the title and the
    URL of a ranked entry built from them are the values of these two keys
    (whatever text they hold) and not filled in for a missing key; and no
    more details are kept than there are links, nor than [max_jobs] when
    that is not negative. *)
Theorem kept_details_have_role_and_url
    (extract_job_details_from_url : string -> option JobDetails)
    (max_jobs : Z) (job_links : list string) :
  Forall well_extracted
    (extract_job_details extract_job_details_from_url max_jobs job_links)
  /\ (length (extract_job_details extract_job_details_from_url max_jobs job_links)
      <= length job_links)%nat
  /\ (0 <= max_jobs ->
      (length (extract_job_details extract_job_details_from_url max_jobs job_links)
       <= Z.to_nat max_jobs)%nat).
Proof.
  unfold extract_job_details.
  destruct (extract_each_well extract_job_details_from_url
              (py_take max_jobs job_links) []) as [H1 H2]; [constructor|].
  destruct (py_take_length max_jobs job_links) as [H3 H4].
  simpl in H2. split; [exact H1|]. split; [lia|]. intros Hn.
  specialize (H4 Hn). lia.
Qed.

Lemma kept_details_have_role_and_url_witness :
  (length (extract_job_details (fun link => Some (set_url (Scenario.posting 1 "direct") link))
             2 ["a"; "b"; "c"]%string) <= Z.to_nat 2)%nat.
Proof.
  apply (proj2 (proj2 (kept_details_have_role_and_url
                         (fun link => Some (set_url (Scenario.posting 1 "direct") link))
                         2 ["a"; "b"; "c"]%string))).
  lia.
Defined.

(** ** The profile used for matching *)

Lemma existsb_eqb_elem_of (x : string) (l : list string) :
  existsb (String.eqb x) l = true <-> x ∈ l.
Proof.
  rewrite existsb_exists, list_elem_of_In. split.
  - intros (y & Hy & E). apply String.eqb_eq in E. now subst.
  - intros H. exists x. split; [exact H | apply String.eqb_refl].
Qed.

Lemma add_missing_spec (items base : list string) :
  exists extra,
    add_missing items base = base ++ extra
    /\ (forall x, x ∈ extra <-> x ∈ items /\ x ∉ base)
    /\ NoDup extra.
Proof.
  revert base. induction items as [|item items IH]; intros base.
  - exists []. simpl. rewrite app_nil_r. split; [reflexivity|].
    split; [|constructor]. intros x. split; [inversion 1 | intros [H _]; inversion H].
  - simpl. destruct (existsb (String.eqb item) base) eqn:E.
    + apply existsb_eqb_elem_of in E.
      destruct (IH base) as (extra & Heq & Hmem & Hnd).
      exists extra. split; [exact Heq|]. split; [|exact Hnd].
      intros x. rewrite Hmem, elem_of_cons. split; [tauto|].
      intros [[->|H] Hx]; [contradiction | tauto].
    + assert (Hni : item ∉ base).
      { intros H. apply existsb_eqb_elem_of in H. congruence. }
      destruct (IH (base ++ [item])) as (extra & Heq & Hmem & Hnd).
      exists (item :: extra). split; [now rewrite Heq, <- app_assoc|].
      split.
      * intros x. rewrite !elem_of_cons, Hmem, elem_of_app, list_elem_of_singleton.
        split.
        -- intros [->|[Hx Hn]]; [tauto|]. split; [tauto|]. tauto.
        -- intros [[->|Hx] Hn]; [tauto|].
           destruct (decide (x = item)) as [->|Hne]; [tauto|]. right. tauto.
      * constructor; [|exact Hnd]. rewrite Hmem, elem_of_app, list_elem_of_singleton.
        tauto.
Qed.

(** X4. The profile for matching starts with the resume skills as they
    are, then holds the user's skills and roles that were not in it yet:
    its elements are exactly those of the three lists, what is appended is
    free of repetitions, and the whole is free of repetitions when the
    resume skills are. *)
Theorem comprehensive_skills_extend_resume
    (resume_skills user_skills user_roles : list string) :
  exists extra,
    comprehensive_skills resume_skills user_skills user_roles
    = resume_skills ++ extra
    /\ NoDup extra
    /\ (forall x, x ∈ extra -> x ∉ resume_skills)
    /\ (forall x,
          x ∈ comprehensive_skills resume_skills user_skills user_roles
          <-> x ∈ resume_skills \/ x ∈ user_skills \/ x ∈ user_roles)
    /\ (NoDup resume_skills ->
        NoDup (comprehensive_skills resume_skills user_skills user_roles)).
Proof.
  unfold comprehensive_skills.
  destruct (add_missing_spec user_skills resume_skills) as (e1 & H1 & M1 & N1).
  destruct (add_missing_spec user_roles (add_missing user_skills resume_skills))
    as (e2 & H2 & M2 & N2).
  rewrite H2, H1, <- app_assoc. exists (e1 ++ e2).
  assert (Hdis : forall x, x ∈ e1 ++ e2 -> x ∉ resume_skills).
  { intros x. rewrite elem_of_app, M1, M2, H1, elem_of_app. tauto. }
  assert (Hnd : NoDup (e1 ++ e2)).
  { apply NoDup_app. split; [exact N1|]. split; [|exact N2].
    intros x Hx. rewrite M2, H1, elem_of_app. tauto. }
  split; [reflexivity|]. split; [exact Hnd|]. split; [exact Hdis|]. split.
  - intros x. rewrite !elem_of_app, M1, M2, H1, elem_of_app, M1.
    destruct (decide (x ∈ resume_skills)), (decide (x ∈ user_skills)); tauto.
  - intros Hr. apply NoDup_app. split; [exact Hr|]. split; [|exact Hnd].
    intros x Hx Hin. now apply (Hdis x).
Qed.

(** ** Text: comma-separated input *)

Lemma has_char_lstrip (c : ascii) (s : string) :
  Text.has_char c (Text.lstrip s) = true -> Text.has_char c s = true.
Proof.
  induction s as [|d s IH]; simpl; [auto|].
  destruct (Text.isspace d); simpl; [|auto].
  intros H. rewrite (IH H). apply orb_true_r.
Qed.

Lemma has_char_rstrip (c : ascii) (s : string) :
  Text.has_char c (Text.rstrip s) = true -> Text.has_char c s = true.
Proof.
  induction s as [|d s IH]; simpl; [auto|].
  destruct (Text.rstrip s) as [|e t] eqn:E.
  - destruct (Text.isspace d); simpl; [discriminate|].
    rewrite orb_false_r. intros ->. reflexivity.
  - simpl. intros H. apply orb_true_iff in H as [H|H].
    + now rewrite H.
    + simpl in IH. rewrite (IH H). apply orb_true_r.
Qed.

Lemma has_char_strip (c : ascii) (s : string) :
  Text.has_char c (Text.strip s) = true -> Text.has_char c s = true.
Proof. intros H. now apply has_char_lstrip, has_char_rstrip. Qed.

Lemma lstrip_all_space (s : string) :
  (forall c, Text.has_char c s = true -> Text.isspace c = true) ->
  Text.lstrip s = EmptyString.
Proof.
  induction s as [|d s IH]; intros H; [reflexivity|]. simpl.
  rewrite (H d) by (simpl; now rewrite Ascii.eqb_refl).
  apply IH. intros c Hc. apply H. simpl. rewrite Hc. apply orb_true_r.
Qed.

Lemma split_not_nil (sep : ascii) (s : string) : Text.split sep s <> [].
Proof.
  destruct s as [|c s]; simpl; [discriminate|].
  destruct (Ascii.eqb c sep); [discriminate|].
  destruct (Text.split sep s); discriminate.
Qed.

Lemma split_piece_chars (sep c : ascii) (s piece : string) :
  In piece (Text.split sep s) ->
  Text.has_char c piece = true ->
  Text.has_char c s = true /\ c <> sep.
Proof.
  revert piece. induction s as [|d s IH]; intros piece Hin Hc.
  - destruct Hin as [<-|[]]. discriminate.
  - simpl in Hin. destruct (Ascii.eqb d sep) eqn:E.
    + destruct Hin as [<-|Hin]; [discriminate|].
      destruct (IH piece Hin Hc) as [H1 H2]. split; [|exact H2].
      simpl. rewrite H1. apply orb_true_r.
    + apply Ascii.eqb_neq in E.
      destruct (Text.split sep s) as [|p ps] eqn:S.
      * now destruct (split_not_nil sep s).
      * destruct Hin as [<-|Hin].
        -- simpl in Hc. apply orb_true_iff in Hc as [Hc|Hc].
           ++ apply Ascii.eqb_eq in Hc. subst c. split; [|exact E].
              simpl. now rewrite Ascii.eqb_refl.
           ++ destruct (IH p (or_introl eq_refl) Hc) as [H1 H2].
              split; [|exact H2]. simpl. rewrite H1. apply orb_true_r.
        -- destruct (IH piece (or_intror Hin) Hc) as [H1 H2].
           split; [|exact H2]. simpl. rewrite H1. apply orb_true_r.
Qed.

Lemma comma_list_blank (s : string) :
  Text.blank_or_comma s -> Text.comma_list s = [].
Proof.
  intros Hs. unfold Text.comma_list.
  assert (H : forall piece, In piece (Text.split "," s) ->
                            Text.strip piece = EmptyString).
  { intros piece Hin. unfold Text.strip. rewrite lstrip_all_space; [reflexivity|].
    intros c Hc. destruct (split_piece_chars _ _ _ _ Hin Hc) as [H1 H2].
    destruct (Hs c H1); [assumption | contradiction]. }
  induction (Text.split "," s) as [|p ps IH]; [reflexivity|].
  simpl. rewrite (H p) by (left; reflexivity). simpl.
  apply IH. intros piece Hin. apply H. now right.
Qed.

Lemma comma_list_nonempty (s : string) :
  Forall (fun t => t <> EmptyString) (Text.comma_list s).
Proof.
  apply List.Forall_forall. intros t Ht. unfold Text.comma_list in Ht.
  apply filter_In in Ht as [_ Ht]. intros ->. discriminate.
Qed.

Lemma prefix_refl (s : string) : String.prefix s s = true.
Proof.
  induction s as [|c s IH]; [reflexivity|].
  simpl. destruct (ascii_dec c c); [exact IH | congruence].
Qed.

Lemma contains_refl (s : string) : PyStr.contains s s = true.
Proof.
  destruct s as [|c s]; [reflexivity|].
  change (PyStr.contains (String c s) (String c s))
    with (String.prefix (String c s) (String c s)
          || PyStr.contains (String c s) s)%bool.
  now rewrite prefix_refl.
Qed.

Lemma filter_bool_sublist {A} (p : A -> bool) (l : list A) :
  List.filter p l `sublist_of` l.
Proof.
  induction l as [|x l IH]; [constructor|].
  simpl List.filter. destruct (p x); [apply sublist_skip | apply sublist_cons];
    exact IH.
Qed.

Lemma blank_or_comma_check (s : string) :
  forallb (fun d => Text.isspace d || Ascii.eqb d ",")%bool
    (String.list_ascii_of_string s) = true ->
  Text.blank_or_comma s.
Proof.
  induction s as [|d s IH]; intros H c Hc; [discriminate|].
  simpl in H. apply andb_true_iff in H as [Hd Hs].
  change (Text.has_char c (String d s))
    with (Ascii.eqb d c || Text.has_char c s)%bool in Hc.
  apply orb_true_iff in Hc as [Hc|Hc].
  - apply Ascii.eqb_eq in Hc. subst c.
    apply orb_true_iff in Hd as [Hd|Hd]; [now left|].
    right. now apply Ascii.eqb_eq.
  - now apply IH.
Qed.

(** X5. Removing skills before the search keeps the remaining skills in
    their order; an answer made only of blanks and commas removes
    nothing; the tokens of the answer are never empty; no skill that
    stays contains one of them, ignoring case; and a skill named in the
    answer is removed. *)
Theorem skills_removed_by_token (confirm_input : string)
    (search_skills : list string) :
  skills_after_removal confirm_input search_skills `sublist_of` search_skills
  /\ (Text.blank_or_comma confirm_input ->
      skills_after_removal confirm_input search_skills = search_skills)
  /\ Forall (fun t => t <> EmptyString)
       (Text.comma_list (Text.strip confirm_input))
  /\ (forall s t : string,
        In s (skills_after_removal confirm_input search_skills) ->
        In t (Text.comma_list (Text.strip confirm_input)) ->
        PyStr.contains (PyStr.lower t) (PyStr.lower s) = false)
  /\ (forall s : string,
        In s (Text.comma_list (Text.strip confirm_input)) ->
        ~ In s (skills_after_removal confirm_input search_skills)).
Proof.
  assert (Hkept : forall s t : string,
        In s (skills_after_removal confirm_input search_skills) ->
        In t (Text.comma_list (Text.strip confirm_input)) ->
        PyStr.contains (PyStr.lower t) (PyStr.lower s) = false).
  { intros s t Hs Ht. unfold skills_after_removal in Hs.
    destruct (Text.nonempty (Text.strip confirm_input)) eqn:E.
    - apply filter_In in Hs as [_ Hs]. apply negb_true_iff in Hs.
      destruct (PyStr.contains (PyStr.lower t) (PyStr.lower s)) eqn:C;
        [|reflexivity].
      assert (existsb (fun remove => PyStr.contains remove (PyStr.lower s))
                (List.map PyStr.lower (Text.comma_list (Text.strip confirm_input)))
              = true); [|congruence].
      apply existsb_exists. exists (PyStr.lower t). split; [|exact C].
      now apply in_map.
    - destruct (Text.strip confirm_input); [destruct Ht | discriminate]. }
  split; [|split; [|split; [|split]]].
  - unfold skills_after_removal.
    destruct (Text.nonempty _); [apply filter_bool_sublist | reflexivity].
  - intros Hb. unfold skills_after_removal.
    destruct (Text.nonempty _); [|reflexivity].
    rewrite comma_list_blank.
    + simpl. apply forallb_filter_id. apply forallb_forall. reflexivity.
    + intros c Hc. apply Hb. now apply has_char_strip.
  - apply comma_list_nonempty.
  - exact Hkept.
  - intros s Ht Hs. pose proof (Hkept s s Hs Ht) as H.
    rewrite contains_refl in H. discriminate.
Qed.

Lemma skills_removed_by_token_witness :
  skills_after_removal " , ," ["Python"; "SQL"]%string = ["Python"; "SQL"]%string.
Proof.
  apply (proj1 (proj2 (skills_removed_by_token " , ," ["Python"; "SQL"]%string))).
  apply blank_or_comma_check. reflexivity.
Defined.

(** Removal goes by substring: naming "java" also drops "JavaScript". *)
Example removal_is_by_substring :
  skills_after_removal "java" ["Python"; "JavaScript"; "Java"; "SQL"]%string
  = ["Python"; "SQL"]%string.
Proof. vm_compute. reflexivity. Qed.

(** ** Skills on their way through the database *)

Lemma split_no_sep (sep : ascii) (x : string) :
  Text.has_char sep x = false -> Text.split sep x = [x].
Proof.
  induction x as [|c x IH]; intros H; [reflexivity|].
  simpl in H. apply orb_false_iff in H as [H1 H2]. simpl.
  rewrite H1, (IH H2). reflexivity.
Qed.

Lemma split_app_sep (sep : ascii) (x y : string) :
  Text.has_char sep x = false ->
  Text.split sep (x ++ String sep y) = x :: Text.split sep y.
Proof.
  induction x as [|c x IH]; intros H.
  - simpl. now rewrite Ascii.eqb_refl.
  - simpl in H. apply orb_false_iff in H as [H1 H2].
    simpl. rewrite H1, (IH H2). reflexivity.
Qed.

Lemma split_concat (sep : ascii) (x : string) (xs : list string) :
  Forall (fun s => Text.has_char sep s = false) (x :: xs) ->
  Text.split sep (String.concat (String sep EmptyString) (x :: xs)) = x :: xs.
Proof.
  revert x. induction xs as [|y ys IH]; intros x H.
  - simpl. apply split_no_sep. now inversion H.
  - inversion H as [|? ? Hx Hrest]; subst.
    change (String.concat (String sep "") (x :: y :: ys))
      with (x ++ String sep (String.concat (String sep "") (y :: ys)))%string.
    rewrite split_app_sep by exact Hx. now rewrite IH.
Qed.

(** X6. Skills that contain no comma come back from the database as they
    went in, except for the one-element list holding the empty string,
    which comes back empty. *)
Theorem skills_survive_database (skills : list string) :
  Forall (fun s => Text.has_char "," s = false) skills ->
  skills <> [EmptyString] ->
  skills_of_required (skills_required skills) = skills.
Proof.
  intros Hno Hne. unfold skills_of_required, skills_required.
  destruct skills as [|x xs]; [reflexivity|].
  assert (Text.nonempty (String.concat "," (x :: xs)) = true) as ->.
  { destruct xs as [|y ys].
    - simpl. destruct x; [congruence | reflexivity].
    - change (String.concat "," (x :: y :: ys))
        with (x ++ String "," (String.concat "," (y :: ys)))%string.
      destruct x; reflexivity. }
  now apply split_concat.
Qed.

Lemma skills_survive_database_witness :
  skills_of_required (skills_required ["python"; "sql"; ""]%string)
  = ["python"; "sql"; ""]%string.
Proof.
  apply skills_survive_database; [|discriminate].
  repeat constructor.
Defined.

(** A skill with a comma in it comes back as two, and a lone empty skill
    is lost. *)
Example skills_changed_by_database :
  skills_of_required (skills_required ["C, C++"; "sql"]%string)
  = ["C"; " C++"; "sql"]%string
  /\ skills_of_required (skills_required [""%string]) = [].
Proof. split; reflexivity. Qed.

(** ** Ranking, once more *)

Lemma role_match_score_nonneg (user_roles : list string) (job_role : string) :
  0 <= role_match_score user_roles job_role.
Proof.
  induction user_roles as [|r rs IH]; simpl; [lia|].
  destruct (PyStr.contains (PyStr.lower r) job_role); lia.
Qed.

Lemma inject_Z_le (a b : Z) : a <= b -> (inject_Z a <= inject_Z b)%Q.
Proof. intros H. now rewrite <- Zle_Qle. Qed.

(** X7. Whatever the list of roles, the bonus leaves title, URL and
    details alone; a score of at most 10 is never lowered, grows by at
    most 2 and stays at most 10; a score above 10 is cut to 10 when some
    role matches and is left as it is when none does. *)
Theorem role_bonus_moves_score_within_bounds (user_roles : list string)
    (job : RankedJob) :
  title (add_role_bonus user_roles job) = title job
  /\ url (add_role_bonus user_roles job) = url job
  /\ details (add_role_bonus user_roles job) = details job
  /\ ((score job <= 10)%Q ->
      (score job <= score (add_role_bonus user_roles job))%Q
      /\ (score (add_role_bonus user_roles job) <= score job + 2)%Q
      /\ (score (add_role_bonus user_roles job) <= 10)%Q)
  /\ ((10 < score job)%Q ->
      (score (add_role_bonus user_roles job)
       == if 0 <? role_bonus user_roles job then 10 else score job)%Q).
Proof.
  pose proof (role_match_score_nonneg user_roles (PyStr.lower (title job))) as Hn.
  assert (Hb : 0 <= role_bonus user_roles job <= 2).
  { unfold role_bonus. lia. }
  split; [|split; [|split]];
    try (unfold add_role_bonus;
         destruct (0 <? role_match_score user_roles (PyStr.lower (title job)));
         reflexivity).
  rewrite add_role_bonus_score.
  destruct (0 <? role_bonus user_roles job) eqn:E.
  - assert (Hpos : (0 <= inject_Z (role_bonus user_roles job))%Q)
      by (apply (inject_Z_le 0); lia).
    assert (Htwo : (inject_Z (role_bonus user_roles job) <= 2)%Q)
      by (apply (inject_Z_le _ 2); lia).
    split.
    + intros Hle. rewrite py_min_Qmin. split; [|split].
      * apply Q.min_glb; [|exact Hle].
        rewrite <- (Qplus_0_r (score job)) at 1.
        apply Qplus_le_compat; [apply Qle_refl | exact Hpos].
      * eapply Qle_trans; [apply Q.le_min_l|].
        apply Qplus_le_compat; [apply Qle_refl | exact Htwo].
      * apply Q.le_min_r.
    + intros Hgt. rewrite py_min_Qmin. apply Q.min_r.
      apply Qlt_le_weak. eapply Qlt_le_trans; [exact Hgt|].
      rewrite <- (Qplus_0_r (score job)) at 1.
      apply Qplus_le_compat; [apply Qle_refl | exact Hpos].
  - split.
    + intros Hle. split; [apply Qle_refl|]. split; [|exact Hle].
      rewrite <- (Qplus_0_r (score job)) at 1.
      apply Qplus_le_compat; [apply Qle_refl | discriminate].
    + intros _. reflexivity.
Qed.

Lemma role_bonus_moves_score_within_bounds_witness :
  (score (Scenario.job 1 "direct" 9)
   <= score (add_role_bonus ["Data Analyst"]%string (Scenario.job 1 "direct" 9)))%Q.
Proof.
  apply (proj1 (proj2 (proj2 (proj2 (role_bonus_moves_score_within_bounds
                 ["Data Analyst"]%string (Scenario.job 1 "direct" 9)))))).
  discriminate.
Defined.



Lemma filter_none {A} (p : A -> bool) (l : list A) :
  Forall (fun a => p a = false) l -> List.filter p l = [].
Proof.
  induction 1 as [|a l Ha _ IH]; [reflexivity|]. simpl. now rewrite Ha.
Qed.

Lemma threshold_on_sorted (m : Q) (l : list RankedJob) :
  StronglySorted desc l ->
  let kept := List.filter (fun job => Qle_bool m (score job)) l in
  kept = firstn (length kept) l
  /\ Forall (fun job => (score job < m)%Q) (skipn (length kept) l).
Proof.
  induction 1 as [|y l Hs IH Hall]; [split; [reflexivity | constructor]|].
  cbv zeta in *. simpl List.filter.
  destruct (Qle_bool m (score y)) eqn:E.
  - simpl. destruct IH as [IH1 IH2]. split; [now rewrite <- IH1 | exact IH2].
  - apply Qle_bool_false in E.
    assert (Hlow : Forall (fun job => (score job < m)%Q) l).
    { eapply List.Forall_impl; [|exact Hall]. intros z Hz. unfold desc in Hz.
      eapply Qle_lt_trans; eassumption. }
    rewrite filter_none.
    + simpl. split; [reflexivity|]. constructor; assumption.
    + eapply List.Forall_impl; [|exact Hlow]. intros z Hz. simpl in Hz.
      destruct (Qle_bool m (score z)) eqn:F; [|reflexivity].
      apply Qle_bool_iff in F. exfalso. eapply Qlt_not_le; eassumption.
Qed.

(** X9. When the ranked jobs are read back from the file that the ranking
    step wrote, the jobs that go on are the leading jobs of the ranking:
    all of them reach the minimum score and every job after them is below
    it. *)
Theorem jobs_from_file_are_top_of_ranking (user_roles : list string)
    (jobs : list RankedJob) (min_score : Q) :
  let ranked := rank user_roles jobs in
  let kept := ranked_jobs_from_file (Some ranked) min_score in
  kept = firstn (length kept) ranked
  /\ Forall (fun job => (min_score <= score job)%Q) kept
  /\ Forall (fun job => (score job < min_score)%Q) (skipn (length kept) ranked).
Proof.
  intros ranked kept.
  assert (Hk : kept = List.filter (fun job => Qle_bool min_score (score job)) ranked).
  { unfold kept, ranked_jobs_from_file. now destruct ranked. }
  assert (Hs : StronglySorted desc ranked).
  { unfold ranked, rank. apply sort_by_score_desc_sorted. }
  destruct (threshold_on_sorted min_score ranked Hs) as [H1 H2].
  rewrite <- Hk in H1, H2. split; [exact H1|]. split; [|exact H2].
  rewrite Hk. apply List.Forall_forall. intros job Hin.
  apply filter_In in Hin as [_ Hin]. now apply Qle_bool_iff.
Qed.

(** ** The eligibility loop, for any verdict *)

Lemma split_by_verdict_spec (verdict : RankedJob -> bool * string)
    (l eligible ineligible : list RankedJob) :
  split_by_verdict verdict l eligible ineligible
  = (eligible ++
       List.map (fun job => set_eligibility_reason job (snd (verdict job)))
         (List.filter (fun job => fst (verdict job)) l),
     ineligible ++ List.filter (fun job => negb (fst (verdict job))) l).
Proof.
  revert eligible ineligible.
  induction l as [|job l IH]; intros eligible ineligible; simpl.
  - now rewrite !app_nil_r.
  - destruct (verdict job) as [[|] reason] eqn:E; simpl;
      rewrite IH, <- app_assoc, ?E; simpl; rewrite ?E; reflexivity.
Qed.

(** X10. The eligibility loop puts every ranked job into exactly one of
    its two lists, whatever the verdicts are: both lists keep the ranking
    order, the eligible jobs are the ranked jobs with a reason attached
    and nothing else changed, and the ineligible jobs are left untouched.
    The loop of [main] is this loop with [check_job_eligibility] as the
    verdict. *)
Theorem eligibility_loop_partitions (verdict : RankedJob -> bool * string)
    (ranked_jobs : list RankedJob) :
  let eligible := fst (split_by_verdict verdict ranked_jobs [] []) in
  let ineligible := snd (split_by_verdict verdict ranked_jobs [] []) in
  (length eligible + length ineligible)%nat = length ranked_jobs
  /\ Permutation (List.map url eligible ++ List.map url ineligible)
       (List.map url ranked_jobs)
  /\ List.map url eligible `sublist_of` List.map url ranked_jobs
  /\ List.map score eligible `sublist_of` List.map score ranked_jobs
  /\ ineligible `sublist_of` ranked_jobs
  /\ Forall (fun job => is_Some (eligibility_reason job)) eligible
  /\ forall has_token_overlap user_roles search_skills,
       select_eligible has_token_overlap user_roles search_skills ranked_jobs [] []
       = split_by_verdict
           (fun job => check_job_eligibility has_token_overlap job user_roles 5
                         search_skills)
           ranked_jobs [] [].
Proof.
  cbv zeta. rewrite split_by_verdict_spec. simpl.
  assert (Hmap : forall (B : Type) (f : RankedJob -> B),
            (forall job r, f (set_eligibility_reason job r) = f job) ->
            List.map f
              (List.map (fun job => set_eligibility_reason job (snd (verdict job)))
                 (List.filter (fun job => fst (verdict job)) ranked_jobs))
            = List.map f (List.filter (fun job => fst (verdict job)) ranked_jobs)).
  { intros B f Hf. rewrite List.map_map. apply List.map_ext. intros job. apply Hf. }
  split; [|split; [|split; [|split; [|split; [|split]]]]].
  - rewrite List.length_map. apply List.filter_length.
  - rewrite Hmap by reflexivity. rewrite <- List.map_app.
    apply Permutation_map, filter_both_perm.
  - rewrite Hmap by reflexivity. apply (fmap_sublist url), filter_bool_sublist.
  - rewrite Hmap by reflexivity. apply (fmap_sublist score), filter_bool_sublist.
  - apply filter_bool_sublist.
  - apply List.Forall_forall. intros job Hin.
    apply in_map_iff in Hin as (j & <- & _). simpl. eauto.
  - intros ov roles skills. rewrite select_eligible_filter, split_by_verdict_spec.
    f_equal. f_equal. apply List.map_ext_in. intros job Hin.
    apply filter_In in Hin as [_ Hin]. unfold check_job_eligibility in *.
    destruct (Qltb (score job) 5 && negb (ov job roles skills))%bool;
      [discriminate | reflexivity].
Qed.

(** ** The bulk hand-over *)

(** X12. When [apply_to_multiple_jobs] returns, it returns a list, and a
    non-empty one for a non-empty queue: either the non-empty list found
    in the results file, or else the queue itself, in its order, with every
    job marked as not applied.  So the branches of [main] for results that
    are empty or not a list are never taken. *)
Theorem apply_to_multiple_jobs_returns_list (w : World)
    (job_queue : list RankedJob) (trace : list Event) (results : PyVal) :
  apply_to_multiple_jobs w job_queue = (trace, Ok results) ->
  trace = [BulkWorker job_queue]
  /\ is_list results = true
  /\ (job_queue <> [] -> truthy_val results = true)
  /\ ((exists item items,
         application_results_json w = PyList (item :: items)
         /\ results = PyList (item :: items))
      \/ ((forall item items, application_results_json w <> PyList (item :: items))
          /\ results = PyList (List.map (fun job => set_applied job false) job_queue))).
Proof.
  unfold apply_to_multiple_jobs. destruct (bulk_handoff w); [|discriminate].
  destruct (application_results_json w) as [|[|item items]|[|]] eqn:E;
    cbn [truthy_val is_list negb orb]; intros H; injection H as <- <-;
    (split; [reflexivity|]); (split; [reflexivity|]);
    (split; [first [destruct job_queue; [congruence | reflexivity]
                   | reflexivity]|]);
    try (right; split; [intros; discriminate | reflexivity]).
  left. eauto.
Qed.

Lemma apply_to_multiple_jobs_returns_list_witness :
  is_list (PyList (List.map (fun job => set_applied job false)
                     Scenario.five_direct_jobs)) = true.
Proof.
  exact (proj1 (proj2 (apply_to_multiple_jobs_returns_list
                         (Scenario.bulk_world PyNone) Scenario.five_direct_jobs
                         _ _ eq_refl))).
Defined.

(** X13. A bulk run starts the worker exactly once, with the jobs of a
    direct apply type in ranking order, and does nothing else between
    starting the browser and saving the report (which [save_json] writes
    when the database is not in use): no connector call per job and no
    pause.  Without such jobs the worker is not started at all. *)
Theorem bulk_run_trace (w : World) (args : Args) (details_id : nat -> nat)
    (ranked_jobs : list RankedJob) :
  enters_apply_phase args ranked_jobs = true ->
  auto_apply args = true ->
  start_browser w = true ->
  (direct_apply_jobs ranked_jobs = [] ->
   fst (main_apply_phase w args details_id ranked_jobs)
   = StartBrowser :: save_json (database_available w) SaveReport
       ++ [CloseBrowser])
  /\ (direct_apply_jobs ranked_jobs <> [] -> bulk_handoff w = true ->
      fst (main_apply_phase w args details_id ranked_jobs)
      = StartBrowser :: BulkWorker (direct_apply_jobs ranked_jobs)
          :: save_json (database_available w) SaveReport ++ [CloseBrowser])
  /\ (database_available w = false ->
      (direct_apply_jobs ranked_jobs = [] ->
       fst (main_apply_phase w args details_id ranked_jobs)
       = [StartBrowser; SaveReport; CloseBrowser])
      /\ (direct_apply_jobs ranked_jobs <> [] -> bulk_handoff w = true ->
          fst (main_apply_phase w args details_id ranked_jobs)
          = [StartBrowser; BulkWorker (direct_apply_jobs ranked_jobs);
             SaveReport; CloseBrowser]))
  /\ connector_calls (fst (main_apply_phase w args details_id ranked_jobs))
     = 0%nat
  /\ sleeps (fst (main_apply_phase w args details_id ranked_jobs)) = [].
Proof.
  intros He Ha Hs. unfold main_apply_phase, bulk_apply, apply_to_multiple_jobs.
  rewrite He, Ha, Hs.
  destruct (direct_apply_jobs ranked_jobs) as [|d ds] eqn:Ed.
  - destruct (database_available w); repeat split; congruence.
  - destruct (database_available w);
      (destruct (bulk_handoff w);
       [destruct (application_results_json w) as [|[|item items]|[|]]|]);
      cbn [truthy_val is_list negb orb rbind fst snd o_trace app save_json];
      repeat split; intros; congruence.
Qed.

Lemma bulk_run_trace_witness :
  connector_calls
    (fst (main_apply_phase (Scenario.bulk_world PyNone) Scenario.auto_args
            (fun k => k) Scenario.five_direct_jobs)) = 0%nat.
Proof.
  exact (proj1 (proj2 (proj2 (proj2
           (bulk_run_trace (Scenario.bulk_world PyNone)
              Scenario.auto_args (fun k => k) Scenario.five_direct_jobs
              eq_refl eq_refl eq_refl))))).
Defined.

(** X14. With the database in use the results file is never read, so a
    bulk run reports every job it handed over as failed and none as
    applied, whatever the worker wrote into the file. *)
Theorem database_makes_bulk_run_fail (w : World) (args : Args)
    (details_id : nat -> nat) (ranked_jobs : list RankedJob)
    (files : gmap string (FileContent PyVal)) :
  Ok (application_results_json w) = load_application_results true files ->
  enters_apply_phase args ranked_jobs = true ->
  auto_apply args = true ->
  start_browser w = true ->
  bulk_handoff w = true ->
  direct_apply_jobs ranked_jobs <> [] ->
  exists r,
    snd (main_apply_phase w args details_id ranked_jobs) = Returned 0 (Some r)
    /\ applied_jobs r = []
    /\ failed_jobs r = List.map report_entry (direct_apply_jobs ranked_jobs)
    /\ skipped_jobs r = [].
Proof.
  intros Hfile He Ha Hs Hb Hd.
  destruct (bulk_run w args details_id ranked_jobs He Ha Hs Hb Hd)
    as (o & Hrun & Hsk & Hres).
  change (load_application_results true files) with (Ok PyNone) in Hfile.
  injection Hfile as Hfile. rewrite Hfile in Hres.
  destruct Hres as [Happ Hfail].
  exists (make_report o). rewrite Hrun. split; [reflexivity|].
  unfold make_report. simpl. rewrite Happ, Hfail, Hsk, List.map_map.
  repeat split.
Qed.

Lemma database_makes_bulk_run_fail_witness :
  exists r,
    snd (main_apply_phase Scenario.database_world Scenario.auto_args
           (fun k => k) Scenario.five_direct_jobs) = Returned 0 (Some r)
    /\ applied_jobs r = [].
Proof.
  destruct (database_makes_bulk_run_fail Scenario.database_world
              Scenario.auto_args (fun k => k) Scenario.five_direct_jobs
              {[ "application_results.json"%string
                 := JsonOf (PyList Scenario.four_results) ]})
    as (r & Hr & Ha & _);
    [reflexivity | reflexivity | reflexivity | reflexivity | reflexivity
    | discriminate |].
  exists r. split; assumption.
Defined.

(** ** The per-job loop, once more *)

Lemma count_event_none (p : Event -> bool) (t : list Event) :
  Forall (fun e => p e = false) t -> count_event p t = 0%nat.
Proof. intros H. unfold count_event. now rewrite filter_none. Qed.

Lemma attempts_are_loop_events (w : World) (l : list RankedJob) (i : nat) :
  Forall loop_event (gather (attempt_events w) i l).
Proof.
  revert i. induction l as [|job l IH]; intros i; simpl; [constructor|].
  apply Forall_app. split; [|apply IH]. unfold attempt_events.
  destruct (run_naukri_chatbot w i job) as [|rc out [|]]; repeat constructor.
Qed.

Lemma loop_events_neither_start_nor_close (t : list Event) (db : bool) :
  Forall loop_event t ->
  count_event is_start (t ++ save_json db SaveReport) = 0%nat
  /\ count_event is_close (t ++ save_json db SaveReport) = 0%nat.
Proof.
  intros H. split; apply count_event_none, Forall_app;
    (split; [|destruct db; repeat constructor]);
    (eapply List.Forall_impl; [|exact H]); intros [] He; try reflexivity;
    destruct He.
Qed.

(** X15. The browser is closed exactly when it was started: a run that
    does not reach the application phase leaves no event at all; when
    the browser does not start nothing is closed; and when it starts, the
    run ends by closing it, whichever way the phase is left, and neither
    starts nor closes a browser in between. *)
Theorem browser_closed_when_started (w : World) (args : Args)
    (details_id : nat -> nat) (ranked_jobs : list RankedJob) :
  (enters_apply_phase args ranked_jobs = false ->
   main_apply_phase w args details_id ranked_jobs = ([], Returned 0 None))
  /\ (enters_apply_phase args ranked_jobs = true -> start_browser w = false ->
      fst (main_apply_phase w args details_id ranked_jobs) = [StartBrowser])
  /\ (enters_apply_phase args ranked_jobs = true -> start_browser w = true ->
      exists body,
        fst (main_apply_phase w args details_id ranked_jobs)
        = StartBrowser :: body ++ [CloseBrowser]
        /\ count_event is_start body = 0%nat
        /\ count_event is_close body = 0%nat).
Proof.
  split; [|split].
  - unfold main_apply_phase. now intros ->.
  - unfold main_apply_phase. now intros -> ->.
  - intros He Hs. destruct (auto_apply args) eqn:Ha.
    + unfold main_apply_phase. rewrite He, Hs, Ha.
      unfold bulk_apply, apply_to_multiple_jobs, save_json.
      destruct (database_available w);
        (destruct (direct_apply_jobs ranked_jobs) as [|d ds];
         [|destruct (bulk_handoff w);
             [destruct (application_results_json w) as [|[|item items]|[|]]|]]);
        cbn [truthy_val is_list negb orb rbind fst snd o_trace app];
        first [ exists [SaveReport]; repeat split; fail
              | exists [BulkWorker (d :: ds); SaveReport]; repeat split; fail
              | exists [BulkWorker (d :: ds)]; repeat split; fail
              | exists []; repeat split; fail
              ].
    + destruct (open_portal w) eqn:Ho; [destruct (ensure_logged_in w) eqn:Hl|].
      * rewrite regular_run by assumption. cbn [fst].
        exists (gather (attempt_events w) 0 ranked_jobs
                ++ save_json (database_available w) SaveReport).
        rewrite <- app_assoc. split; [reflexivity|].
        apply loop_events_neither_start_nor_close, attempts_are_loop_events.
      * unfold main_apply_phase, regular_apply. rewrite He, Hs, Ha, Ho, Hl.
        exists []. repeat split.
      * unfold main_apply_phase, regular_apply. rewrite He, Hs, Ha, Ho.
        exists []. repeat split.
Qed.

Lemma browser_closed_when_started_witness :
  fst (main_apply_phase Scenario.no_browser Scenario.apply_args (fun k => k)
         Scenario.five_direct_jobs) = [StartBrowser].
Proof.
  exact (proj1 (proj2 (browser_closed_when_started Scenario.no_browser
                         Scenario.apply_args (fun k => k)
                         Scenario.five_direct_jobs))
           eq_refl eq_refl).
Defined.

Lemma applied_entries_started (w : World) (l : list RankedJob) (i : nat) :
  (length (gather (applied_entries w) i l)
   <= length (gather (started w) i l))%nat.
Proof.
  revert i. induction l as [|job l IH]; intros i; simpl; [lia|].
  rewrite !List.length_app. specialize (IH (S i)).
  assert (length (applied_entries w i job) <= length (started w i job))%nat.
  { unfold applied_entries, started.
    destruct (run_naukri_chatbot w i job) as [|rc out late]; simpl; [lia|].
    destruct (rc =? 0); simpl; lia. }
  lia.
Qed.

(** X16. In the per-job mode an entry is reported as applied only after
    its connector sub-process ran and exited with status 0: every applied
    line of the report is the line of an entry of the list whose attempt
    ended that way, and there are never more applied lines than connector
    calls.  The branch that only simulates an application is never
    taken. *)
Theorem applied_only_after_successful_call (w : World) (args : Args)
    (details_id : nat -> nat) (ranked_jobs : list RankedJob) (r : Report) :
  enters_apply_phase args ranked_jobs = true ->
  auto_apply args = false ->
  report_of (snd (main_apply_phase w args details_id ranked_jobs)) = Some r ->
  apply args = true
  /\ (applied_count r
      <= connector_calls (fst (main_apply_phase w args details_id ranked_jobs)))%nat
  /\ forall e : ReportEntry,
       In e (applied_jobs r) ->
       exists k job out late,
         ranked_jobs !! k = Some job
         /\ run_naukri_chatbot w k job = Exited 0 out late
         /\ e = reported w details_id ranked_jobs (k, job).
Proof.
  intros He Ha Hr.
  pose proof (enters_regular_applies _ _ He Ha) as Hap.
  split; [exact Hap|].
  destruct (regular_report w args details_id ranked_jobs r He Ha Hr)
    as (Hs & Ho & Hl).
  rewrite regular_run in * by assumption. cbn [fst snd report_of] in *.
  injection Hr as <-. cbn [applied_count applied_jobs]. split.
  - rewrite connector_calls_run_trace, connector_calls_urls,
      connector_urls_attempts.
    apply applied_entries_started.
  - intros e Hin. apply in_map_iff in Hin as ([k job] & <- & Hin).
    apply In_gather in Hin as (k' & job' & Hk' & Hin).
    unfold applied_entries in Hin. simpl in Hin.
    destruct (run_naukri_chatbot w k' job') as [|rc out late] eqn:E;
      [destruct Hin|].
    destruct (Z.eqb_spec rc 0) as [->|]; [|destruct Hin].
    destruct Hin as [Hin|[]]. injection Hin as <- <-.
    exists k', job', out, late. auto.
Qed.

Lemma applied_only_after_successful_call_witness :
  apply Scenario.apply_args = true.
Proof.
  exact (proj1 (applied_only_after_successful_call
                  (Scenario.world_with Scenario.quiet_attempt)
                  Scenario.apply_args (fun k => k) Scenario.five_direct_jobs _
                  eq_refl eq_refl eq_refl)).
Defined.








Lemma sleeps_attempts_count (w : World) (l : list RankedJob) (i : nat) :
  no_attempt_raises w ->
  length (sleeps (gather (attempt_events w) i l)) = length l.
Proof.
  intros Hno. revert i. induction l as [|job l IH]; intros i; simpl; [reflexivity|].
  unfold sleeps in *. rewrite flat_map_app, List.length_app, IH.
  unfold attempt_events. destruct (Hno i job) as (rc & out & ->). reflexivity.
Qed.

Lemma sum_Z_bounds (l : list Z) :
  Forall (fun n => 5 <= n <= 10) l ->
  5 * Z.of_nat (length l) <= sum_Z l <= 10 * Z.of_nat (length l).
Proof.
  induction 1 as [|n l Hn _ IH]; simpl; [lia|].
  unfold sum_Z in *. simpl. lia.
Qed.

(** X18. When no attempt raises, the per-job run pauses once after every
    job, the last one included, so that the pauses of a run over n jobs
    add up to between 5n and 10n seconds; the run ends by closing the
    browser. *)
Theorem pause_after_every_job (w : World) (args : Args)
    (details_id : nat -> nat) (ranked_jobs : list RankedJob) :
  enters_apply_phase args ranked_jobs = true ->
  auto_apply args = false ->
  start_browser w = true -> open_portal w = true -> ensure_logged_in w = true ->
  no_attempt_raises w ->
  length (sleeps (fst (main_apply_phase w args details_id ranked_jobs)))
  = length ranked_jobs
  /\ 5 * Z.of_nat (length ranked_jobs)
     <= sum_Z (sleeps (fst (main_apply_phase w args details_id ranked_jobs)))
     <= 10 * Z.of_nat (length ranked_jobs)
  /\ last (fst (main_apply_phase w args details_id ranked_jobs))
     = Some CloseBrowser.
Proof.
  intros He Ha Hs Ho Hl Hno.
  rewrite regular_run by assumption. cbn [fst]. rewrite sleeps_run_trace.
  pose proof (sleeps_attempts_count w ranked_jobs 0 Hno) as Hlen.
  split; [exact Hlen|]. split.
  - rewrite <- Hlen. apply sum_Z_bounds, sleeps_attempts.
  - rewrite app_assoc, app_comm_cons. apply last_snoc.
Qed.

Lemma pause_after_every_job_witness :
  length (sleeps (fst (main_apply_phase (Scenario.world_with Scenario.quiet_attempt)
                         Scenario.apply_args (fun k => k)
                         Scenario.five_direct_jobs)))
  = 5%nat.
Proof.
  apply (proj1 (pause_after_every_job (Scenario.world_with Scenario.quiet_attempt)
                  Scenario.apply_args (fun k => k) Scenario.five_direct_jobs
                  eq_refl eq_refl eq_refl eq_refl eq_refl
                  (fun i job => ex_intro _ 0 (ex_intro _ _ eq_refl)))).
Defined.

(** Keyword matching builds two entries for a posting, which share its
    details dict.  The run attempts both.  Here the first attempt exits
    with status 0 and names no method, the second exits with status 1
    after naming the direct route: the report shows [direct] on both
    lines, the applied one included. *)
Example keyword_matching_attempts_twice :
  let job_details : gmap Z JobDetails := {[ 1 := Scenario.posting 1 "direct" ]} in
  let attempt (i : nat) (job : RankedJob) :=
    match i with
    | O => Exited 0 "Application submitted" false
    | _ => Exited 1 "Failed while using direct apply" false
    end in
  exists ranked_jobs r,
    main_ranked_jobs "3" job_details [(1, Some 9%Q, "9 of 10"%string)]
    = Ok ranked_jobs
    /\ length ranked_jobs = 2%nat
    /\ main_apply_phase (Scenario.world_with attempt) Scenario.apply_args
         (fun _ => 0%nat) ranked_jobs
       = ([StartBrowser;
           ConnectorCall (url (Scenario.job 1 "direct" 9)); Sleep 8;
           ConnectorCall (url (Scenario.job 1 "direct" 9)); Sleep 9;
           SaveReport; CloseBrowser],
          Returned 0 (Some r))
    /\ List.map r_application_method (applied_jobs r) = ["direct"%string]
    /\ List.map r_application_method (failed_jobs r) = ["direct"%string].
Proof.
  cbv zeta. eexists. eexists. split; [vm_compute; reflexivity|].
  split; [reflexivity|]. split; [vm_compute; reflexivity|]. split; reflexivity.
Qed.

(** ** The Selenium search, once more *)

Section PageLoop.

Import Selenium.

Variable b : Browser.
Variable pages : list nat.

Lemma lookup_is_loop_call (t : list Ev) :
  Forall (lookup_event pages) t -> Forall (loop_call pages) t.
Proof.
  apply List.Forall_impl. intros [n|c|prompt]; simpl; try contradiction.
  destruct c; simpl; auto; contradiction.
Qed.

Lemma lookup_never_clicks (t : list Ev) :
  Forall (lookup_event pages) t -> clicks_of_next t = 0%nat.
Proof.
  unfold clicks_of_next.
  induction 1 as [|e t He _ IH]; [reflexivity|].
  destruct e as [n|c|prompt]; try contradiction.
  destruct c; try contradiction; exact IH.
Qed.

Lemma clicks_of_next_app (t1 t2 : list Ev) :
  clicks_of_next (t1 ++ t2) = (clicks_of_next t1 + clicks_of_next t2)%nat.
Proof.
  unfold clicks_of_next. now rewrite List.filter_app, List.length_app.
Qed.

Lemma find_job_cards_spec (p : nat) (selectors : list nat) (stdin : list string) :
  In p pages ->
  exists t n,
    find_job_cards p selectors b stdin = (t, stdin, Ok n)
    /\ Forall (lookup_event pages) t.
Proof.
  intros Hp. induction selectors as [|selector rest IH].
  - exists [], 0%nat. split; [reflexivity | constructor].
  - destruct IH as (t & n & E & Ht).
    cbn [find_job_cards]. unfold bind, try_except, call, ret, browser.
    destruct (fails b (WaitCards p selector));
      [|destruct (fails b (FindCards p selector));
        [|destruct (cards b p selector)]];
      simpl; rewrite ?E; simpl; eexists; eexists;
      (split; [reflexivity|]); repeat (constructor; [exact Hp|]);
      first [exact Ht | constructor].
Qed.

Lemma card_link_spec (p card : nat) (selectors : list nat) (stdin : list string) :
  In p pages ->
  exists t r,
    card_link p card selectors b stdin = (t, stdin, Ok r)
    /\ Forall (lookup_event pages) t
    /\ match r with Some link => link_on b pages link | None => True end.
Proof.
  intros Hp. induction selectors as [|selector rest IH].
  - exists [], None. split; [reflexivity|]. split; [constructor | exact I].
  - destruct IH as (t & r & E & Ht & Hr).
    cbn [card_link]. unfold bind, try_except, call, ret, browser.
    destruct (fails b (CardLink p card selector));
      [|destruct (href b p card selector) as [|c u] eqn:Eh];
      simpl; rewrite ?E; simpl; eexists; eexists;
      (split; [reflexivity|]);
      (split; [repeat (constructor; [exact Hp|]);
               first [exact Ht | constructor]|]);
      try exact Hr.
    split; [discriminate|]. exists p, card, selector. now rewrite Eh.
Qed.

Lemma page_links_spec (p : nat) (remaining i : nat) (links : list string)
    (stdin : list string) :
  In p pages ->
  Forall (link_on b pages) links ->
  exists t links',
    page_links p i remaining links b stdin = (t, stdin, Ok links')
    /\ Forall (lookup_event pages) t
    /\ Forall (link_on b pages) links'.
Proof.
  intros Hp. revert i links.
  induction remaining as [|n IH]; intros i links Hl.
  - exists [], links. split; [reflexivity|]. split; [constructor | exact Hl].
  - cbn [page_links]. unfold bind at 1.
    destruct (card_link_spec p i [0; 1; 2; 3; 4]%nat stdin Hp)
      as (t & r & E & Ht & Hr).
    rewrite E.
    destruct (IH (S i) (match r with
                        | Some job_url => links ++ [job_url]
                        | None => links
                        end)) as (t' & links' & E' & Ht' & Hl').
    { destruct r; [|exact Hl]. apply Forall_app. split; [exact Hl|].
      constructor; [exact Hr | constructor]. }
    rewrite E'. exists (t ++ t'), links'. split; [reflexivity|].
    split; [|exact Hl']. apply Forall_app. now split.
Qed.

Lemma find_next_button_spec (p : nat) (selectors : list nat) (next_button : bool)
    (stdin : list string) :
  In p pages ->
  exists t r,
    find_next_button p selectors next_button b stdin = (t, stdin, Ok r)
    /\ Forall (lookup_event pages) t.
Proof.
  intros Hp. revert next_button.
  induction selectors as [|selector rest IH]; intros next_button.
  - exists [], next_button. split; [reflexivity | constructor].
  - cbn [find_next_button]. unfold bind, try_except, call, probe, ret.
    destruct (IH true) as (t1 & r1 & E1 & Ht1).
    destruct (IH next_button) as (t2 & r2 & E2 & Ht2).
    destruct (fails b (FindNext p selector));
      [|destruct (fails b (NextUsable p selector));
        [|destruct (finds b (NextUsable p selector))]];
      simpl; rewrite ?E1, ?E2; simpl; eexists; eexists;
      (split; [reflexivity|]); repeat (constructor; [exact Hp|]);
      first [exact Ht1 | exact Ht2 | constructor].
Qed.

(** Lines 829-878: the move to the next page. *)
Lemma next_page_spec (p : nat) (stdin : list string) :
  In p pages ->
  exists t moved,
    try_except
      (let* next_button := find_next_button p [0; 1; 2; 3; 4]%nat false in
       if next_button then
         call (Screenshot "naukri_before_next") >>
         call (ClickNext p) >>
         sleep 5 >>
         call (Screenshot "naukri_after_next") >>
         ret true
       else ret false)
      (ret false) b stdin = (t, stdin, Ok moved)
    /\ Forall (loop_call pages) t
    /\ (clicks_of_next t <= 1)%nat.
Proof.
  intros Hp.
  destruct (find_next_button_spec p [0; 1; 2; 3; 4]%nat false stdin Hp)
    as (t & r & E & Ht).
  pose proof (lookup_never_clicks t Ht) as Hc.
  apply lookup_is_loop_call in Ht.
  unfold try_except, bind at 1. rewrite E.
  destruct r; unfold bind, call, sleep, ret;
    [destruct (fails b (Screenshot "naukri_before_next"));
     [|destruct (fails b (ClickNext p));
       [|destruct (fails b (Screenshot "naukri_after_next"))]]|];
    simpl; eexists; eexists; (split; [reflexivity|]);
    rewrite ?app_nil_r, ?clicks_of_next_app, ?Forall_app, Hc;
    (split; [repeat split; try exact Ht;
             repeat (constructor; try exact I; try reflexivity; try exact Hp)
            |unfold clicks_of_next; simpl; lia]).
Qed.

Lemma extract_pages_spec (max_jobs : nat) (later : list nat) (p : nat)
    (job_links : list string) (stdin : list string) :
  In p pages -> (forall q, In q later -> In q pages) ->
  (length job_links <= max_jobs)%nat ->
  Forall (link_on b pages) job_links ->
  exists t links,
    extract_pages max_jobs p later job_links b stdin = (t, stdin, Ok links)
    /\ (length links <= max_jobs)%nat
    /\ Forall (link_on b pages) links
    /\ Forall (loop_call pages) t
    /\ (clicks_of_next t <= length later)%nat.
Proof.
  revert p job_links.
  induction later as [|next_page later IH]; intros p job_links Hp Hlater Hlen Hl.
  all: destruct (find_job_cards_spec p [0; 1; 2; 3; 4]%nat stdin Hp)
         as (t & n & E & Ht).
  all: pose proof (lookup_never_clicks t Ht) as Hc.
  all: pose proof (lookup_is_loop_call t Ht) as Ht'.
  all: destruct n as [|n].
  all: try (destruct (page_links_spec p (S n) 1 [] stdin Hp (List.Forall_nil _))
             as (t1 & page_job_links & E1 & Ht1 & Hl1);
            pose proof (lookup_never_clicks t1 Ht1) as Hc1;
            pose proof (lookup_is_loop_call t1 Ht1) as Ht1').
  all: cbn [extract_pages]; unfold bind at 1; rewrite E.
  - exists (t ++ []), job_links. split; [reflexivity|].
    rewrite app_nil_r, Hc. auto with arith.
  - unfold bind at 1. rewrite E1.
    assert (Hall : Forall (link_on b pages) (job_links ++ page_job_links))
      by (apply Forall_app; now split).
    destruct (Nat.leb_spec max_jobs (length (job_links ++ page_job_links)));
      [|destruct (p <? max_pages)%nat];
      (eexists; eexists; split; [reflexivity|]);
      rewrite ?app_nil_r, !clicks_of_next_app, Hc, Hc1;
      (split; [rewrite ?List.length_firstn; lia|]);
      (split; [try exact Hall; apply Forall_take, Hall|]);
      (split; [rewrite ?Forall_app; repeat split; first [assumption | constructor]
              |unfold clicks_of_next; simpl; lia]).
  - exists (t ++ []), job_links. split; [reflexivity|].
    rewrite app_nil_r, Hc. split; [exact Hlen|]. split; [exact Hl|].
    split; [exact Ht' | lia].
  - unfold bind at 1. rewrite E1.
    assert (Hall : Forall (link_on b pages) (job_links ++ page_job_links))
      by (apply Forall_app; now split).
    destruct (Nat.leb_spec max_jobs (length (job_links ++ page_job_links)))
      as [Hmax|Hmax];
      [|destruct (p <? max_pages)%nat].
    + eexists; eexists; split; [reflexivity|].
      rewrite ?app_nil_r, !clicks_of_next_app, Hc, Hc1.
      split; [rewrite List.length_firstn; lia|].
      split; [apply Forall_take, Hall|].
      (split; [rewrite ?Forall_app; repeat split; first [assumption | constructor]
              |unfold clicks_of_next; simpl; lia]).
    + destruct (next_page_spec p stdin Hp) as (t2 & moved & E2 & Ht2 & Hc2).
      unfold bind at 1. rewrite E2.
      destruct moved.
      * destruct (IH next_page (job_links ++ page_job_links))
          as (t3 & links & E3 & Hlen3 & Hl3 & Ht3 & Hc3);
          [apply Hlater; now left
          |intros q Hq; apply Hlater; now right
          |lia
          |exact Hall|].
        rewrite E3. exists (t ++ t1 ++ t2 ++ t3), links.
        split; [reflexivity|]. split; [exact Hlen3|]. split; [exact Hl3|].
        rewrite !clicks_of_next_app, Hc, Hc1, !Forall_app. simpl.
        split; [auto | lia].
      * exists (t ++ t1 ++ t2 ++ []), (job_links ++ page_job_links).
        split; [reflexivity|]. split; [lia|]. split; [exact Hall|].
        rewrite app_nil_r, !clicks_of_next_app, Hc, Hc1, !Forall_app. simpl.
        split; [auto | lia].
    + eexists; eexists; split; [reflexivity|].
      rewrite ?app_nil_r, !clicks_of_next_app, Hc, Hc1.
      split; [lia|]. split; [exact Hall|].
      (split; [rewrite ?Forall_app; repeat split; first [assumption | constructor]
              |unfold clicks_of_next; simpl; lia]).
Qed.

End PageLoop.

Lemma on_no_page_weaken (pages : list nat) (t : list Selenium.Ev) :
  Forall (fun e => not_quit e /\ on_pages [] e) t ->
  Forall not_quit t /\ Forall (on_pages pages) t /\ clicks_of_next t = 0%nat.
Proof.
  unfold clicks_of_next.
  induction 1 as [|e t [Hq He] _ (IH1 & IH2 & IH3)]; [repeat constructor|].
  split; [now constructor|].
  destruct e as [n|c|prompt]; [| |now repeat constructor].
  - now repeat constructor.
  - destruct c; try contradiction; simpl; rewrite ?IH3;
      split; try reflexivity; now constructor.
Qed.

Lemma loop_call_weaken (pages : list nat) (t : list Selenium.Ev) :
  Forall (loop_call pages) t ->
  Forall not_quit t /\ Forall (on_pages pages) t.
Proof.
  induction 1 as [|e t He _ [IH1 IH2]]; [repeat constructor|].
  split; constructor; try assumption.
  - intros ->. exact He.
  - destruct e as [n|c|prompt]; [exact I| |exact I]. destruct c; try exact I; exact He.
Qed.

Lemma search_and_filter_no_page (experience : string)
    (freshness : option string) (industries departments : option (list string)) :
  emits_only (fun e => not_quit e /\ on_pages [] e)
    (Selenium.search_and_filter experience freshness industries departments).
Proof.
  unfold Selenium.search_and_filter, Selenium.click_search_container,
    Selenium.fill_input, Selenium.select_experience,
    Selenium.click_search_button, Selenium.apply_freshness_filter,
    Selenium.industry_filter, Selenium.department_filter, Selenium.confirm.
  emits; (split; [intro; discriminate | exact I]).
Qed.

Lemma wait_and_extract_spec (max_jobs : nat) (b : Selenium.Browser)
    (stdin : list string) :
  exists t r,
    Selenium.wait_and_extract max_jobs b stdin
    = (Selenium.Slept 50000000
       :: Selenium.Called (Selenium.Screenshot "naukri_final_results") :: t,
       stdin, r)
    /\ Forall (loop_call [1; 2; 3]%nat) t
    /\ (clicks_of_next t <= 2)%nat
    /\ match r with
       | Ok links =>
           Selenium.fails b (Selenium.Screenshot "naukri_final_results") = false
           /\ (length links <= max_jobs)%nat
           /\ Forall (link_on b [1; 2; 3]%nat) links
       | Raise _ =>
           Selenium.fails b (Selenium.Screenshot "naukri_final_results") = true
       end.
Proof.
  unfold Selenium.wait_and_extract.
  cbv beta iota delta [Selenium.bind Selenium.sleep Selenium.call].
  destruct (Selenium.fails b (Selenium.Screenshot "naukri_final_results")).
  - exists [], (Raise OtherError). split; [reflexivity|].
    split; [constructor|]. split; [unfold clicks_of_next; simpl; lia | reflexivity].
  - destruct (Selenium.fails b (Selenium.Screenshot "naukri_page_1")).
    + eexists; eexists. split; [reflexivity|].
      split; [repeat constructor|].
      split; [unfold clicks_of_next; simpl; lia|].
      split; [reflexivity|]. split; [simpl; lia | constructor].
    + destruct (extract_pages_spec b [1; 2; 3]%nat max_jobs [2; 3]%nat 1 [] stdin)
        as (t & links & E & Hlen & Hl & Ht & Hc);
        [now left | intros q Hq; now right | simpl; lia | constructor |].
      rewrite E. eexists; eexists. split; [reflexivity|].
      split; [constructor; [exact I | exact Ht]|].
      split; [exact Hc|]. auto.
Qed.

(** The routine once the browser is up: its trace is that of the start,
    then of the [try] block, then the call of [quit]; it returns the links
    when the block got as far as binding them. *)
Lemma search_outcome (experience : string) (freshness : option string)
    (max_jobs : nat) (industries departments : option (list string))
    (b : Selenium.Browser) (stdin : list string) :
  browser_up b ->
  let run := Selenium.search_naukri_with_selenium experience freshness max_jobs
               industries departments b stdin in
  exists t r,
    fst (fst run) = t ++ [Selenium.Called Selenium.Quit]
    /\ Forall not_quit t
    /\ Forall (on_pages [1; 2; 3]%nat) t
    /\ (clicks_of_next t <= 2)%nat
    /\ snd run = match r with
                 | Some links => Ok links
                 | None => Raise UnboundLocalError
                 end
    /\ match r with
       | Some links =>
           reaches_post_filter experience freshness industries departments b stdin
           /\ Selenium.fails b (Selenium.Screenshot "naukri_final_results") = false
           /\ (length links <= max_jobs)%nat
           /\ Forall (link_on b [1; 2; 3]%nat) links
       | None =>
           ~ (reaches_post_filter experience freshness industries departments
                b stdin
              /\ Selenium.fails b (Selenium.Screenshot "naukri_final_results")
                 = false)
       end.
Proof.
  intros Hup. pose proof Hup as (H1 & H2 & H3). cbv zeta.
  unfold Selenium.search_naukri_with_selenium, reaches_post_filter.
  cbv beta iota delta [Selenium.bind Selenium.try_except Selenium.call
                         Selenium.ret Selenium.raise].
  rewrite H1, H2, H3.
  pose proof (search_and_filter_no_page experience freshness industries
                departments b stdin) as Hform.
  destruct (Selenium.search_and_filter experience freshness industries
              departments b stdin) as [[t0 s0] [[]|e0]]; simpl in Hform;
    apply (on_no_page_weaken [1; 2; 3]%nat) in Hform as (Hq0 & Hp0 & Hc0).
  - destruct (wait_and_extract_spec max_jobs b s0)
      as (t & r & E & Ht & Hc & Hr).
    rewrite E. apply loop_call_weaken in Ht as [Hq Hp].
    exists ([Selenium.Called Selenium.MakeScreenshotDir;
             Selenium.Called Selenium.StartChrome;
             Selenium.Called Selenium.Maximize]
            ++ t0 ++ Selenium.Slept 50000000
            :: Selenium.Called (Selenium.Screenshot "naukri_final_results") :: t).
    exists (match r with Ok links => Some links | Raise _ => None end).
    split.
    { destruct r; destruct (Selenium.fails b Selenium.Quit); cbn [fst snd app];
        rewrite ?app_nil_r, <- ?app_assoc; reflexivity. }
    split.
    { repeat (constructor; [intro; discriminate|]).
      apply Forall_app. split; [exact Hq0|].
      repeat (constructor; [intro; discriminate|]). exact Hq. }
    split.
    { repeat (constructor; [exact I|]).
      apply Forall_app. split; [exact Hp0|].
      repeat (constructor; [exact I|]). exact Hp. }
    split.
    { change (clicks_of_next
                (t0 ++ Selenium.Slept 50000000
                 :: Selenium.Called (Selenium.Screenshot "naukri_final_results")
                 :: t) <= 2)%nat.
      rewrite clicks_of_next_app, Hc0. exact Hc. }
    split.
    { destruct r; destruct (Selenium.fails b Selenium.Quit); reflexivity. }
    destruct r as [links|e].
    + destruct Hr as (Hshot & Hlen & Hl). repeat split; eauto.
    + intros [_ Hshot]. congruence.
  - exists ([Selenium.Called Selenium.MakeScreenshotDir;
             Selenium.Called Selenium.StartChrome;
             Selenium.Called Selenium.Maximize] ++ t0), None.
    split.
    { destruct (Selenium.fails b Selenium.Quit); cbn [fst snd app];
        rewrite ?app_nil_r, <- ?app_assoc; reflexivity. }
    split; [repeat (constructor; [intro; discriminate|]); exact Hq0|].
    split; [repeat (constructor; [exact I|]); exact Hp0|].
    split; [change (clicks_of_next t0 <= 2)%nat; lia|].
    split; [destruct (Selenium.fails b Selenium.Quit); reflexivity|].
    intros [(_ & _ & _ & t & s & H) _]. discriminate.
Qed.

(** The routine when the browser does not come up: it raises before the
    [try] block, with nothing to quit. *)
Lemma search_without_browser (experience : string) (freshness : option string)
    (max_jobs : nat) (industries departments : option (list string))
    (b : Selenium.Browser) (stdin : list string) :
  ~ browser_up b ->
  let run := Selenium.search_naukri_with_selenium experience freshness max_jobs
               industries departments b stdin in
  snd run = Raise OtherError
  /\ Forall (fun e => not_quit e /\ on_pages [] e) (fst (fst run)).
Proof.
  intros Hup. cbv zeta. unfold browser_up in Hup.
  unfold Selenium.search_naukri_with_selenium.
  cbv beta iota delta [Selenium.bind Selenium.call].
  destruct (Selenium.fails b Selenium.MakeScreenshotDir);
    [|destruct (Selenium.fails b Selenium.StartChrome);
      [|destruct (Selenium.fails b Selenium.Maximize);
        [|exfalso; apply Hup; auto]]];
    (split; [reflexivity|]);
    repeat (constructor; [split; [intro; discriminate | exact I]|]);
    constructor.
Qed.

Lemma browser_up_or_not (b : Selenium.Browser) : browser_up b \/ ~ browser_up b.
Proof.
  unfold browser_up.
  destruct (Selenium.fails b Selenium.MakeScreenshotDir);
    destruct (Selenium.fails b Selenium.StartChrome);
    destruct (Selenium.fails b Selenium.Maximize); auto;
    right; intros (? & ? & ?); discriminate.
Qed.

(** X19. The list the search routine returns never holds more than
    [max_jobs] links (for the non-negative [max_jobs] of the model), and
    each of them is a non-empty [href] read from a job card on page 1, 2
    or 3 of the results. *)
Theorem search_returns_at_most_max_jobs (experience : string)
    (freshness : option string) (max_jobs : nat)
    (industries departments : option (list string))
    (b : Selenium.Browser) (stdin : list string) (links : list string) :
  snd (Selenium.search_naukri_with_selenium experience freshness max_jobs
         industries departments b stdin) = Ok links ->
  (length links <= max_jobs)%nat
  /\ Forall (link_on b [1; 2; 3]%nat) links.
Proof.
  intros Hrun. destruct (browser_up_or_not b) as [Hup|Hup].
  - destruct (search_outcome experience freshness max_jobs industries
                departments b stdin Hup) as (t & r & _ & _ & _ & _ & Hr & H).
    rewrite Hrun in Hr. destruct r as [links'|]; [|discriminate].
    injection Hr as ->. tauto.
  - destruct (search_without_browser experience freshness max_jobs industries
                departments b stdin Hup) as [Hr _].
    congruence.
Qed.

Lemma search_returns_at_most_max_jobs_witness :
  exists links,
    snd (Selenium.search_naukri_with_selenium "2" (Some "7"%string) 3 None None
           Scenario.calm_site ["n"; "n"]%string) = Ok links
    /\ (length links <= 3)%nat.
Proof.
  eexists. split; [vm_compute; reflexivity|].
  exact (proj1 (search_returns_at_most_max_jobs "2" (Some "7"%string) 3 None None
                  Scenario.calm_site ["n"; "n"]%string _ eq_refl)).
Defined.

(** X20. Once the browser is up, the routine calls [quit] as the very
    last thing and nowhere else, whatever happened before.  It returns a
    list of links exactly when it got through the search form and the
    filters and the screenshot of the final results was taken; in every
    other case the [return] of the [finally] clause replaces the exception
    under way by [UnboundLocalError]. *)
Theorem browser_quit_last_and_once (experience : string)
    (freshness : option string) (max_jobs : nat)
    (industries departments : option (list string))
    (b : Selenium.Browser) (stdin : list string) :
  browser_up b ->
  let run := Selenium.search_naukri_with_selenium experience freshness max_jobs
               industries departments b stdin in
  let got_through :=
    reaches_post_filter experience freshness industries departments b stdin
    /\ Selenium.fails b (Selenium.Screenshot "naukri_final_results") = false in
  (exists t, fst (fst run) = t ++ [Selenium.Called Selenium.Quit]
             /\ Forall not_quit t)
  /\ ((exists links, snd run = Ok links) <-> got_through)
  /\ (~ got_through -> snd run = Raise UnboundLocalError).
Proof.
  intros Hup. cbv zeta.
  destruct (search_outcome experience freshness max_jobs industries
              departments b stdin Hup) as (t & r & Ht & Hq & _ & _ & Hr & H).
  split; [eauto|]. rewrite Hr. destruct r as [links|].
  - split; [|tauto]. split; [tauto | eauto].
  - split; [|reflexivity]. split; [intros [links E]; discriminate | tauto].
Qed.

Lemma browser_quit_last_and_once_witness :
  exists t,
    fst (fst (Selenium.search_naukri_with_selenium "2" (Some "7"%string) 3 None
                None Scenario.calm_site []))
    = t ++ [Selenium.Called Selenium.Quit]
    /\ Forall not_quit t.
Proof.
  apply (browser_quit_last_and_once "2" (Some "7"%string) 3 None None
           Scenario.calm_site []).
  repeat split.
Defined.

(** X21. No run of the search routine looks for job cards, links or the
    [Next] button on a page other than 1, 2 and 3, and none clicks [Next]
    more than twice. *)
Theorem extraction_stays_on_three_pages (experience : string)
    (freshness : option string) (max_jobs : nat)
    (industries departments : option (list string))
    (b : Selenium.Browser) (stdin : list string) :
  let trace := fst (fst (Selenium.search_naukri_with_selenium experience
                           freshness max_jobs industries departments b stdin)) in
  Forall (on_pages [1; 2; 3]%nat) trace
  /\ (clicks_of_next trace <= 2)%nat.
Proof.
  cbv zeta. destruct (browser_up_or_not b) as [Hup|Hup].
  - destruct (search_outcome experience freshness max_jobs industries
                departments b stdin Hup) as (t & r & -> & _ & Hp & Hc & _).
    rewrite clicks_of_next_app. split.
    + apply Forall_app. split; [exact Hp | repeat constructor].
    + unfold clicks_of_next at 2. simpl. lia.
  - destruct (search_without_browser experience freshness max_jobs industries
                departments b stdin Hup) as [_ Ht].
    apply (on_no_page_weaken [1; 2; 3]%nat) in Ht as (_ & Hp & Hc).
    split; [exact Hp | lia].
Qed.

(** On a site with two cards a page, a search for ten jobs turns the page
    twice and comes back with the six links of the three pages. *)
Example calm_search_turns_two_pages :
  let run := Selenium.search_naukri_with_selenium "2" (Some "7"%string) 10 None
               None Scenario.calm_site ["n"; "n"]%string in
  clicks_of_next (fst (fst run)) = 2%nat
  /\ match snd run with Ok links => length links | Raise _ => 0%nat end = 6%nat.
Proof. vm_compute. split; reflexivity. Qed.

Lemma read_departments_spec (departments : list string) (stdin : list string) :
  forall (selected0 : list string) (t : list Selenium.Ev) (stdin' : list string)
         (selected : list string),
    Selenium.read_departments departments selected0 stdin
    = (t, stdin', Ok selected) ->
    NoDup selected0 ->
    (forall d, d ∈ selected0 -> d ∈ departments) ->
    NoDup selected
    /\ (forall d, d ∈ selected -> d ∈ departments)
    /\ (length selected < length selected0 + length t)%nat
    /\ (length t + length stdin' = length stdin)%nat.
Proof.
  induction stdin as [|line rest IH]; intros selected0 t stdin' selected E Hnd Hin;
    simpl in E; [discriminate|].
  destruct (String.eqb (Selenium.strip line) "0").
  - injection E as <- <- <-. simpl. repeat split; auto; lia.
  - match type of E with
    | context [Selenium.read_departments departments ?s rest] =>
        remember s as selected1 eqn:E1;
        destruct (Selenium.read_departments departments selected1 rest)
          as [[t1 s1] r1] eqn:Erec
    end.
    injection E as <- <- ->.
    assert (H1 : NoDup selected1 /\ (forall d, d ∈ selected1 -> d ∈ departments)
                 /\ (length selected1 <= S (length selected0))%nat).
    { subst selected1.
      destruct (if Selenium.isdigit (Selenium.strip line)
                then Selenium.digits_value (Selenium.strip line) 0 else None)
        as [n|]; [|auto].
      destruct ((1 <=? n) && (n <=? Z.of_nat (length departments)))%bool; [|auto].
      destruct (departments !! Z.to_nat (n - 1)) as [d|] eqn:Ed; [|auto].
      destruct (existsb (String.eqb d) selected0) eqn:Ex; [auto|].
      assert (Hd : d ∉ selected0).
      { intros H. apply existsb_eqb_elem_of in H. congruence. }
      split; [|split].
      - apply NoDup_app. split; [exact Hnd|].
        split; [|apply NoDup_singleton].
        intros x Hx Hx'. apply list_elem_of_singleton in Hx'. now subst.
      - intros x Hx. apply elem_of_app in Hx as [Hx|Hx]; [auto|].
        apply list_elem_of_singleton in Hx. subst.
        eapply list_elem_of_lookup_2, Ed.
      - rewrite List.length_app. simpl. lia. }
    destruct H1 as (Hnd1 & Hin1 & Hlen1).
    destruct (IH selected1 t1 s1 selected Erec Hnd1 Hin1) as (Ha & Hb & Hc & Hd).
    simpl. repeat split; auto; lia.
Qed.

(** X22. When the loop that reads department numbers ends, on the line
    [0], the departments it has selected are pairwise distinct and all
    taken from the list on offer, and there are fewer of them than lines
    were read; each prompt consumed one line of standard input. *)
Theorem department_selection_distinct (departments : list string)
    (stdin stdin' : list string) (t : list Selenium.Ev) (selected : list string) :
  Selenium.read_departments departments [] stdin = (t, stdin', Ok selected) ->
  NoDup selected
  /\ (forall d, d ∈ selected -> d ∈ departments)
  /\ (length selected < length t)%nat
  /\ (length t + length stdin' = length stdin)%nat.
Proof.
  intros E.
  apply (read_departments_spec departments stdin [] t stdin' selected E).
  - constructor.
  - intros d H. inversion H.
Qed.

Lemma department_selection_distinct_witness :
  NoDup ["Sales"; "IT"]%string
  /\ (forall d, d ∈ ["Sales"; "IT"]%string -> d ∈ ["IT"; "Sales"; "HR"]%string)
  /\ (2 < 6)%nat
  /\ (6 + 1 = 7)%nat.
Proof.
  exact (department_selection_distinct ["IT"; "Sales"; "HR"]%string
           ["2"; " 1 "; "2"; "7"; "x"; "0"; "3"]%string ["3"%string] _ _ eq_refl).
Defined.
